(** * Robust Bayesian Committee Machine (flare/rbcm.py)

    A shallow embedding of [RobustBayesianCommitteeMachine]: the per-expert
    training store, the expert router, the factorization refresh policy, the
    product-of-experts prediction, training and model persistence.

    The Python object is mutated in place and may be left half-updated when
    an exception escapes, so every method is a computation in a state and
    exception monad whose state survives a raise.  Numbers, kernels, numpy's
    linear algebra and scipy's optimizer are collaborators that live outside
    the file; they are taken as an interface ([Arith], [Extern]) and every
    result below holds for all implementations of it. *)

From Stdlib Require Import ZArith List String Ascii Bool Lia Sorted.
From stdpp Require Import base list gmap strings.

Local Open Scope Z_scope.

(** ** Python exceptions and outcomes *)

Inductive exn : Type :=
| IndexError | KeyError | AttributeError | TypeError | ValueError
| AssertionError | ZeroDivisionError | LinAlgError | Warning | RuntimeError.

Global Instance exn_eq_dec : EqDecision exn.
Proof. solve_decision. Defined.

Inductive outcome (A : Type) : Type :=
| Returns (a : A)
| Raises (e : exn).
Arguments Returns {A} a.
Arguments Raises {A} e.

(** ** Python sequences *)

(** [l[i]] for a Python int [i]: negative indices count from the end, and
    anything outside [-len, len) is an [IndexError] (here [None]). *)
Definition norm_index (len : nat) (i : Z) : option nat :=
  if 0 <=? i then
    if i <? Z.of_nat len then Some (Z.to_nat i) else None
  else
    if - Z.of_nat len <=? i then Some (Z.to_nat (Z.of_nat len + i)) else None.

Definition py_get {A} (l : list A) (i : Z) : option A :=
  match norm_index (length l) i with
  | Some k => l !! k
  | None => None
  end.

(** [range(n)] *)
Definition range (n : Z) : list Z := map Z.of_nat (seq 0 (Z.to_nat n)).

(** [np.hstack] of a list of one-dimensional arrays; numpy refuses the empty
    list ("need at least one array to concatenate"). *)
Definition hstack {A} (arrs : list (list A)) : option (list A) :=
  match arrs with
  | [] => None
  | _ => Some (concat arrs)
  end.

(** [str.lower] on ASCII text. *)
Definition lower_ascii (c : ascii) : ascii :=
  let n := nat_of_ascii c in
  if ((65 <=? n)%nat && (n <=? 90)%nat)%bool then ascii_of_nat (n + 32) else c.

Fixpoint lower (s : string) : string :=
  match s with
  | EmptyString => EmptyString
  | String c r => String (lower_ascii c) (lower r)
  end.

(** ** Collaborators *)

(** Floating-point numbers with numpy's total arithmetic (division by zero
    and the logarithm of a non-positive number yield inf/nan, not an
    exception).  No algebraic law is assumed. *)
Class Arith (F : Type) := {
  f_zero : F;
  f_one : F;
  f_half : F;
  f_add : F -> F -> F;
  f_sub : F -> F -> F;
  f_mul : F -> F -> F;
  f_div : F -> F -> F;
  f_neg : F -> F;
  f_log : F -> F;
  f_is_zero : F -> bool
}.

(** Result object of [scipy.optimize.minimize]: [res.x], [res.fun],
    [res.jac]. *)
Record OptimizeResult (F Hyps : Type) := mkRes {
  res_x : Hyps;
  res_fun : F;
  res_jac : list F
}.
Arguments mkRes {F Hyps} _ _ _.
Arguments res_x {F Hyps} _.
Arguments res_fun {F Hyps} _.
Arguments res_jac {F Hyps} _.

(** What the process-wide registry exposes for one key: environments, flat
    force labels, structures, energy labels. *)
Definition reg_view (F Env : Type) : Type :=
  (list Env * list F * list (list Env) * list F)%type.

(** Kernels and matrix builders of [flare.gp_algebra], [flare.env], numpy's
    [linalg] and [matmul], and scipy's [minimize].  The cutoffs and the
    hyperparameter mask never change and are part of the functions.  The
    [option] results are numpy's failures: [LinAlgError] for [cholesky] and
    [inv], a shape mismatch ([ValueError]) for [matmul]. *)
Class Extern (F Env Struc Hyps Mat Bounds Opts : Type) := {
  num_atoms : Struc -> nat;
  AtomicEnvironment : Struc -> Z -> Env;
  kernel : Env -> Env -> Z -> Z -> Hyps -> F;
  get_kernel_vector : list Env -> list (list Env) -> Env -> Z -> Hyps -> list F;
  get_Ky_mat : Hyps -> list Env -> list (list Env) -> Mat;
  get_ky_mat_update : Mat -> Z -> Hyps -> list Env -> list (list Env) -> Mat;
  get_like_from_mats : Mat -> Mat -> list F -> list F -> list F -> F;
  cholesky : Mat -> option Mat;
  inv : Mat -> option Mat;
  transpose : Mat -> Mat;
  matmul_mm : Mat -> Mat -> option Mat;
  matmul_mv : Mat -> list F -> option (list F);
  matmul_vm : list F -> Mat -> option (list F);
  matmul_vv : list F -> list F -> option F;
  np_sum : list F -> F;
  default_bounds : Hyps -> Bounds;
  minimize : string -> Hyps -> option Bounds -> Opts ->
             list (reg_view F Env) -> outcome (OptimizeResult F Hyps)
}.

(** Calls that leave the object: the expensive collaborators and the file
    system.  The log is ghost state used to say which of them a method
    reached. *)
Inductive call : Type :=
| Call_get_Ky_mat (expert_id : Z)
| Call_get_ky_mat_update (expert_id : Z)
| Call_get_kernel_vector (expert_id : Z)
| Call_minimize (method : string)
| Call_pickle_dump (file : string).

Section Model.

Context {F Env Struc Hyps Mat Bounds Opts : Type}.
Context {AR : Arith F}.
Context {EX : Extern F Env Struc Hyps Mat Bounds Opts}.

(** ** The object *)

(** The per-expert training store: one entry per expert in each list. *)
Record Store := mkStore {
  training_data : list (list Env);
  training_labels : list (list (list F));
  training_labels_np : list (list F);
  n_envs_prev : list Z;
  training_structures : list (list (list Env));
  energy_labels : list (list F);
  energy_labels_np : list (list F);
  all_labels : list (list F)
}.

(** The per-expert matrices set during training ([None] until then). *)
Record Factors := mkFactors {
  ky_mat : list (option Mat);
  force_block : list (option Mat);
  energy_block : list (option Mat);
  force_energy_block : list (option Mat);
  l_mat : list (option Mat);
  alpha : list (option (list F));
  ky_mat_inv : list (option Mat);
  likelihood : list (option F)
}.

(** The scalar attributes.  [logger] is [false] when [self.logger] is
    [None]. *)
Record Attrs := mkAttrs {
  n_experts : Z;
  prior_variance : F;
  log_prior_var : F;
  ndata_per_expert : Z;
  current_expert : Z;
  hyps : Hyps;
  opt_algorithm : string;
  bounds : option Bounds;
  logger : bool;
  total_likelihood : option F;
  total_likelihood_gradient : option (list F)
}.

(** The object together with the module-level dictionaries
    [_global_training_data], [_global_training_labels],
    [_global_training_structures], [_global_energy_labels] of
    [flare.gp_algebra].  A key [f"{name}_{i}"] is represented by [i].  The
    dictionaries store the two label arrays by value (the object replaces
    them on every update) and the two Python lists by reference: the entry
    remembers which expert's lists it aliases and reads them live. *)
Record State := mkState {
  attrs : Attrs;
  store : Store;
  factors : Factors;
  registry : gmap Z (nat * list F * list F);
  calls : list call
}.

Definition M (A : Type) : Type := State -> outcome A * State.

Definition ret {A} (a : A) : M A := fun s => (Returns a, s).

Definition bind {A B} (c : M A) (k : A -> M B) : M B :=
  fun s =>
    match c s with
    | (Returns a, s') => k a s'
    | (Raises e, s') => (Raises e, s')
    end.

Definition raise {A} (e : exn) : M A := fun s => (Raises e, s).
Definition get : M State := fun s => (Returns s, s).
Definition modify (f : State -> State) : M unit := fun s => (Returns tt, f s).

Definition lift {A} (e : exn) (o : option A) : M A :=
  match o with
  | Some a => ret a
  | None => raise e
  end.

End Model.

Declare Scope rbcm_scope.
Delimit Scope rbcm_scope with rbcm.
Notation "'let!' x ':=' c 'in' k" := (bind c (fun x => k))
  (at level 10, x pattern, c at level 100, k at level 200) : rbcm_scope.
Notation "c '>>' k" := (bind c (fun _ => k))
  (at level 100, k at level 200, right associativity) : rbcm_scope.

Local Open Scope rbcm_scope.

Section Methods.

Context {F Env Struc Hyps Mat Bounds Opts : Type}.
Context {AR : Arith F}.
Context {EX : Extern F Env Struc Hyps Mat Bounds Opts}.

Abbreviation State := (@State F Env Hyps Mat Bounds).
Abbreviation Store := (@Store F Env).
Abbreviation Factors := (@Factors F Mat).
Abbreviation Attrs := (@Attrs F Hyps Bounds).
Abbreviation M := (@M F Env Hyps Mat Bounds).

(** ** Attribute access *)

Definition on_attrs (f : Attrs -> Attrs) (s : State) : State :=
  mkState (f (attrs s)) (store s) (factors s) (registry s) (calls s).
Definition on_store (f : Store -> Store) (s : State) : State :=
  mkState (attrs s) (f (store s)) (factors s) (registry s) (calls s).
Definition on_factors (f : Factors -> Factors) (s : State) : State :=
  mkState (attrs s) (store s) (f (factors s)) (registry s) (calls s).
Definition on_registry
    (f : gmap Z (nat * list F * list F) -> gmap Z (nat * list F * list F))
    (s : State) : State :=
  mkState (attrs s) (store s) (factors s) (f (registry s)) (calls s).
Definition log_call (c : call) : M unit :=
  modify (fun s =>
    mkState (attrs s) (store s) (factors s) (registry s) (calls s ++ [c])).

Definition set_n_experts (v : Z) (a : Attrs) : Attrs :=
  mkAttrs v (prior_variance a) (log_prior_var a) (ndata_per_expert a)
    (current_expert a) (hyps a) (opt_algorithm a) (bounds a) (logger a)
    (total_likelihood a) (total_likelihood_gradient a).
Definition set_current_expert (v : Z) (a : Attrs) : Attrs :=
  mkAttrs (n_experts a) (prior_variance a) (log_prior_var a)
    (ndata_per_expert a) v (hyps a) (opt_algorithm a) (bounds a) (logger a)
    (total_likelihood a) (total_likelihood_gradient a).
Definition set_hyps (v : Hyps) (a : Attrs) : Attrs :=
  mkAttrs (n_experts a) (prior_variance a) (log_prior_var a)
    (ndata_per_expert a) (current_expert a) v (opt_algorithm a) (bounds a)
    (logger a) (total_likelihood a) (total_likelihood_gradient a).
Definition set_opt_algorithm (v : string) (a : Attrs) : Attrs :=
  mkAttrs (n_experts a) (prior_variance a) (log_prior_var a)
    (ndata_per_expert a) (current_expert a) (hyps a) v (bounds a) (logger a)
    (total_likelihood a) (total_likelihood_gradient a).
Definition set_logger (v : bool) (a : Attrs) : Attrs :=
  mkAttrs (n_experts a) (prior_variance a) (log_prior_var a)
    (ndata_per_expert a) (current_expert a) (hyps a) (opt_algorithm a)
    (bounds a) v (total_likelihood a) (total_likelihood_gradient a).
Definition set_total_likelihood (v : option F) (a : Attrs) : Attrs :=
  mkAttrs (n_experts a) (prior_variance a) (log_prior_var a)
    (ndata_per_expert a) (current_expert a) (hyps a) (opt_algorithm a)
    (bounds a) (logger a) v (total_likelihood_gradient a).
Definition set_total_likelihood_gradient (v : option (list F)) (a : Attrs)
    : Attrs :=
  mkAttrs (n_experts a) (prior_variance a) (log_prior_var a)
    (ndata_per_expert a) (current_expert a) (hyps a) (opt_algorithm a)
    (bounds a) (logger a) (total_likelihood a) v.

(** A per-expert list attribute: how to read it and how to replace it. *)
Record cells (A : Type) := mkCells {
  view : State -> list A;
  over : (list A -> list A) -> State -> State
}.
Arguments view {A} _ _.
Arguments over {A} _ _ _.

Definition c_training_data : cells (list Env) :=
  mkCells _ (fun s => training_data (store s))
    (fun f => on_store (fun t =>
       mkStore (f (training_data t)) (training_labels t)
         (training_labels_np t) (n_envs_prev t) (training_structures t)
         (energy_labels t) (energy_labels_np t) (all_labels t))).
Definition c_training_labels : cells (list (list F)) :=
  mkCells _ (fun s => training_labels (store s))
    (fun f => on_store (fun t =>
       mkStore (training_data t) (f (training_labels t))
         (training_labels_np t) (n_envs_prev t) (training_structures t)
         (energy_labels t) (energy_labels_np t) (all_labels t))).
Definition c_training_labels_np : cells (list F) :=
  mkCells _ (fun s => training_labels_np (store s))
    (fun f => on_store (fun t =>
       mkStore (training_data t) (training_labels t)
         (f (training_labels_np t)) (n_envs_prev t) (training_structures t)
         (energy_labels t) (energy_labels_np t) (all_labels t))).
Definition c_n_envs_prev : cells Z :=
  mkCells _ (fun s => n_envs_prev (store s))
    (fun f => on_store (fun t =>
       mkStore (training_data t) (training_labels t)
         (training_labels_np t) (f (n_envs_prev t)) (training_structures t)
         (energy_labels t) (energy_labels_np t) (all_labels t))).
Definition c_training_structures : cells (list (list Env)) :=
  mkCells _ (fun s => training_structures (store s))
    (fun f => on_store (fun t =>
       mkStore (training_data t) (training_labels t)
         (training_labels_np t) (n_envs_prev t) (f (training_structures t))
         (energy_labels t) (energy_labels_np t) (all_labels t))).
Definition c_energy_labels : cells (list F) :=
  mkCells _ (fun s => energy_labels (store s))
    (fun f => on_store (fun t =>
       mkStore (training_data t) (training_labels t)
         (training_labels_np t) (n_envs_prev t) (training_structures t)
         (f (energy_labels t)) (energy_labels_np t) (all_labels t))).
Definition c_energy_labels_np : cells (list F) :=
  mkCells _ (fun s => energy_labels_np (store s))
    (fun f => on_store (fun t =>
       mkStore (training_data t) (training_labels t)
         (training_labels_np t) (n_envs_prev t) (training_structures t)
         (energy_labels t) (f (energy_labels_np t)) (all_labels t))).
Definition c_all_labels : cells (list F) :=
  mkCells _ (fun s => all_labels (store s))
    (fun f => on_store (fun t =>
       mkStore (training_data t) (training_labels t)
         (training_labels_np t) (n_envs_prev t) (training_structures t)
         (energy_labels t) (energy_labels_np t) (f (all_labels t)))).

Definition c_ky_mat : cells (option Mat) :=
  mkCells _ (fun s => ky_mat (factors s))
    (fun f => on_factors (fun t =>
       mkFactors (f (ky_mat t)) (force_block t) (energy_block t)
         (force_energy_block t) (l_mat t) (alpha t) (ky_mat_inv t)
         (likelihood t))).
Definition c_force_block : cells (option Mat) :=
  mkCells _ (fun s => force_block (factors s))
    (fun f => on_factors (fun t =>
       mkFactors (ky_mat t) (f (force_block t)) (energy_block t)
         (force_energy_block t) (l_mat t) (alpha t) (ky_mat_inv t)
         (likelihood t))).
Definition c_energy_block : cells (option Mat) :=
  mkCells _ (fun s => energy_block (factors s))
    (fun f => on_factors (fun t =>
       mkFactors (ky_mat t) (force_block t) (f (energy_block t))
         (force_energy_block t) (l_mat t) (alpha t) (ky_mat_inv t)
         (likelihood t))).
Definition c_force_energy_block : cells (option Mat) :=
  mkCells _ (fun s => force_energy_block (factors s))
    (fun f => on_factors (fun t =>
       mkFactors (ky_mat t) (force_block t) (energy_block t)
         (f (force_energy_block t)) (l_mat t) (alpha t) (ky_mat_inv t)
         (likelihood t))).
Definition c_l_mat : cells (option Mat) :=
  mkCells _ (fun s => l_mat (factors s))
    (fun f => on_factors (fun t =>
       mkFactors (ky_mat t) (force_block t) (energy_block t)
         (force_energy_block t) (f (l_mat t)) (alpha t) (ky_mat_inv t)
         (likelihood t))).
Definition c_alpha : cells (option (list F)) :=
  mkCells _ (fun s => alpha (factors s))
    (fun f => on_factors (fun t =>
       mkFactors (ky_mat t) (force_block t) (energy_block t)
         (force_energy_block t) (l_mat t) (f (alpha t)) (ky_mat_inv t)
         (likelihood t))).
Definition c_ky_mat_inv : cells (option Mat) :=
  mkCells _ (fun s => ky_mat_inv (factors s))
    (fun f => on_factors (fun t =>
       mkFactors (ky_mat t) (force_block t) (energy_block t)
         (force_energy_block t) (l_mat t) (alpha t) (f (ky_mat_inv t))
         (likelihood t))).
Definition c_likelihood : cells (option F) :=
  mkCells _ (fun s => likelihood (factors s))
    (fun f => on_factors (fun t =>
       mkFactors (ky_mat t) (force_block t) (energy_block t)
         (force_energy_block t) (l_mat t) (alpha t) (ky_mat_inv t)
         (f (likelihood t)))).

(** [self.attr[i]] *)
Definition cell_get {A} (c : cells A) (i : Z) : M A :=
  let! s := get in lift IndexError (py_get (view c s) i).

(** [self.attr[i] = f(self.attr[i])]: an in-place update of one entry, as
    in [self.attr[i].append(x)], [self.attr[i] += 1], [self.attr[i] = v]. *)
Definition cell_alter {A} (c : cells A) (i : Z) (f : A -> A) : M unit :=
  let! s := get in
  let! k := lift IndexError (norm_index (length (view c s)) i) in
  modify (over c (alter f k)).

Definition cell_set {A} (c : cells A) (i : Z) (v : A) : M unit :=
  cell_alter c i (fun _ => v).

(** [self.attr += [v]] *)
Definition cell_push {A} (c : cells A) (v : A) : M unit :=
  modify (over c (fun l => l ++ [v])).

(** [for x in l: body(x)] *)
Fixpoint for_ {A} (l : list A) (body : A -> M unit) : M unit :=
  match l with
  | [] => ret tt
  | x :: r => body x >> for_ r body
  end.

(** ** Construction *)

(** [add_container] (lines 120-140) *)
Definition add_container : M unit :=
  cell_push c_training_data [] >>
  cell_push c_training_labels [] >>
  cell_push c_training_labels_np [] >>
  cell_push c_n_envs_prev 0 >>
  cell_push c_training_structures [] >>
  cell_push c_energy_labels [] >>
  cell_push c_energy_labels_np [] >>
  cell_push c_all_labels [] >>
  cell_push c_ky_mat None >>
  cell_push c_force_block None >>
  cell_push c_energy_block None >>
  cell_push c_force_energy_block None >>
  cell_push c_l_mat None >>
  cell_push c_alpha None >>
  cell_push c_ky_mat_inv None >>
  cell_push c_likelihood None.

(** The object as [__init__] leaves it before its final loop.  The parent
    constructor [GaussianProcess.__init__] sets the hyperparameters, the
    optimizer name, the bounds and the logger; they are arguments here. *)
Definition blank (n ndata : Z) (pv : F) (h : Hyps) (alg : string)
    (bnds : option Bounds) (lg : bool) : State :=
  mkState
    (mkAttrs n pv (f_log pv) ndata 0 h alg bnds lg None None)
    (mkStore [] [] [] [] [] [] [] [])
    (mkFactors [] [] [] [] [] [] [] [])
    ∅ [].

(** [__init__] (lines 63-108) *)
Definition init (n ndata : Z) (pv : F) (h : Hyps) (alg : string)
    (bnds : option Bounds) (lg : bool) : State :=
  snd (for_ (range n) (fun _ => add_container) (blank n ndata pv h alg bnds lg)).

(** ** Routing and the training store *)

(** [find_expert_to_add] (lines 111-118) *)
Definition find_expert_to_add : M Z :=
  let! s := get in
  let expert_id := current_expert (attrs s) in
  let! n := cell_get c_n_envs_prev expert_id in
  if ndata_per_expert (attrs s) <? n then
    modify (fun s =>
      on_attrs (set_current_expert (current_expert (attrs s) + 1)) s) >>
    let! s := get in
    ret (current_expert (attrs s))
  else ret expert_id.

(** The common prologue of [update_db] (lines 162-167) and [add_one_env]
    (lines 218-223): route when no expert is named, then make room. *)
Definition select_expert (expert_id : option Z) : M Z :=
  let! expert_id :=
    match expert_id with
    | None => find_expert_to_add
    | Some e => ret e
    end in
  let! s := get in
  (if n_experts (attrs s) <=? expert_id then
     add_container >>
     modify (fun s => on_attrs (set_n_experts (n_experts (attrs s) + 1)) s)
   else ret tt) >>
  ret expert_id.

(** The force branch of [update_db] (lines 174-185). *)
Definition add_forces (struc : Struc) (forces : list (list F))
    (update_indices : list Z) (expert_id : Z) : M unit :=
  for_ update_indices (fun atom =>
    let env_curr := AtomicEnvironment struc atom in
    let! forces_curr := lift IndexError (py_get forces atom) in
    cell_alter c_training_data expert_id (fun d => d ++ [env_curr]) >>
    cell_alter c_training_labels expert_id (fun l => l ++ [forces_curr]) >>
    cell_alter c_n_envs_prev expert_id (fun n => n + 1)) >>
  let! labels := cell_get c_training_labels expert_id in
  let! flat := lift ValueError (hstack labels) in
  cell_set c_training_labels_np expert_id flat.

(** The energy branch of [update_db] (lines 188-198). *)
Definition add_energy (struc : Struc) (energy : F) (expert_id : Z) : M unit :=
  let structure_list :=
    map (AtomicEnvironment struc) (range (Z.of_nat (num_atoms struc))) in
  cell_alter c_energy_labels expert_id (fun l => l ++ [energy]) >>
  cell_alter c_training_structures expert_id
    (fun l => l ++ [structure_list]) >>
  let! e := cell_get c_energy_labels expert_id in
  cell_set c_energy_labels_np expert_id e.

(** [self.all_labels[expert_id] = np.concatenate(...)] (lines 201-202 and
    233-234). *)
Definition refresh_all_labels (expert_id : Z) : M unit :=
  let! f := cell_get c_training_labels_np expert_id in
  let! e := cell_get c_energy_labels_np expert_id in
  cell_set c_all_labels expert_id (f ++ e).

(** The body of [update_db] once the expert is chosen (lines 169-202). *)
Definition store_observations (struc : Struc)
    (forces : option (list (list F))) (custom_range : list Z)
    (energy : option F) (expert_id : Z) : M unit :=
  let noa := Z.of_nat (num_atoms struc) in
  let update_indices :=
    match custom_range with
    | [] => range noa
    | _ => custom_range
    end in
  match forces with
  | Some forces => add_forces struc forces update_indices expert_id
  | None => ret tt
  end >>
  match energy with
  | Some energy => add_energy struc energy expert_id
  | None => ret tt
  end >>
  refresh_all_labels expert_id.

(** [update_db] (lines 143-202) *)
Definition update_db (struc : Struc) (forces : option (list (list F)))
    (custom_range : list Z) (energy : option F) (expert_id : option Z)
    : M unit :=
  let! expert_id := select_expert expert_id in
  store_observations struc forces custom_range energy expert_id.

(** ** The registry *)

(** [sync_one_data] (lines 533-540) *)
Definition sync_one_data (expert_id : Z) : M unit :=
  let! s := get in
  if Z.of_nat (length (training_data (store s))) >? expert_id then
    let! k := lift IndexError
      (norm_index (length (training_data (store s))) expert_id) in
    let! labels := cell_get c_training_labels_np expert_id in
    let! _ := cell_get c_training_structures expert_id in
    let! energy := cell_get c_energy_labels_np expert_id in
    modify (on_registry (insert expert_id (k, labels, energy)))
  else ret tt.

(** [sync_data] (lines 529-531) *)
Definition sync_data : M unit :=
  let! s := get in
  for_ (range (n_experts (attrs s))) sync_one_data.

(** [_global_...[f"{name}_{expert_id}"]] as a collaborator reads it. *)
Definition lookup_registry (expert_id : Z) : M (reg_view F Env) :=
  let! s := get in
  match registry s !! expert_id with
  | None => raise KeyError
  | Some (k, labels, energy) =>
      let! d := lift KeyError (training_data (store s) !! k) in
      let! t := lift KeyError (training_structures (store s) !! k) in
      ret (d, labels, t, energy)
  end.

(** ** Factorization *)

(** [self.logger.debug(...)] and [self.logger.warning(...)]: an
    [AttributeError] when the logger is [None]. *)
Definition logger_write : M unit :=
  let! s := get in
  if logger (attrs s) then ret tt else raise AttributeError.

(** [compute_one_matrices] (lines 593-609) *)
Definition compute_one_matrices (ky : Mat) (expert_id : Z) : M unit :=
  let! l := lift LinAlgError (cholesky ky) in
  let! l_inv := lift LinAlgError (inv l) in
  let! k_inv := lift ValueError (matmul_mm (transpose l_inv) l_inv) in
  let! labels := cell_get c_all_labels expert_id in
  let! a := lift ValueError (matmul_mv k_inv labels) in
  cell_set c_ky_mat expert_id (Some ky) >>
  cell_set c_l_mat expert_id (Some l) >>
  cell_set c_alpha expert_id (Some a) >>
  cell_set c_ky_mat_inv expert_id (Some k_inv) >>
  let! d := cell_get c_training_data expert_id in
  cell_set c_n_envs_prev expert_id (Z.of_nat (length d)).

(** The call [get_Ky_mat(self.hyps, f"{self.name}_{expert_id}", ...)]: the
    builder reads the expert's environments and structures from the
    registry. *)
Definition build_Ky_mat (expert_id : Z) : M Mat :=
  let! s := get in
  log_call (Call_get_Ky_mat expert_id) >>
  let! (d, _, t, _) := lookup_registry expert_id in
  ret (get_Ky_mat (hyps (attrs s)) d t).

(** [self.likelihood[expert_id] = get_like_from_mats(...)] (lines 497-500
    and 524-527); a [None] matrix would be rejected by numpy. *)
Definition store_likelihood (expert_id : Z) : M unit :=
  let! k := cell_get c_ky_mat expert_id in
  let! l := cell_get c_l_mat expert_id in
  let! a := cell_get c_alpha expert_id in
  match k, l, a with
  | Some k, Some l, Some a =>
      let! (_, labels, _, energy) := lookup_registry expert_id in
      cell_set c_likelihood expert_id
        (Some (get_like_from_mats k l a labels energy))
  | _, _, _ => raise TypeError
  end.

(** [set_L_alpha_part] (lines 505-527) *)
Definition set_L_alpha_part (expert_id : Z) : M unit :=
  sync_one_data expert_id >>
  let! ky := build_Ky_mat expert_id in
  compute_one_matrices ky expert_id >>
  store_likelihood expert_id.

(** [np.sum(self.likelihood)] *)
Definition sum_likelihood (l : list (option F)) : option F :=
  match mapM id l with
  | Some v => Some (np_sum v)
  | None => None
  end.

(** [set_L_alpha] (lines 480-503) *)
Definition set_L_alpha : M unit :=
  sync_data >>
  let! s := get in
  for_ (range (n_experts (attrs s))) (fun expert_id =>
    logger_write >>
    let! ky := build_Ky_mat expert_id in
    compute_one_matrices ky expert_id >>
    store_likelihood expert_id) >>
  let! s := get in
  let! total := lift TypeError (sum_likelihood (likelihood (factors s))) in
  modify (on_attrs (set_total_likelihood (Some total))).

(** [update_L_alpha] (lines 566-591).  The second disjunct of the test,
    [np.array(...) is np.array(None)], compares two fresh objects and is
    always false.  [self.sync_data(expert_id)] passes an argument to a
    method that takes none, which is a [TypeError]; the incremental update
    written after it is kept here as the continuation of that raise. *)
Definition update_L_alpha (expert_id : Z) : M unit :=
  let! l := cell_get c_l_mat expert_id in
  match l with
  | None => set_L_alpha_part expert_id
  | Some _ =>
      let! _ := cell_get c_ky_mat expert_id in
      (raise TypeError : M unit) >>
      let! s := get in
      let! k := cell_get c_ky_mat expert_id in
      let! n := cell_get c_n_envs_prev expert_id in
      log_call (Call_get_ky_mat_update expert_id) >>
      let! (d, _, t, _) := lookup_registry expert_id in
      match k with
      | Some k =>
          compute_one_matrices
            (get_ky_mat_update k n (hyps (attrs s)) d t) expert_id
      | None => raise TypeError
      end
  end.

(** The loop of [check_L_alpha] (lines 341-353).  [self.alpha] is the
    per-expert list and never [None], so the first test is always false;
    [self.alpha[i].shape] is an [AttributeError] when the entry is [None];
    [return] leaves the whole loop. *)
Fixpoint check_L_alpha_loop (experts : list Z) : M unit :=
  match experts with
  | [] => ret tt
  | i :: rest =>
      let! d := cell_get c_training_data i in
      let size3 := Z.of_nat (length d) * 3 in
      if size3 =? 0 then ret tt
      else
        let! a := cell_get c_alpha i in
        let! shape0 :=
          match a with
          | Some a => ret (Z.of_nat (length a))
          | None => raise AttributeError
          end in
        (if size3 >? shape0 then update_L_alpha i
         else if negb (size3 =? shape0) then set_L_alpha_part i
         else ret tt) >>
        check_L_alpha_loop rest
  end.

(** [check_L_alpha] (lines 332-353) *)
Definition check_L_alpha : M unit :=
  sync_data >>
  let! s := get in
  check_L_alpha_loop (range (n_experts (attrs s))).

(** ** Prediction *)

(** The first loop of [predict] (lines 378-385): one kernel vector per
    expert, computed from the registry. *)
Fixpoint kernel_vectors (x_t : Env) (d : Z) (experts : list Z)
    : M (list (list F)) :=
  match experts with
  | [] => ret []
  | i :: rest =>
      let! s := get in
      log_call (Call_get_kernel_vector i) >>
      let! (data, _, strucs, _) := lookup_registry i in
      let k := get_kernel_vector data strucs x_t d (hyps (attrs s)) in
      let! ks := kernel_vectors x_t d rest in
      ret (k :: ks)
  end.

(** The second loop of [predict] (lines 395-408) with its three
    accumulators [mean], [var], [beta].  [np.matmul] with a [None] operand
    is a [ValueError]. *)
Fixpoint predict_loop (x_t : Env) (d : Z) (k_v : list (list F))
    (experts : list Z) (acc : F * F * F) : M (F * F * F) :=
  match experts with
  | [] => ret acc
  | i :: rest =>
      let '(mean, var, beta) := acc in
      let! s := get in
      let! k := lift IndexError (py_get k_v i) in
      let! a := cell_get c_alpha i in
      let! a := lift ValueError a in
      let! mean_k := lift ValueError (matmul_vv k a) in
      let self_kern := kernel x_t x_t d d (hyps (attrs s)) in
      let! k_inv := cell_get c_ky_mat_inv i in
      let! k_inv := lift ValueError k_inv in
      let! t := lift ValueError (matmul_vm k k_inv) in
      let! q := lift ValueError (matmul_vv t k) in
      let var_k := f_sub self_kern q in
      let beta_k :=
        f_mul f_half (f_sub (log_prior_var (attrs s)) (f_log var_k)) in
      predict_loop x_t d k_v rest
        (f_add mean (f_mul (f_div beta_k var_k) mean_k),
         f_add var (f_div beta_k var_k),
         f_add beta beta_k)
  end.

(** A division whose operands are numpy scalars when the loop ran at least
    once, and plain Python numbers (for which a zero divisor raises) when
    there is no expert at all. *)
Definition scalar_div (numpy : bool) (a b : F) : M F :=
  if (negb numpy && f_is_zero b)%bool then raise ZeroDivisionError
  else ret (f_div a b).

(** [predict] (lines 355-414).  The choice of [n_cpus] only selects how the
    kernel vector is evaluated. *)
Definition predict (x_t : Env) (d : Z) : M (F * F) :=
  (if existsb (Z.eqb d) [1; 2; 3] then ret tt else raise AssertionError) >>
  sync_data >>
  let! s := get in
  let! k_v := kernel_vectors x_t d (range (n_experts (attrs s))) in
  check_L_alpha >>
  let! s := get in
  let experts := range (n_experts (attrs s)) in
  let! (mean, var, beta) :=
    predict_loop x_t d k_v experts (f_zero, f_zero, f_zero) in
  let numpy := match experts with [] => false | _ => true end in
  let! t := scalar_div numpy (f_sub f_one beta) (prior_variance (attrs s)) in
  let var := f_add var t in
  let! pred_var := scalar_div numpy f_one var in
  let pred_mean := f_mul pred_var mean in
  ret (pred_mean, pred_var).

(** ** Training *)

(** The keyword arguments of [train]: whether a logger is passed, the
    custom bounds, and the tolerances handed to the optimizer. *)
Record train_args := mkTrainArgs {
  arg_logger : bool;
  custom_bounds : option Bounds;
  tolerances : Opts
}.

(** [try: c except e0: handler] *)
Definition try_except {A} (c : M A) (e0 : exn) (handler : M A) : M A :=
  fun s =>
    match c s with
    | (Returns a, s') => (Returns a, s')
    | (Raises e, s') =>
        if decide (e = e0) then handler s' else (Raises e, s')
    end.

Fixpoint registry_views (experts : list Z) : M (list (reg_view F Env)) :=
  match experts with
  | [] => ret []
  | i :: rest =>
      let! v := lookup_registry i in
      let! vs := registry_views rest in
      ret (v :: vs)
  end.

(** [minimize(rbcm_get_neg_like_grad, x_0, args, method=..., ...)]: the
    objective (lines 702-725) reads every expert's registry entry. *)
Definition call_minimize (method : string) (x_0 : Hyps)
    (b : option Bounds) (o : Opts) : M (OptimizeResult F Hyps) :=
  log_call (Call_minimize method) >>
  let! s := get in
  let! views := registry_views (range (n_experts (attrs s))) in
  match minimize method x_0 b o views with
  | Returns r => ret r
  | Raises e => raise e
  end.

(** [train] (lines 239-330).  [logging.Logger] has no attribute
    [setlevel], so passing a logger is an [AttributeError]. *)
Definition train (a : train_args) : M (OptimizeResult F Hyps) :=
  (if arg_logger a then raise AttributeError else ret tt) >>
  let! s := get in
  (if ((length (training_data (store s)) =? 0)%nat
       || (length (training_labels (store s)) =? 0)%nat)%bool
   then raise Warning else ret tt) >>
  sync_data >>
  let x_0 := hyps (attrs s) in
  let! res :=
    if String.eqb (opt_algorithm (attrs s)) "L-BFGS-B" then
      let bnds :=
        match bounds (attrs s) with
        | None => default_bounds x_0
        | Some b => b
        end in
      try_except
        (let! r := call_minimize "L-BFGS-B" x_0 (Some bnds) (tolerances a) in
         ret (Some r))
        LinAlgError
        (logger_write >>
         modify (on_attrs (set_opt_algorithm "BFGS")) >>
         ret None)
    else ret None in
  let! res :=
    match custom_bounds a with
    | Some cb =>
        let! r := call_minimize "L-BFGS-B" x_0 (Some cb) (tolerances a) in
        ret (Some r)
    | None =>
        let! s := get in
        if String.eqb (opt_algorithm (attrs s)) "BFGS" then
          let! r := call_minimize "BFGS" x_0 None (tolerances a) in
          ret (Some r)
        else ret res
    end in
  match res with
  | None => raise RuntimeError
  | Some r =>
      modify (on_attrs (set_hyps (res_x r))) >>
      set_L_alpha >>
      modify (on_attrs (set_total_likelihood (Some (f_neg (res_fun r))))) >>
      modify (on_attrs
        (set_total_likelihood_gradient (Some (map f_neg (res_jac r))))) >>
      ret r
  end.

(** The body of [add_one_env] once the expert is chosen (lines 225-234). *)
Definition store_env (env : Env) (force : list F) (expert_id : Z) : M unit :=
  logger_write >>
  cell_alter c_training_data expert_id (fun d => d ++ [env]) >>
  cell_alter c_training_labels expert_id (fun l => l ++ [force]) >>
  let! labels := cell_get c_training_labels expert_id in
  let! flat := lift ValueError (hstack labels) in
  cell_set c_training_labels_np expert_id flat >>
  cell_alter c_n_envs_prev expert_id (fun n => n + 1) >>
  refresh_all_labels expert_id.

(** [add_one_env] (lines 204-237) *)
Definition add_one_env (env : Env) (force : list F) (do_train : bool)
    (expert_id : option Z) (kwargs : train_args) : M unit :=
  let! expert_id := select_expert expert_id in
  store_env env force expert_id >>
  if do_train then train kwargs >> ret tt else ret tt.

(** ** Persistence *)


(** [write_model] (lines 636-662; this second definition replaces the one
    at lines 542-564).  The logger is detached first and only re-attached on
    the path that does not raise. *)
Definition write_model (name : string) (format : string) : M unit :=
  let! s := get in
  let logger := logger (attrs s) in
  modify (on_attrs (set_logger false)) >>
  (if String.eqb (lower format) "json" then raise ValueError
   else if (String.eqb (lower format) "pickle"
            || String.eqb (lower format) "binary")%bool
   then log_call (Call_pickle_dump (name ++ ".pickle"))
   else raise ValueError) >>
  modify (on_attrs (set_logger logger)).

End Methods.

Arguments view {F Env Hyps Mat Bounds A} _ _.
Arguments over {F Env Hyps Mat Bounds A} _ _ _.

(** ** Statements *)

Section Statements.

Context {F Env Struc Hyps Mat Bounds Opts : Type}.
Context {AR : Arith F}.
Context {EX : Extern F Env Struc Hyps Mat Bounds Opts}.

Abbreviation State := (@State F Env Hyps Mat Bounds).
Abbreviation M := (@M F Env Hyps Mat Bounds).
Abbreviation train_args := (@train_args Bounds Opts).

(** The methods a caller can invoke on the object. *)
Inductive op : Type :=
| Op_find_expert_to_add
| Op_add_container
| Op_update_db (struc : Struc) (forces : option (list (list F)))
    (custom_range : list Z) (energy : option F) (expert_id : option Z)
| Op_add_one_env (env : Env) (force : list F) (do_train : bool)
    (expert_id : option Z) (kwargs : train_args)
| Op_train (kwargs : train_args)
| Op_check_L_alpha
| Op_predict (x_t : Env) (d : Z)
| Op_set_L_alpha
| Op_set_L_alpha_part (expert_id : Z)
| Op_update_L_alpha (expert_id : Z)
| Op_compute_one_matrices (ky : Mat) (expert_id : Z)
| Op_sync_data
| Op_sync_one_data (expert_id : Z)
| Op_write_model (name format : string).

(** One call; the value is the expert id when the call was to the router
    and returned. *)
Definition exec_op (o : op) : M (option Z) :=
  match o with
  | Op_find_expert_to_add => let! e := find_expert_to_add in ret (Some e)
  | Op_add_container => add_container >> ret None
  | Op_update_db st f cr en e => update_db st f cr en e >> ret None
  | Op_add_one_env env f t e kw => add_one_env env f t e kw >> ret None
  | Op_train kw => train kw >> ret None
  | Op_check_L_alpha => check_L_alpha >> ret None
  | Op_predict x d => predict x d >> ret None
  | Op_set_L_alpha => set_L_alpha >> ret None
  | Op_set_L_alpha_part e => set_L_alpha_part e >> ret None
  | Op_update_L_alpha e => update_L_alpha e >> ret None
  | Op_compute_one_matrices ky e => compute_one_matrices ky e >> ret None
  | Op_sync_data => sync_data >> ret None
  | Op_sync_one_data e => sync_one_data e >> ret None
  | Op_write_model n f => write_model n f >> ret None
  end.

(** A caller running a sequence of calls on one object, going on after a
    call that raised; the result lists the ids the router returned. *)
Fixpoint run (ops : list op) (s : State) : list Z * State :=
  match ops with
  | [] => ([], s)
  | o :: rest =>
      let r := exec_op o s in
      let r' := run rest (snd r) in
      (match fst r with
       | Returns (Some e) => e :: fst r'
       | _ => fst r'
       end, snd r')
  end.

(** Every per-expert list has one entry per expert. *)
Definition wf (s : State) : Prop :=
  let n := Z.to_nat (n_experts (attrs s)) in
  0 <= n_experts (attrs s) /\
  length (training_data (store s)) = n /\
  length (training_labels (store s)) = n /\
  length (training_labels_np (store s)) = n /\
  length (n_envs_prev (store s)) = n /\
  length (training_structures (store s)) = n /\
  length (energy_labels (store s)) = n /\
  length (energy_labels_np (store s)) = n /\
  length (all_labels (store s)) = n /\
  length (ky_mat (factors s)) = n /\
  length (force_block (factors s)) = n /\
  length (energy_block (factors s)) = n /\
  length (force_energy_block (factors s)) = n /\
  length (l_mat (factors s)) = n /\
  length (alpha (factors s)) = n /\
  length (ky_mat_inv (factors s)) = n /\
  length (likelihood (factors s)) = n.

(** The numpy copies of the label lists are up to date. *)
Definition np_synced (s : State) : Prop :=
  training_labels_np (store s) = map (@concat F) (training_labels (store s)) /\
  energy_labels_np (store s) = energy_labels (store s).

(** [s1] is [s] with exactly one more expert, which has no observation, no
    label and no matrix. *)
Definition grown_by_one (s s1 : State) : Prop :=
  n_experts (attrs s1) = n_experts (attrs s) + 1 /\
  training_data (store s1) = training_data (store s) ++ [[]] /\
  training_labels (store s1) = training_labels (store s) ++ [[]] /\
  training_labels_np (store s1) = training_labels_np (store s) ++ [[]] /\
  n_envs_prev (store s1) = n_envs_prev (store s) ++ [0] /\
  training_structures (store s1) = training_structures (store s) ++ [[]] /\
  energy_labels (store s1) = energy_labels (store s) ++ [[]] /\
  energy_labels_np (store s1) = energy_labels_np (store s) ++ [[]] /\
  all_labels (store s1) = all_labels (store s) ++ [[]] /\
  ky_mat (factors s1) = ky_mat (factors s) ++ [None] /\
  force_block (factors s1) = force_block (factors s) ++ [None] /\
  energy_block (factors s1) = energy_block (factors s) ++ [None] /\
  force_energy_block (factors s1) = force_energy_block (factors s) ++ [None] /\
  l_mat (factors s1) = l_mat (factors s) ++ [None] /\
  alpha (factors s1) = alpha (factors s) ++ [None] /\
  ky_mat_inv (factors s1) = ky_mat_inv (factors s) ++ [None] /\
  likelihood (factors s1) = likelihood (factors s) ++ [None].

(** Every expert but the one at position [k] has the same stores and label
    vectors in [s'] as in [s]. *)
Definition others_untouched (k : nat) (s s' : State) : Prop :=
  forall j : nat, j <> k ->
    training_data (store s') !! j = training_data (store s) !! j /\
    training_labels (store s') !! j = training_labels (store s) !! j /\
    training_labels_np (store s') !! j = training_labels_np (store s) !! j /\
    training_structures (store s') !! j = training_structures (store s) !! j /\
    energy_labels (store s') !! j = energy_labels (store s) !! j /\
    energy_labels_np (store s') !! j = energy_labels_np (store s) !! j /\
    all_labels (store s') !! j = all_labels (store s) !! j.

(** The label vector of the expert at position [k] is its flattened force
    labels followed by its energy labels. *)
Definition labels_consistent (k : nat) (s : State) : Prop :=
  exists (fl : list (list F)) (el : list F),
    training_labels (store s) !! k = Some fl /\
    energy_labels (store s) !! k = Some el /\
    all_labels (store s) !! k = Some (concat fl ++ el).




Definition beta (prior : F) (var_i : F) : F :=
  f_mul f_half (f_sub (f_log prior) (f_log var_i)).



End Statements.

(** ** A term model of the collaborators

    Every collaborator is interpreted as a free constructor, so a run on a
    concrete object computes and shows exactly which operations were
    applied to what. *)

Module Toy.

Inductive mat : Type :=
| Ky (h : Z) (data : list Z) (strucs : list (list Z))
| KyUpdate (k : mat) (n : Z) (h : Z) (data : list Z) (strucs : list (list Z))
| Chol (m : mat)
| Inv (m : mat)
| Tr (m : mat)
| MM (a b : mat).

#[local] Unset Elimination Schemes.
Inductive num : Type :=
| Lit (z : Z)
| Half
| Add (a b : num)
| Sub (a b : num)
| Mul (a b : num)
| Div (a b : num)
| Neg (a : num)
| Log (a : num)
| Kern (x y : Z) (d1 d2 : Z) (h : Z)
| KVec (x : Z) (d : Z) (h : Z) (j : nat)
| Dot (a b : list num)
| MV (m : mat) (v : list num) (j : nat)
| VM (v : list num) (m : mat) (j : nat)
| Like (k l : mat) (a labels energy : list num)
| Sum (l : list num).
#[local] Set Elimination Schemes.

Global Instance arith : Arith num := {|
  f_zero := Lit 0;
  f_one := Lit 1;
  f_half := Half;
  f_add := Add;
  f_sub := Sub;
  f_mul := Mul;
  f_div := Div;
  f_neg := Neg;
  f_log := Log;
  f_is_zero := fun a => match a with Lit 0 => true | _ => false end
|}.

(** Environments are atom indices, a structure is its number of atoms, the
    hyperparameters are one integer; the optimizer stops where it starts. *)
Global Instance extern : Extern num Z nat Z mat unit unit := {|
  num_atoms := fun n => n;
  AtomicEnvironment := fun _ atom => atom;
  kernel := Kern;
  get_kernel_vector := fun data strucs x d h =>
    map (KVec x d h) (seq 0 (3 * length data + length strucs));
  get_Ky_mat := Ky;
  get_ky_mat_update := KyUpdate;
  get_like_from_mats := Like;
  cholesky := fun m => Some (Chol m);
  inv := fun m => Some (Inv m);
  transpose := Tr;
  matmul_mm := fun a b => Some (MM a b);
  matmul_mv := fun m v => Some (map (MV m v) (seq 0 (length v)));
  matmul_vm := fun v m => Some (map (VM v m) (seq 0 (length v)));
  matmul_vv := fun a b =>
    if (length a =? length b)%nat then Some (Dot a b) else None;
  np_sum := Sum;
  default_bounds := fun _ => tt;
  minimize := fun _ x_0 _ _ _ => Returns (mkRes x_0 (Lit 0) [])
|}.

Abbreviation State := (@State num Z Z mat unit).

Definition no_kwargs : @train_args unit unit := mkTrainArgs false None tt.

(** A fresh model with one expert holding up to two environments. *)
Definition fresh1 : State := init 1 2 (Lit 4) 7 "L-BFGS-B" None true.

Definition force1 : list num := [Lit 1; Lit 2; Lit 3].
Definition force2 : list num := [Lit 4; Lit 5; Lit 6].

(** ... after [add_one_env(env 5, force1)]: data, no factorization yet. *)
Definition one_env : State :=
  snd (add_one_env 5 force1 false None no_kwargs fresh1).

(** ... after [set_L_alpha()]: one environment, factorized. *)
Definition one_env_factored : State := snd (set_L_alpha one_env).

(** ... after one more [add_one_env(env 6, force2)]: the factorization is
    one environment behind. *)
Definition two_envs_stale : State :=
  snd (add_one_env 6 force2 false None no_kwargs one_env_factored).

(** [one_env] after [update_db(struc, None, energy=9.0, expert_id=0)] for a
    structure of two atoms and then [set_L_alpha()]: one environment and
    one structure energy, factorized. *)
Definition with_energy : State :=
  snd (update_db 2%nat None [] (Some (Lit 9)) (Some 0) one_env).

Definition with_energy_factored : State := snd (set_L_alpha with_energy).

(** A fresh model with two experts, the environment given to the second. *)
Definition fresh2 : State := init 2 2 (Lit 4) 7 "L-BFGS-B" None true.

Definition second_only : State :=
  snd (add_one_env 5 force1 false (Some 1) no_kwargs fresh2).

(** [fresh1] after three [add_one_env]: its only expert holds one
    environment more than [ndata_per_expert]. *)
Definition over_capacity : State :=
  snd (add_one_env 7 force1 false None no_kwargs two_envs_stale).



(** [fresh1] after [update_db(struc, forces)] for a structure of two atoms
    and a force array with one row only: the call raised on the second
    atom, after the first was stored. *)
Definition half_added : State :=
  snd (update_db 2%nat (Some [force1]) [] None (Some 0) fresh1).

(** [fresh1] after [write_model('gp')], which raised. *)
Definition no_logger : State := snd (write_model "gp" "json" fresh1).




(** A new model without experts. *)
Definition fresh0 : State := init 0 2 (Lit 4) 7 "L-BFGS-B" None true.

(** [train(custom_bounds=...)] *)
Definition custom_kwargs : @train_args unit unit :=
  mkTrainArgs false (Some tt) tt.

(** The interpretation [extern] with an optimizer whose L-BFGS-B run fails
    with a linear-algebra error. *)
Definition stiff : Extern num Z nat Z mat unit unit := {|
  num_atoms := fun n => n;
  AtomicEnvironment := fun _ atom => atom;
  kernel := Kern;
  get_kernel_vector := fun data strucs x d h =>
    map (KVec x d h) (seq 0 (3 * length data + length strucs));
  get_Ky_mat := Ky;
  get_ky_mat_update := KyUpdate;
  get_like_from_mats := Like;
  cholesky := fun m => Some (Chol m);
  inv := fun m => Some (Inv m);
  transpose := Tr;
  matmul_mm := fun a b => Some (MM a b);
  matmul_mv := fun m v => Some (map (MV m v) (seq 0 (length v)));
  matmul_vm := fun v m => Some (map (VM v m) (seq 0 (length v)));
  matmul_vv := fun a b =>
    if (length a =? length b)%nat then Some (Dot a b) else None;
  np_sum := Sum;
  default_bounds := fun _ => tt;
  minimize := fun m x_0 _ _ _ =>
    if String.eqb m "L-BFGS-B" then Raises LinAlgError
    else Returns (mkRes x_0 (Lit 0) [])
|}.

(** A file system holding one pickled object, the number 1. *)
Definition disk (file : string) : option nat :=
  if String.eqb file "gp.pickle" then Some 1%nat else None.

End Toy.

(** ** Reasoning principles *)

Section Proofs.

Context {F Env Struc Hyps Mat Bounds Opts : Type}.
Context {AR : Arith F}.
Context {EX : Extern F Env Struc Hyps Mat Bounds Opts}.

Abbreviation State := (@State F Env Hyps Mat Bounds).
Abbreviation M := (@M F Env Hyps Mat Bounds).
Abbreviation train_args := (@train_args Bounds Opts).
Abbreviation op := (@op F Env Struc Mat Bounds Opts).

(** ** Relations between states, and the states the proofs name *)

(** [sat R P c]: whatever the start state and the outcome, the final state
    is [R]-related to the start state, and an escaping exception is in
    [P]. *)
Definition sat (R : State -> State -> Prop) (P : exn -> Prop) {A}
    (c : M A) : Prop :=
  forall s, R s (snd (c s)) /\ (forall e, fst (c s) = Raises e -> P e).

(** [s'] has the routing state, the prior and the label stores of [s],
    every per-expert list at the length it has in [s], and the call log of
    [s] possibly extended. *)
Definition keeps (s s' : State) : Prop :=
  n_experts (attrs s') = n_experts (attrs s) /\
  current_expert (attrs s') = current_expert (attrs s) /\
  prior_variance (attrs s') = prior_variance (attrs s) /\
  log_prior_var (attrs s') = log_prior_var (attrs s) /\
  ndata_per_expert (attrs s') = ndata_per_expert (attrs s) /\
  training_data (store s') = training_data (store s) /\
  training_labels (store s') = training_labels (store s) /\
  training_labels_np (store s') = training_labels_np (store s) /\
  training_structures (store s') = training_structures (store s) /\
  energy_labels (store s') = energy_labels (store s) /\
  energy_labels_np (store s') = energy_labels_np (store s) /\
  all_labels (store s') = all_labels (store s) /\
  length (n_envs_prev (store s')) = length (n_envs_prev (store s)) /\
  length (ky_mat (factors s')) = length (ky_mat (factors s)) /\
  length (force_block (factors s')) = length (force_block (factors s)) /\
  length (energy_block (factors s')) = length (energy_block (factors s)) /\
  length (force_energy_block (factors s')) =
    length (force_energy_block (factors s)) /\
  length (l_mat (factors s')) = length (l_mat (factors s)) /\
  length (alpha (factors s')) = length (alpha (factors s)) /\
  length (ky_mat_inv (factors s')) = length (ky_mat_inv (factors s)) /\
  length (likelihood (factors s')) = length (likelihood (factors s)) /\
  exists l, calls s' = calls s ++ l.

(** Every run of [c] ends in a state satisfying [Q]. *)
Definition ensures (Q : State -> Prop) {A} (c : M A) : Prop :=
  forall s, Q (snd (c s)).

(** The exceptions a program may let escape. *)
Definition not_assertion (e : exn) : Prop := e <> AssertionError.

Definition any_exn (e : exn) : Prop := True.

(** The current-expert index of [s'] is at least that of [s]. *)
Definition mono (s s' : State) : Prop :=
  current_expert (attrs s) <= current_expert (attrs s').

(** Expert [i]'s registry entry aliases expert [i]'s lists. *)
Definition registered (s : State) (i : Z) : Prop :=
  exists l e, registry s !! i = Some (Z.to_nat i, l, e).

(** [s'] is the same object as [s]; only the registry and the call log may
    differ. *)
Definition same_object (s s' : State) : Prop :=
  attrs s' = attrs s /\ store s' = store s /\ factors s' = factors s.




(** What the loop of the force branch does to the store: the environments
    and the forces go to expert [k], whose count grows by their number. *)
Definition push_forces (k : nat) (envs : list Env) (fl : list (list F))
    (t : Store) : Store :=
  mkStore
    (alter (fun d => d ++ envs) k (training_data t))
    (alter (fun l => l ++ fl) k (training_labels t))
    (training_labels_np t)
    (alter (fun n => n + Z.of_nat (length envs)) k (n_envs_prev t))
    (training_structures t) (energy_labels t) (energy_labels_np t)
    (all_labels t).

(** The three lists the force loop writes have length [N]. *)
Definition force_lists_have (N : nat) (s : State) : Prop :=
  length (training_data (store s)) = N /\
  length (training_labels (store s)) = N /\
  length (n_envs_prev (store s)) = N.

(** The store with expert [k] replaced. *)
Definition set_expert (k : nat) (d : list Env) (l : list (list F))
    (ln : list F) (n : Z) (t : list (list Env)) (e en al : list F)
    (st : Store) : Store :=
  mkStore (<[k:=d]> (training_data st)) (<[k:=l]> (training_labels st))
    (<[k:=ln]> (training_labels_np st)) (<[k:=n]> (n_envs_prev st))
    (<[k:=t]> (training_structures st)) (<[k:=e]> (energy_labels st))
    (<[k:=en]> (energy_labels_np st)) (<[k:=al]> (all_labels st)).

(** The eight lists of the store have length [N]. *)
Definition store_lists_have (N : nat) (s : State) : Prop :=
  length (training_data (store s)) = N /\
  length (training_labels (store s)) = N /\
  length (training_labels_np (store s)) = N /\
  length (n_envs_prev (store s)) = N /\
  length (training_structures (store s)) = N /\
  length (energy_labels (store s)) = N /\
  length (energy_labels_np (store s)) = N /\
  length (all_labels (store s)) = N.

(** Expert [k]'s eight entries. *)
Definition expert_is (s : State) (k : nat) (d : list Env)
    (l : list (list F)) (ln : list F) (n : Z) (t : list (list Env))
    (e en al : list F) : Prop :=
  training_data (store s) !! k = Some d /\
  training_labels (store s) !! k = Some l /\
  training_labels_np (store s) !! k = Some ln /\
  n_envs_prev (store s) !! k = Some n /\
  training_structures (store s) !! k = Some t /\
  energy_labels (store s) !! k = Some e /\
  energy_labels_np (store s) !! k = Some en /\
  all_labels (store s) !! k = Some al.

(** The object after [add_container] and [self.n_experts += 1]. *)
Definition grow (s : State) : State :=
  on_attrs (fun a => set_n_experts (n_experts a + 1) a) (snd (add_container s)).

(** The object after the router moved on to the next expert. *)
Definition advance (s : State) : State :=
  on_attrs (fun a => set_current_expert (current_expert a + 1) a) s.

(** [s'] has the experts, the prior and the list lengths of [s]. *)
Definition same_shape (s s' : State) : Prop :=
  n_experts (attrs s') = n_experts (attrs s) /\
  prior_variance (attrs s') = prior_variance (attrs s) /\
  log_prior_var (attrs s') = log_prior_var (attrs s) /\
  length (training_data (store s')) = length (training_data (store s)) /\
  length (training_labels (store s')) = length (training_labels (store s)) /\
  length (training_labels_np (store s')) =
    length (training_labels_np (store s)) /\
  length (n_envs_prev (store s')) = length (n_envs_prev (store s)) /\
  length (training_structures (store s')) =
    length (training_structures (store s)) /\
  length (energy_labels (store s')) = length (energy_labels (store s)) /\
  length (energy_labels_np (store s')) =
    length (energy_labels_np (store s)) /\
  length (all_labels (store s')) = length (all_labels (store s)) /\
  length (ky_mat (factors s')) = length (ky_mat (factors s)) /\
  length (force_block (factors s')) = length (force_block (factors s)) /\
  length (energy_block (factors s')) = length (energy_block (factors s)) /\
  length (force_energy_block (factors s')) =
    length (force_energy_block (factors s)) /\
  length (l_mat (factors s')) = length (l_mat (factors s)) /\
  length (alpha (factors s')) = length (alpha (factors s)) /\
  length (ky_mat_inv (factors s')) = length (ky_mat_inv (factors s)) /\
  length (likelihood (factors s')) = length (likelihood (factors s)).

(** The object invariant: one entry per expert in every per-expert list,
    and [log_prior_var] the logarithm of [prior_variance]. *)
Definition invariant (s : State) : Prop :=
  wf s /\ log_prior_var (attrs s) = f_log (prior_variance (attrs s)).

(** [s'] satisfies the invariant if [s] does. *)
Definition preserves (s s' : State) : Prop := invariant s -> invariant s'.

(** [s'] has the attributes and the matrices of [s]. *)
Definition same_attrs_factors (s s' : State) : Prop :=
  attrs s' = attrs s /\ factors s' = factors s.

(** What one [update_db] call brings: the atoms it reads, the environments
    and forces of the force branch, the structure and energy of the energy
    branch. *)
Definition update_indices (struc : Struc) (custom_range : list Z) : list Z :=
  match custom_range with
  | [] => range (Z.of_nat (num_atoms struc))
  | _ => custom_range
  end.

Definition new_envs (struc : Struc) (forces : option (list (list F)))
    (custom_range : list Z) : list Env :=
  match forces with
  | Some _ => map (AtomicEnvironment struc) (update_indices struc custom_range)
  | None => []
  end.

Definition new_forces (struc : Struc) (forces : option (list (list F)))
    (custom_range : list Z) (fl : list (list F)) : Prop :=
  match forces with
  | Some fs =>
      Forall2 (fun atom f => py_get fs atom = Some f)
        (update_indices struc custom_range) fl
  | None => fl = []
  end.

Definition new_structures (struc : Struc) (energy : option F)
    : list (list Env) :=
  match energy with
  | Some _ =>
      [map (AtomicEnvironment struc) (range (Z.of_nat (num_atoms struc)))]
  | None => []
  end.

Definition new_energies (energy : option F) : list F :=
  match energy with
  | Some en => [en]
  | None => []
  end.

(** What a completed mutation guarantees: [e] is the id the call targets,
    [k] its position. *)
Definition mutation_post (eid : option Z) (s s' : State) : Prop :=
  exists e k,
    fst (select_expert eid s) = Returns e /\
    norm_index (Z.to_nat (n_experts (attrs s'))) e = Some k /\
    labels_consistent k s' /\
    others_untouched k s s' /\
    np_synced s'.

(** Each of the sixteen per-expert lists has length [j]. *)
Definition all_lengths (j : nat) (s : State) : Prop :=
  length (training_data (store s)) = j /\
  length (training_labels (store s)) = j /\
  length (training_labels_np (store s)) = j /\
  length (n_envs_prev (store s)) = j /\
  length (training_structures (store s)) = j /\
  length (energy_labels (store s)) = j /\
  length (energy_labels_np (store s)) = j /\
  length (all_labels (store s)) = j /\
  length (ky_mat (factors s)) = j /\
  length (force_block (factors s)) = j /\
  length (energy_block (factors s)) = j /\
  length (force_energy_block (factors s)) = j /\
  length (l_mat (factors s)) = j /\
  length (alpha (factors s)) = j /\
  length (ky_mat_inv (factors s)) = j /\
  length (likelihood (factors s)) = j.

(** The calls that only read the training data: everything but the router,
    [add_container] and the two mutations. *)
Definition read_only (o : op) : bool :=
  match o with
  | Op_find_expert_to_add | Op_add_container
  | Op_update_db _ _ _ _ _ | Op_add_one_env _ _ _ _ _ => false
  | _ => true
  end.

(** The model before [add_container] ran [N] times on it. *)
Definition with_containers (N : nat) (s : State) : State :=
  mkState (attrs s)
    (mkStore
       (training_data (store s) ++ replicate N [])
       (training_labels (store s) ++ replicate N [])
       (training_labels_np (store s) ++ replicate N [])
       (n_envs_prev (store s) ++ replicate N 0)
       (training_structures (store s) ++ replicate N [])
       (energy_labels (store s) ++ replicate N [])
       (energy_labels_np (store s) ++ replicate N [])
       (all_labels (store s) ++ replicate N []))
    (mkFactors
       (ky_mat (factors s) ++ replicate N None)
       (force_block (factors s) ++ replicate N None)
       (energy_block (factors s) ++ replicate N None)
       (force_energy_block (factors s) ++ replicate N None)
       (l_mat (factors s) ++ replicate N None)
       (alpha (factors s) ++ replicate N None)
       (ky_mat_inv (factors s) ++ replicate N None)
       (likelihood (factors s) ++ replicate N None))
    (registry s) (calls s).

(** Expert [i]'s registry entry is that of its present label arrays. *)
Definition published (s : State) (i : Z) : Prop :=
  exists l e,
    registry s !! i = Some (Z.to_nat i, l, e) /\
    training_labels_np (store s) !! Z.to_nat i = Some l /\
    energy_labels_np (store s) !! Z.to_nat i = Some e.

(** The model with expert [k]'s covariance matrix, Cholesky factor,
    [alpha] and inverse replaced and its count set to [nd]. *)
Definition with_matrices (k : nat) (ky l : Mat) (a : list F) (k_inv : Mat)
    (nd : Z) (s : State) : State :=
  mkState (attrs s)
    (mkStore (training_data (store s)) (training_labels (store s))
       (training_labels_np (store s)) (<[k:=nd]> (n_envs_prev (store s)))
       (training_structures (store s)) (energy_labels (store s))
       (energy_labels_np (store s)) (all_labels (store s)))
    (mkFactors (<[k:=Some ky]> (ky_mat (factors s)))
       (force_block (factors s)) (energy_block (factors s))
       (force_energy_block (factors s))
       (<[k:=Some l]> (l_mat (factors s)))
       (<[k:=Some a]> (alpha (factors s)))
       (<[k:=Some k_inv]> (ky_mat_inv (factors s)))
       (likelihood (factors s)))
    (registry s) (calls s).

(** Everything that belongs to the expert at position [j] is in [s'] as in
    [s], and so are the attributes and the training data of all experts. *)
Definition untouched (j : nat) (s s' : State) : Prop :=
  attrs s' = attrs s /\
  training_data (store s') = training_data (store s) /\
  training_labels (store s') = training_labels (store s) /\
  training_labels_np (store s') = training_labels_np (store s) /\
  training_structures (store s') = training_structures (store s) /\
  energy_labels (store s') = energy_labels (store s) /\
  energy_labels_np (store s') = energy_labels_np (store s) /\
  all_labels (store s') = all_labels (store s) /\
  n_envs_prev (store s') !! j = n_envs_prev (store s) !! j /\
  ky_mat (factors s') !! j = ky_mat (factors s) !! j /\
  force_block (factors s') !! j = force_block (factors s) !! j /\
  energy_block (factors s') !! j = energy_block (factors s) !! j /\
  force_energy_block (factors s') !! j = force_energy_block (factors s) !! j /\
  l_mat (factors s') !! j = l_mat (factors s) !! j /\
  alpha (factors s') !! j = alpha (factors s) !! j /\
  ky_mat_inv (factors s') !! j = ky_mat_inv (factors s) !! j /\
  likelihood (factors s') !! j = likelihood (factors s) !! j.

(** Only the expert at position [k] may differ between [s] and [s']. *)
Definition only_expert (k : nat) (s s' : State) : Prop :=
  forall j, j <> k -> untouched j s s'.

(** Expert [i] is factorized from its present data: its covariance matrix
    is that of its environments and structures under the present
    hyperparameters, with the Cholesky factor, the inverse,
    [alpha = K^-1 all_labels] and the likelihood computed from them, and
    its count is its number of environments. *)
Definition expert_factorized (s : State) (i : nat) : Prop :=
  exists data strucs labels lb en K L L_inv K_inv a,
    training_data (store s) !! i = Some data /\
    training_structures (store s) !! i = Some strucs /\
    all_labels (store s) !! i = Some labels /\
    training_labels_np (store s) !! i = Some lb /\
    energy_labels_np (store s) !! i = Some en /\
    K = get_Ky_mat (hyps (attrs s)) data strucs /\
    cholesky K = Some L /\
    inv L = Some L_inv /\
    matmul_mm (transpose L_inv) L_inv = Some K_inv /\
    matmul_mv K_inv labels = Some a /\
    ky_mat (factors s) !! i = Some (Some K) /\
    l_mat (factors s) !! i = Some (Some L) /\
    alpha (factors s) !! i = Some (Some a) /\
    ky_mat_inv (factors s) !! i = Some (Some K_inv) /\
    likelihood (factors s) !! i
      = Some (Some (get_like_from_mats K L a lb en)) /\
    n_envs_prev (store s) !! i = Some (Z.of_nat (length data)).

(** The model with expert [k]'s likelihood replaced. *)
Definition with_likelihood (k : nat) (v : F) (s : State) : State :=
  on_factors (fun f =>
    mkFactors (ky_mat f) (force_block f) (energy_block f)
      (force_energy_block f) (l_mat f) (alpha f) (ky_mat_inv f)
      (<[k:=Some v]> (likelihood f))) s.

(** [s'] has the attributes and the training data of [s]. *)
Definition same_data (s s' : State) : Prop :=
  attrs s' = attrs s /\
  training_data (store s') = training_data (store s) /\
  training_labels (store s') = training_labels (store s) /\
  training_labels_np (store s') = training_labels_np (store s) /\
  training_structures (store s') = training_structures (store s) /\
  energy_labels (store s') = energy_labels (store s) /\
  energy_labels_np (store s') = energy_labels_np (store s) /\
  all_labels (store s') = all_labels (store s).

(** What the optimizer phase of [train] leaves untouched: the training
    store, the matrices and the number of experts. *)
Definition searching (s s' : State) : Prop :=
  store s' = store s /\ factors s' = factors s /\
  n_experts (attrs s') = n_experts (attrs s).

(** The counts agree with the lists: [n_envs_prev[i]] is the number of
    environments of expert [i], which has as many force labels, and as many
    energy labels as structures. *)
Definition counted (s : State) : Prop :=
  n_envs_prev (store s)
    = map (fun d => Z.of_nat (length d)) (training_data (store s)) /\
  map (@length (list F)) (training_labels (store s))
    = map (@length Env) (training_data (store s)) /\
  map (@length F) (energy_labels (store s))
    = map (@length (list Env)) (training_structures (store s)).

(** The eight lists of the store have one common length and the counts
    agree with them. *)
Definition consistent (s : State) : Prop :=
  (exists N, store_lists_have N s) /\ counted s.

Definition stays_consistent (s s' : State) : Prop :=
  consistent s -> consistent s'.

(** [p in s] for Python strings: [p] occurs in [s] as a substring. *)
Fixpoint contains (p s : string) : bool :=
  String.prefix p s ||
  match s with
  | EmptyString => false
  | String _ r => contains p r
  end.

(** What [from_file] does: it hands back a model, or raises. *)
Inductive loaded (Obj : Type) : Type :=
| Model (o : Obj)
| Raises_NameError
| Raises_ValueError
| Raises_from_open_or_load.

Arguments Model {Obj} o.
Arguments Raises_NameError {Obj}.
Arguments Raises_ValueError {Obj}.
Arguments Raises_from_open_or_load {Obj}.

(** [from_file] (lines 664-699).  [read] is [open] followed by
    [pickle.load], [None] when either raises; [backward] is the pair of
    [GaussianProcess.backward_arguments] and [backward_attributes], which
    live in [flare.gp].  The name [supported_formats] used in the first
    branch is a local variable of [write_model] and is not defined here, so
    building the message of the [ValueError] is a [NameError]. *)
Definition from_file {Obj : Type} (read : string -> option Obj)
    (backward : Obj -> Obj) (filename format : string) : loaded Obj :=
  if (contains ".json" filename || contains "json" format)%bool then
    Raises_NameError
  else if (contains ".pickle" filename || contains "pickle" format)%bool then
    match read filename with
    | Some gp_model => Model (backward gp_model)
    | None => Raises_from_open_or_load
    end
  else Raises_ValueError.

(** The router points at the same expert in [s'] as in [s]. *)
Definition router_fixed (s s' : State) : Prop :=
  current_expert (attrs s') = current_expert (attrs s).

(** The optimizer setting is that of [s] and the call log of [s] is only
    extended. *)
Definition settled (s s' : State) : Prop :=
  opt_algorithm (attrs s') = opt_algorithm (attrs s) /\
  exists l, calls s' = calls s ++ l.

(** ** The monad *)

Lemma bind_returns {A B} (c : M A) (k : A -> M B) s a s1 :
  c s = (Returns a, s1) -> bind c k s = k a s1.
Proof. unfold bind. intros ->. reflexivity. Qed.

Lemma bind_raises {A B} (c : M A) (k : A -> M B) s e s1 :
  c s = (Raises e, s1) -> bind c k s = (Raises e, s1).
Proof. unfold bind. intros ->. reflexivity. Qed.

Lemma bind_returns_inv {A B} (c : M A) (k : A -> M B) s b s' :
  bind c k s = (Returns b, s') ->
  exists a s1, c s = (Returns a, s1) /\ k a s1 = (Returns b, s').
Proof.
  unfold bind. destruct (c s) as [[a | e] s1]; [| discriminate].
  intros H. exists a, s1. split; [reflexivity | exact H].
Qed.

Lemma bind_assoc_run {A B C} (c : M A) (k : A -> M B) (k' : B -> M C) s :
  bind c (fun a => bind (k a) k') s = bind (bind c k) k' s.
Proof.
  unfold bind. destruct (c s) as [[a | e] s1]; reflexivity.
Qed.

(** Unfold the monad and the attribute accessors. *)
Ltac mrun :=
  cbv beta iota zeta delta
    [bind ret raise get modify lift cell_get cell_alter cell_set cell_push
     log_call logger_write lookup_registry build_Ky_mat compute_one_matrices
     store_likelihood refresh_all_labels].


Section Rules.

Variable R : State -> State -> Prop.
Variable P : exn -> Prop.
Hypothesis R_refl : forall s, R s s.
Hypothesis R_trans : forall s1 s2 s3, R s1 s2 -> R s2 s3 -> R s1 s3.

Lemma sat_ret {A} (a : A) : sat R P (ret a).
Proof. intros s. split; [apply R_refl | discriminate]. Qed.

Lemma sat_get : sat R P get.
Proof. intros s. split; [apply R_refl | discriminate]. Qed.

Lemma sat_raise {A} e : P e -> sat R P (raise e : M A).
Proof. intros H s. split; [apply R_refl | cbn; congruence]. Qed.

Lemma sat_lift {A} e (o : option A) : P e -> sat R P (lift e o).
Proof. destruct o; intros; [apply sat_ret | apply sat_raise; assumption]. Qed.

Lemma sat_modify f : (forall s, R s (f s)) -> sat R P (modify f).
Proof. intros H s. split; [apply H | discriminate]. Qed.

Lemma sat_bind {A B} (c : M A) (k : A -> M B) :
  sat R P c -> (forall a, sat R P (k a)) -> sat R P (bind c k).
Proof.
  intros Hc Hk s. unfold bind. destruct (Hc s) as [HR HP].
  destruct (c s) as [[a | e] s1]; cbn in *.
  - destruct (Hk a s1) as [HR' HP']. split; [eapply R_trans; eassumption | exact HP'].
  - split; [exact HR |]. intros e' [= <-]. apply HP. reflexivity.
Qed.

Lemma sat_try_except {A} (c h : M A) e0 :
  sat R P c -> sat R P h -> sat R P (try_except c e0 h).
Proof.
  intros Hc Hh s. unfold try_except. destruct (Hc s) as [HR HP].
  destruct (c s) as [[a | e] s1]; cbn in *.
  - split; [exact HR | discriminate].
  - destruct (decide (e = e0)).
    + destruct (Hh s1) as [HR' HP']. split; [eapply R_trans; eassumption | exact HP'].
    + split; [exact HR | exact HP].
Qed.

Lemma sat_for {A} (l : list A) (body : A -> M unit) :
  (forall x, sat R P (body x)) -> sat R P (for_ l body).
Proof.
  intros Hb. induction l as [| x r IH]; cbn.
  - apply sat_ret.
  - apply sat_bind; [apply Hb | intros _; exact IH].
Qed.

End Rules.

(** ** What the read-only methods keep

    Synchronisation, factorization, prediction, training and persistence
    never touch the routing state or the label stores, keep every
    per-expert list at its length, and never fail an assertion. *)


Lemma sat_any R P {A} (c : M A) : sat R P c -> sat R any_exn c.
Proof. intros H s. split; [apply H | intros; exact I]. Qed.

Create HintDb sat.

Ltac log_extended :=
  first [ exists []; symmetry; apply app_nil_r | eexists; reflexivity ].

Lemma keeps_refl s : keeps s s.
Proof.
  unfold keeps.
  repeat match goal with |- _ /\ _ => split end;
    first [reflexivity | log_extended].
Qed.

Lemma keeps_trans s1 s2 s3 : keeps s1 s2 -> keeps s2 s3 -> keeps s1 s3.
Proof.
  unfold keeps. intros H1 H2.
  repeat match goal with H : _ /\ _ |- _ => destruct H end.
  repeat match goal with H : ex _ |- _ => destruct H as [? H] end.
  repeat match goal with |- _ /\ _ => split end; try congruence.
  eexists.
  match goal with
  | H1 : calls s2 = _, H2 : calls s3 = _ |- _ =>
      rewrite H2, H1, <- app_assoc; reflexivity
  end.
Qed.

Ltac keeps_leaf :=
  intros; unfold keeps; cbn; rewrite ?length_alter;
  repeat match goal with |- _ /\ _ => split end;
  first [reflexivity | log_extended].

Ltac head_of t :=
  lazymatch t with
  | ?f _ => head_of f
  | _ => t
  end.

(** Structural proof of a [sat] judgement: follow the program, close the
    state updates with [leafR] and the raises with [leafP], use the lemmas
    already in the context or in the [sat] hint database for the loops. *)
Ltac sat_auto Rr Rt leafR leafP :=
  repeat (intros;
    lazymatch goal with
    | |- sat _ _ (bind _ _) => apply (sat_bind _ _ Rt)
    | |- sat _ _ (ret _) => apply (sat_ret _ _ Rr)
    | |- sat _ _ get => apply (sat_get _ _ Rr)
    | |- sat _ _ (raise _) => apply (sat_raise _ _ Rr); leafP
    | |- sat _ _ (lift _ _) => apply (sat_lift _ _ Rr); leafP
    | |- sat _ _ (modify _) => apply sat_modify; leafR
    | |- sat _ _ (for_ _ _) => apply (sat_for _ _ Rr Rt)
    | |- sat _ _ (try_except _ _ _) => apply (sat_try_except _ _ Rt)
    | |- sat _ _ (if ?b then _ else _) => destruct b
    | |- sat _ _ (match ?x with _ => _ end) => destruct x
    | |- sat _ _ ?c =>
        first [ assumption
              | solve [auto 2 with sat nocore]
              | solve [eapply sat_any; auto 2 with sat nocore]
              | let h := head_of c in unfold h ]
    end).

Ltac keeps_auto :=
  sat_auto keeps_refl keeps_trans ltac:(keeps_leaf)
    ltac:(first [exact I | unfold not_assertion; discriminate]).

Lemma sync_one_data_keeps i : sat keeps not_assertion (sync_one_data i).
Proof. keeps_auto. Qed.

Lemma sync_data_keeps : sat keeps not_assertion sync_data.
Proof. pose proof sync_one_data_keeps. keeps_auto. Qed.

#[local] Hint Resolve sync_one_data_keeps sync_data_keeps : sat.

Lemma lookup_registry_keeps i : sat keeps not_assertion (lookup_registry i).
Proof. keeps_auto. Qed.
#[local] Hint Resolve lookup_registry_keeps : sat.

Lemma compute_one_matrices_keeps ky i :
  sat keeps not_assertion (compute_one_matrices ky i).
Proof. keeps_auto. Qed.
#[local] Hint Resolve compute_one_matrices_keeps : sat.

Lemma build_Ky_mat_keeps i : sat keeps not_assertion (build_Ky_mat i).
Proof. keeps_auto. Qed.

Lemma store_likelihood_keeps i : sat keeps not_assertion (store_likelihood i).
Proof. keeps_auto. Qed.
#[local] Hint Resolve build_Ky_mat_keeps store_likelihood_keeps : sat.

Lemma set_L_alpha_part_keeps i : sat keeps not_assertion (set_L_alpha_part i).
Proof. keeps_auto. Qed.

Lemma logger_write_keeps : sat keeps not_assertion logger_write.
Proof. keeps_auto. Qed.
#[local] Hint Resolve set_L_alpha_part_keeps logger_write_keeps : sat.

Lemma set_L_alpha_keeps : sat keeps not_assertion set_L_alpha.
Proof. keeps_auto. Qed.

Lemma update_L_alpha_keeps i : sat keeps not_assertion (update_L_alpha i).
Proof. keeps_auto. Qed.
#[local] Hint Resolve set_L_alpha_keeps update_L_alpha_keeps : sat.

Lemma check_L_alpha_loop_keeps experts :
  sat keeps not_assertion (check_L_alpha_loop experts).
Proof.
  induction experts as [| i rest IH]; cbn [check_L_alpha_loop]; keeps_auto.
Qed.
#[local] Hint Resolve check_L_alpha_loop_keeps : sat.

Lemma check_L_alpha_keeps : sat keeps not_assertion check_L_alpha.
Proof. keeps_auto. Qed.
#[local] Hint Resolve check_L_alpha_keeps : sat.

Lemma kernel_vectors_keeps x d experts :
  sat keeps not_assertion (kernel_vectors x d experts).
Proof.
  induction experts as [| i rest IH]; cbn [kernel_vectors]; keeps_auto.
Qed.

Lemma predict_loop_keeps x d k_v experts :
  forall acc, sat keeps not_assertion (predict_loop x d k_v experts acc).
Proof.
  induction experts as [| i rest IH]; intros acc; cbn [predict_loop];
    keeps_auto.
Qed.

Lemma scalar_div_keeps b x y : sat keeps not_assertion (scalar_div b x y).
Proof. keeps_auto. Qed.
#[local] Hint Resolve kernel_vectors_keeps predict_loop_keeps
  scalar_div_keeps : sat.

Lemma predict_valid_keeps x d :
  existsb (Z.eqb d) [1; 2; 3] = true -> sat keeps not_assertion (predict x d).
Proof. intros Hd. unfold predict. rewrite Hd. keeps_auto. Qed.

Lemma registry_views_keeps experts :
  sat keeps not_assertion (registry_views experts).
Proof.
  induction experts as [| i rest IH]; cbn [registry_views]; keeps_auto.
Qed.
#[local] Hint Resolve registry_views_keeps : sat.

Lemma call_minimize_keeps m x b o : sat keeps any_exn (call_minimize m x b o).
Proof. keeps_auto. Qed.
#[local] Hint Resolve call_minimize_keeps : sat.

Lemma train_keeps kw : sat keeps any_exn (train kw).
Proof. keeps_auto. Qed.

Lemma write_model_keeps name fmt : sat keeps not_assertion (write_model name fmt).
Proof. keeps_auto. Qed.

Lemma keeps_of_sat {A} (c : M A) P s : sat keeps P c -> keeps s (snd (c s)).
Proof. intros H. apply H. Qed.

(** ** The force component selector *)

Lemma predict_invalid (x_t : Env) (d : Z) (s : State) :
  existsb (Z.eqb d) [1; 2; 3] = false ->
  predict x_t d s = (Raises AssertionError, s).
Proof. unfold predict. intros ->. reflexivity. Qed.

(** C8. [predict] checks the force component before anything else: for an
    integer [d] outside {1, 2, 3} it raises the assertion error and leaves
    the object, the registry and the call log as they were; for [d] in
    {1, 2, 3} no assertion error is raised, whatever else happens. *)
Theorem predict_checks_force_component (x_t : Env) (d : Z) (s : State) :
  (~ In d [1; 2; 3] -> predict x_t d s = (Raises AssertionError, s)) /\
  (In d [1; 2; 3] -> fst (predict x_t d s) <> Raises AssertionError).
Proof.
  split.
  - intros Hd. apply predict_invalid.
    apply not_true_is_false. intros H. apply Hd.
    apply existsb_exists in H as (y & Hy & Heq).
    apply Z.eqb_eq in Heq. subst. exact Hy.
  - intros Hd.
    assert (existsb (Z.eqb d) [1; 2; 3] = true) as Hb.
    { apply existsb_exists. exists d. split; [exact Hd | apply Z.eqb_refl]. }
    intros Hr. exact (proj2 (predict_valid_keeps x_t d Hb s) _ Hr eq_refl).
Qed.

(** ** Routing *)


Lemma mono_refl s : mono s s.
Proof. unfold mono. lia. Qed.

Lemma mono_trans s1 s2 s3 : mono s1 s2 -> mono s2 s3 -> mono s1 s3.
Proof. unfold mono. lia. Qed.

Lemma mono_of_keeps {A} (c : M A) P : sat keeps P c -> sat mono any_exn c.
Proof.
  intros H s. split; [| intros; exact I].
  destruct (H s) as [Hk _]. unfold mono. destruct Hk as (_ & -> & _). lia.
Qed.

Ltac mono_auto :=
  sat_auto mono_refl mono_trans ltac:(intros; unfold mono; cbn; lia)
    ltac:(exact I).

Lemma find_expert_to_add_mono : sat mono any_exn find_expert_to_add.
Proof. mono_auto. Qed.

Lemma add_container_mono : sat mono any_exn add_container.
Proof. mono_auto. Qed.
#[local] Hint Resolve find_expert_to_add_mono add_container_mono : sat.

Lemma select_expert_mono e : sat mono any_exn (select_expert e).
Proof. mono_auto. Qed.
#[local] Hint Resolve select_expert_mono : sat.

Lemma update_db_mono st f cr en e : sat mono any_exn (update_db st f cr en e).
Proof. mono_auto. Qed.

Lemma train_mono kw : sat mono any_exn (train kw).
Proof. exact (mono_of_keeps _ _ (train_keeps kw)). Qed.
#[local] Hint Resolve train_mono : sat.

Lemma add_one_env_mono env f t e kw :
  sat mono any_exn (add_one_env env f t e kw).
Proof. mono_auto. Qed.

Lemma exec_op_mono (o : op) : sat mono any_exn (exec_op o).
Proof.
  destruct o; cbn [exec_op];
    (apply (sat_bind _ _ mono_trans);
     [| intros; apply (sat_ret _ _ mono_refl)]).
  - apply find_expert_to_add_mono.
  - apply add_container_mono.
  - apply update_db_mono.
  - apply add_one_env_mono.
  - apply train_mono.
  - exact (mono_of_keeps _ _ check_L_alpha_keeps).
  - destruct (existsb (Z.eqb d) [1; 2; 3]) eqn:Hd.
    + exact (mono_of_keeps _ _ (predict_valid_keeps x_t d Hd)).
    + intros s. rewrite (predict_invalid _ _ _ Hd). cbn.
      split; [apply mono_refl | intros; exact I].
  - exact (mono_of_keeps _ _ set_L_alpha_keeps).
  - exact (mono_of_keeps _ _ (set_L_alpha_part_keeps _)).
  - exact (mono_of_keeps _ _ (update_L_alpha_keeps _)).
  - exact (mono_of_keeps _ _ (compute_one_matrices_keeps _ _)).
  - exact (mono_of_keeps _ _ sync_data_keeps).
  - exact (mono_of_keeps _ _ (sync_one_data_keeps _)).
  - exact (mono_of_keeps _ _ (write_model_keeps _ _)).
Qed.

Lemma find_expert_to_add_returns (s : State) e (s1 : State) :
  find_expert_to_add s = (Returns e, s1) -> e = current_expert (attrs s1).
Proof.
  unfold find_expert_to_add. mrun. cbn [view c_n_envs_prev].
  destruct (py_get (n_envs_prev (store s)) (current_expert (attrs s)))
    as [n |]; [| discriminate].
  destruct (ndata_per_expert (attrs s) <? n); intros [= <- <-]; reflexivity.
Qed.

Lemma exec_op_returns_id (o : op) (s : State) e (s1 : State) :
  exec_op o s = (Returns (Some e), s1) -> e = current_expert (attrs s1).
Proof.
  destruct o; cbn [exec_op]; unfold bind, ret;
    match goal with |- context [match ?c s with _ => _ end] =>
      destruct (c s) as [[a | x] s2] eqn:Hc end;
    try discriminate.
  intros [= <- <-]. eapply find_expert_to_add_returns. exact Hc.
Qed.

(** C6. Routing is monotonic.  In any sequence of calls on one object
    (router calls, appends with or without a named expert, training,
    prediction, refreshes, persistence, in any order and whether or not
    they raise) the ids returned by the router never decrease, every one of
    them lies between the current-expert index before and after the
    sequence, and the current-expert index never decreases. *)
Theorem routing_is_monotonic (ops : list op) (s : State) :
  Sorted Z.le (fst (run ops s)) /\
  Forall (fun e => current_expert (attrs s) <= e <=
                   current_expert (attrs (snd (run ops s))))
         (fst (run ops s)) /\
  current_expert (attrs s) <= current_expert (attrs (snd (run ops s))).
Proof.
  revert s. induction ops as [| o rest IH]; intros s; cbn [run fst snd].
  - repeat split; [constructor | constructor | lia].
  - pose proof (proj1 (exec_op_mono o s)) as Hm. unfold mono in Hm.
    destruct (IH (snd (exec_op o s))) as (Hs & Hf & Hc).
    destruct (exec_op o s) as [[[e |] | x] s1] eqn:Hx; cbn [fst snd] in *.
    + apply exec_op_returns_id in Hx. subst e.
      repeat split; [| | lia].
      * constructor; [exact Hs |].
        destruct (fst (run rest s1)) as [| e' l']; constructor.
        inversion Hf; subst. lia.
      * constructor; [lia |].
        eapply Forall_impl; [exact Hf |]. cbn. intros; lia.
    + repeat split; [exact Hs | | lia].
      eapply Forall_impl; [exact Hf |]. cbn. intros; lia.
    + repeat split; [exact Hs | | lia].
      eapply Forall_impl; [exact Hf |]. cbn. intros; lia.
Qed.

(** ** Python indexing *)

Lemma norm_index_nonneg (len : nat) (i : Z) :
  0 <= i -> (Z.to_nat i < len)%nat -> norm_index len i = Some (Z.to_nat i).
Proof.
  intros H0 Hlt. unfold norm_index.
  destruct (Z.leb_spec 0 i); [| lia].
  destruct (Z.ltb_spec i (Z.of_nat len)); [reflexivity | lia].
Qed.

Lemma norm_index_too_large (len : nat) (i : Z) :
  Z.of_nat len <= i -> norm_index len i = None.
Proof.
  intros H. unfold norm_index.
  destruct (Z.leb_spec 0 i); [| lia].
  destruct (Z.ltb_spec i (Z.of_nat len)); [lia | reflexivity].
Qed.

Lemma norm_index_lt (len : nat) (i : Z) (k : nat) :
  norm_index len i = Some k -> (k < len)%nat.
Proof.
  unfold norm_index.
  destruct (Z.leb_spec 0 i).
  - destruct (Z.ltb_spec i (Z.of_nat len)); intros [= <-]; lia.
  - destruct (Z.leb_spec (- Z.of_nat len) i); intros [= <-]; lia.
Qed.

Lemma py_get_nonneg {A} (l : list A) (i : Z) (x : A) :
  0 <= i -> l !! Z.to_nat i = Some x -> py_get l i = Some x.
Proof.
  intros H0 Hx. unfold py_get.
  rewrite norm_index_nonneg; [exact Hx | exact H0 |].
  eapply lookup_lt_Some. exact Hx.
Qed.

Lemma py_get_lookup {A} (l : list A) (i : Z) (x : A) :
  py_get l i = Some x ->
  exists k, norm_index (length l) i = Some k /\ l !! k = Some x.
Proof.
  unfold py_get. destruct (norm_index (length l) i) as [k |]; [| discriminate].
  intros H. exists k. split; [reflexivity | exact H].
Qed.

Lemma alter_const_same {A} (l : list A) (k : nat) (x : A) :
  l !! k = Some x -> alter (fun _ => x) k l = l.
Proof.
  intros H. apply list_eq. intros j.
  destruct (decide (k = j)) as [<- |].
  - rewrite list_lookup_alter_eq, H. reflexivity.
  - rewrite list_lookup_alter_ne by assumption. reflexivity.
Qed.

Lemma in_range (n i : Z) : In i (range n) <-> 0 <= i < n.
Proof.
  unfold range. rewrite in_map_iff. split.
  - intros (k & <- & Hk). apply in_seq in Hk. lia.
  - intros H. exists (Z.to_nat i). split; [lia |]. apply in_seq. lia.
Qed.

(** Unfold the attribute accessors applied to an updated object. *)
Ltac msimpl1 :=
  cbn [view over
       c_training_data c_training_labels c_training_labels_np c_n_envs_prev
       c_training_structures c_energy_labels c_energy_labels_np c_all_labels
       c_ky_mat c_force_block c_energy_block c_force_energy_block c_l_mat
       c_alpha c_ky_mat_inv c_likelihood
       on_attrs on_store on_factors on_registry
       attrs store factors registry calls
       training_data training_labels training_labels_np n_envs_prev
       training_structures energy_labels energy_labels_np all_labels
       ky_mat force_block energy_block force_energy_block l_mat alpha
       ky_mat_inv likelihood
       n_experts prior_variance log_prior_var ndata_per_expert
       current_expert hyps opt_algorithm bounds logger total_likelihood
       total_likelihood_gradient
       set_n_experts set_current_expert set_hyps set_opt_algorithm
       set_logger set_total_likelihood set_total_likelihood_gradient
       fmap option_fmap option_map fst snd].

Ltac msimpl := msimpl1.

Ltac mstep := mrun; msimpl.


(** ** Synchronisation *)


Lemma sync_one_data_run (s : State) (i : Z) :
  wf s -> 0 <= i < n_experts (attrs s) ->
  exists l e,
    sync_one_data i s =
    (Returns tt, on_registry (insert i (Z.to_nat i, l, e)) s).
Proof.
  intros Hwf Hi. unfold wf in Hwf. cbv zeta in Hwf.
  destruct Hwf as (Hn & Hd & _ & Hl & _ & Ht & _ & He & _).
  destruct (lookup_lt_is_Some_2 (training_labels_np (store s)) (Z.to_nat i))
    as [l Hl']; [lia |].
  destruct (lookup_lt_is_Some_2 (training_structures (store s)) (Z.to_nat i))
    as [t Ht']; [lia |].
  destruct (lookup_lt_is_Some_2 (energy_labels_np (store s)) (Z.to_nat i))
    as [e He']; [lia |].
  exists l, e. unfold sync_one_data. mstep.
  destruct (Z.gtb_spec (Z.of_nat (length (training_data (store s)))) i);
    [| lia].
  rewrite norm_index_nonneg by lia. mstep.
  rewrite (py_get_nonneg _ _ _ (proj1 Hi) Hl'). mstep.
  rewrite (py_get_nonneg _ _ _ (proj1 Hi) Ht'). mstep.
  rewrite (py_get_nonneg _ _ _ (proj1 Hi) He'). mstep.
  reflexivity.
Qed.



Lemma same_object_trans s1 s2 s3 :
  same_object s1 s2 -> same_object s2 s3 -> same_object s1 s3.
Proof. unfold same_object. intuition congruence. Qed.

Lemma same_object_wf s s' : same_object s s' -> wf s -> wf s'.
Proof. intros (Ha & Hs & Hf). unfold wf. rewrite Ha, Hs, Hf. exact id. Qed.

Lemma registered_insert (s : State) (i j : Z) l e :
  registered s j \/ j = i ->
  registered (on_registry (insert i (Z.to_nat i, l, e)) s) j.
Proof.
  intros H. unfold registered. msimpl.
  destruct (decide (i = j)) as [<- | Hne].
  - exists l, e. apply lookup_insert_eq.
  - destruct H as [(l' & e' & H) | ->]; [| congruence].
    exists l', e'. rewrite lookup_insert_ne by assumption. exact H.
Qed.

Lemma sync_loop_run (l : list Z) : forall s : State,
  wf s -> (forall i, In i l -> 0 <= i < n_experts (attrs s)) ->
  exists s',
    for_ l sync_one_data s = (Returns tt, s') /\
    same_object s s' /\ calls s' = calls s /\
    (forall i, registered s i \/ In i l -> registered s' i).
Proof.
  induction l as [| i rest IH]; intros s Hwf Hl.
  - exists s. cbn. repeat split. intros i [H | []]. exact H.
  - destruct (sync_one_data_run s i Hwf) as (lb & e & Hrun).
    { apply Hl. left. reflexivity. }
    set (s1 := on_registry (insert i (Z.to_nat i, lb, e)) s) in *.
    assert (same_object s s1) as Hso by (repeat split).
    destruct (IH s1) as (s' & Hrun' & Hso' & Hc' & Hreg').
    { eapply same_object_wf; eassumption. }
    { intros j Hj. destruct Hso as (-> & _). apply Hl. right. exact Hj. }
    exists s'. cbn [for_]. rewrite (bind_returns _ _ _ _ _ Hrun).
    split; [exact Hrun' |].
    split; [exact (same_object_trans _ _ _ Hso Hso') |].
    split; [rewrite Hc'; reflexivity |].
    intros j Hj. apply Hreg'.
    destruct Hj as [Hj | [<- | Hj]].
    + left. apply registered_insert. left. exact Hj.
    + left. apply registered_insert. right. reflexivity.
    + right. exact Hj.
Qed.

Lemma sync_data_run (s : State) :
  wf s ->
  exists s',
    sync_data s = (Returns tt, s') /\
    same_object s s' /\ calls s' = calls s /\
    (forall i, 0 <= i < n_experts (attrs s) -> registered s' i).
Proof.
  intros Hwf.
  destruct (sync_loop_run (range (n_experts (attrs s))) s Hwf)
    as (s' & Hrun & Hso & Hc & Hreg).
  { intros i Hi. apply in_range. exact Hi. }
  exists s'. split; [exact Hrun |]. split; [exact Hso |].
  split; [exact Hc |].
  intros i Hi. apply Hreg. right. apply in_range. exact Hi.
Qed.

(** ** Refreshing a factorization that is current *)












(** ** Prediction *)








(** ** The training store *)

Lemma py_get_unfold {A} (l : list A) (i : Z) :
  py_get l i =
  match norm_index (length l) i with Some k => l !! k | None => None end.
Proof. reflexivity. Qed.

(** Run straight-line code that indexes with an arbitrary Python index
    whose position is known. *)
Ltac mgo_at :=
  repeat (mstep;
    first
      [ rewrite length_alter
      | rewrite list_lookup_alter_eq
      | rewrite py_get_unfold
      | match goal with
        | H : length ?l = _ |- context [length ?l] => rewrite H
        | H : ?X = Some _ |- context [?X] => rewrite H
        | H : ?X = None |- context [?X] => rewrite H
        end ]); mstep.


Lemma push_forces_nil k (s : State) : on_store (push_forces k [] []) s = s.
Proof.
  destruct s as [a t f r c]. destruct t. unfold on_store, push_forces. cbn.
  f_equal. f_equal; apply list_alter_id; intros x.
  - apply app_nil_r.
  - apply app_nil_r.
  - lia.
Qed.

Lemma push_forces_cons k env f envs fl (s : State) :
  on_store (push_forces k envs fl) (on_store (push_forces k [env] [f]) s) =
  on_store (push_forces k (env :: envs) (f :: fl)) s.
Proof.
  unfold on_store, push_forces. cbn. f_equal. f_equal.
  - rewrite list_alter_alter_eq. apply list_alter_ext; [| reflexivity].
    intros x _. cbn. rewrite <- app_assoc. reflexivity.
  - rewrite list_alter_alter_eq. apply list_alter_ext; [| reflexivity].
    intros x _. cbn. rewrite <- app_assoc. reflexivity.
  - rewrite list_alter_alter_eq. apply list_alter_ext; [| reflexivity].
    intros x _. cbn. lia.
Qed.


Lemma add_forces_loop_returns (struc : Struc) (fs : list (list F)) (e : Z)
    (k N : nat) (atoms : list Z) : forall s s' : State,
  norm_index N e = Some k ->
  force_lists_have N s ->
  for_ atoms (fun atom =>
    let env_curr := AtomicEnvironment struc atom in
    let! forces_curr := lift IndexError (py_get fs atom) in
    cell_alter c_training_data e (fun d => d ++ [env_curr]) >>
    cell_alter c_training_labels e (fun l => l ++ [forces_curr]) >>
    cell_alter c_n_envs_prev e (fun n => n + 1)) s = (Returns tt, s') ->
  exists fl,
    Forall2 (fun atom f => py_get fs atom = Some f) atoms fl /\
    s' = on_store
           (push_forces k (map (AtomicEnvironment struc) atoms) fl) s.
Proof.
  induction atoms as [| atom rest IH]; intros s s' Hk (H1 & H2 & H3).
  - cbn. intros [= <-]. exists []. split; [constructor |].
    symmetry. apply push_forces_nil.
  - cbn [for_ map].
    destruct (py_get fs atom) as [f |] eqn:Hf.
    + mgo_at. intros Hrun.
      apply IH in Hrun; [| exact Hk |].
      * destruct Hrun as (fl & Hfl & ->). exists (f :: fl).
        split; [constructor; assumption |].
        rewrite <- (push_forces_cons k (AtomicEnvironment struc atom) f).
        reflexivity.
      * unfold force_lists_have. msimpl. rewrite !length_alter.
        repeat split; assumption.
    + mgo_at. discriminate.
Qed.


Lemma hstack_some {A} (l : list (list A)) x :
  hstack l = Some x -> x = concat l.
Proof. destruct l; [discriminate | intros [= <-]; reflexivity]. Qed.

Lemma alter_as_insert {A} (f : A -> A) (l : list A) (k : nat) (x : A) :
  l !! k = Some x -> alter f k l = <[k:=f x]> l.
Proof.
  intros H. apply list_eq. intros j. destruct (decide (k = j)) as [<- |].
  - rewrite list_lookup_alter_eq, H.
    rewrite list_lookup_insert_eq; [reflexivity | eapply lookup_lt_Some; exact H].
  - rewrite list_lookup_alter_ne, list_lookup_insert_ne by assumption.
    reflexivity.
Qed.

Lemma insert_lookup_same {A} (l : list A) (k : nat) (x y : A) :
  l !! k = Some y -> <[k:=x]> l !! k = Some x.
Proof. intros H. apply list_lookup_insert_eq. eapply lookup_lt_Some. exact H. Qed.

(** Turn every update of entry [k] into an insertion of its value. *)
Ltac to_inserts :=
  repeat first
    [ rewrite list_insert_insert_eq
    | match goal with
      | H : ?l !! ?k = Some ?x |- context [alter ?f ?k ?l] =>
          rewrite (alter_as_insert f l k x H)
      | H : ?l !! ?k = Some ?y |- context [alter ?f ?k (<[?k:=?x]> ?l)] =>
          rewrite (alter_as_insert f (<[k:=x]> l) k x
                     (insert_lookup_same l k x y H))
      end ];
  cbv beta.

(** Two explicit stores are equal when their lists are. *)
Ltac store_eq :=
  unfold on_store, set_expert; msimpl; f_equal; f_equal; to_inserts;
  rewrite ?app_nil_r, ?Z.add_0_r;
  first [ reflexivity
        | symmetry; apply list_insert_id; assumption ].

Lemma store_observations_returns (struc : Struc)
    (forces : option (list (list F))) (custom_range : list Z)
    (energy : option F) (e : Z) (k N : nat) (s s' : State)
    d0 l0 ln0 n0 t0 e0 en0 al0 :
  norm_index N e = Some k ->
  store_lists_have N s ->
  expert_is s k d0 l0 ln0 n0 t0 e0 en0 al0 ->
  store_observations struc forces custom_range energy e s = (Returns tt, s') ->
  let atoms :=
    match custom_range with
    | [] => range (Z.of_nat (num_atoms struc))
    | _ => custom_range
    end in
  exists fl,
    match forces with
    | Some fs => Forall2 (fun atom f => py_get fs atom = Some f) atoms fl
    | None => fl = []
    end /\
    let envs :=
      match forces with
      | Some _ => map (AtomicEnvironment struc) atoms
      | None => []
      end in
    let ln' :=
      match forces with Some _ => concat (l0 ++ fl) | None => ln0 end in
    let t' :=
      match energy with
      | Some _ =>
          t0 ++ [map (AtomicEnvironment struc)
                   (range (Z.of_nat (num_atoms struc)))]
      | None => t0
      end in
    let e' := match energy with Some en => e0 ++ [en] | None => e0 end in
    let en' := match energy with Some en => e0 ++ [en] | None => en0 end in
    s' = on_store
           (set_expert k (d0 ++ envs) (l0 ++ fl) ln'
              (n0 + Z.of_nat (length envs)) t' e' en' (ln' ++ en')) s.
Proof.
  intros Hk (H1 & H2 & H3 & H4 & H5 & H6 & H7 & H8)
    (Hd & Hl & Hln & Hn & Ht & He & Hen & Hal).
  unfold store_observations. cbv zeta.
  set (atoms := match custom_range with
                | [] => range (Z.of_nat (num_atoms struc))
                | _ => custom_range
                end).
  intros Hrun.
  apply bind_returns_inv in Hrun as ([] & s1 & Hforces & Hrun).
  apply bind_returns_inv in Hrun as ([] & s2 & Henergy & Hrun).
  destruct forces as [fs |].
  - unfold add_forces in Hforces.
    apply bind_returns_inv in Hforces as ([] & s0 & Hloop & Hforces).
    apply (add_forces_loop_returns _ _ _ k N) in Hloop;
      [| exact Hk | repeat split; assumption].
    destruct Hloop as (fl & Hfl & ->).
    exists fl. split; [exact Hfl |].
    revert Hforces. unfold push_forces. mgo_at.
    destruct (hstack (l0 ++ fl)) as [flat |] eqn:Hh; [| mgo_at; discriminate].
    apply hstack_some in Hh. subst flat. mgo_at. intros [= <-].
    revert Henergy. destruct energy as [en |].
    + unfold add_energy. mgo_at. intros [= <-]. revert Hrun. mgo_at.
      intros [= <-]. store_eq.
    + mgo_at. intros [= <-]. revert Hrun. mgo_at. intros [= <-]. store_eq.
  - exists []. split; [reflexivity |].
    revert Hforces. mgo_at. intros [= <-].
    revert Henergy. destruct energy as [en |].
    + unfold add_energy. mgo_at. intros [= <-]. revert Hrun. mgo_at.
      intros [= <-]. store_eq.
    + mgo_at. intros [= <-]. revert Hrun. mgo_at. intros [= <-]. store_eq.
Qed.

(** *** Choosing the expert *)


Lemma grow_grown (s : State) : grown_by_one s (grow s).
Proof. unfold grown_by_one, grow. repeat split. Qed.

Lemma grown_wf (s s1 : State) : grown_by_one s s1 -> wf s -> wf s1.
Proof.
  unfold grown_by_one, wf. cbv zeta.
  intros (Hn & G1 & G2 & G3 & G4 & G5 & G6 & G7 & G8 & G9 & G10 & G11 & G12 &
          G13 & G14 & G15 & G16)
         (H0 & H1 & H2 & H3 & H4 & H5 & H6 & H7 & H8 & H9 & H10 & H11 & H12 &
          H13 & H14 & H15 & H16).
  rewrite Hn, G1, G2, G3, G4, G5, G6, G7, G8, G9, G10, G11, G12, G13, G14,
    G15, G16.
  rewrite !length_app. cbn [length].
  rewrite H1, H2, H3, H4, H5, H6, H7, H8, H9, H10, H11, H12, H13, H14, H15,
    H16.
  replace (Z.to_nat (n_experts (attrs s) + 1))
    with (Z.to_nat (n_experts (attrs s)) + 1)%nat by lia.
  repeat split; lia.
Qed.

Lemma grown_np_synced (s s1 : State) :
  grown_by_one s s1 -> np_synced s -> np_synced s1.
Proof.
  unfold grown_by_one, np_synced.
  intros (_ & _ & G2 & G3 & _ & _ & G6 & G7 & _) (H1 & H2).
  rewrite G2, G3, G6, G7, H1, H2, map_app. split; reflexivity.
Qed.


Lemma find_expert_to_add_run (s : State) (m : Z) :
  py_get (n_envs_prev (store s)) (current_expert (attrs s)) = Some m ->
  find_expert_to_add s =
  if ndata_per_expert (attrs s) <? m
  then (Returns (current_expert (attrs s) + 1), advance s)
  else (Returns (current_expert (attrs s)), s).
Proof.
  intros H. unfold find_expert_to_add. mstep. rewrite H. mstep.
  destruct (ndata_per_expert (attrs s) <? m); reflexivity.
Qed.

Lemma find_expert_to_add_cases (s : State) e s0 :
  find_expert_to_add s = (Returns e, s0) -> s0 = s \/ s0 = advance s.
Proof.
  unfold find_expert_to_add. mstep.
  destruct (py_get (n_envs_prev (store s)) (current_expert (attrs s)))
    as [m |]; mstep; [| discriminate].
  destruct (ndata_per_expert (attrs s) <? m); intros [= _ <-];
    [right | left]; reflexivity.
Qed.

Lemma make_room_run (s : State) (e : Z) :
  (let! s := get in
   (if n_experts (attrs s) <=? e then
      add_container >>
      modify (fun s => on_attrs (set_n_experts (n_experts (attrs s) + 1)) s)
    else ret tt) >>
   ret e) s =
  (Returns e, if n_experts (attrs s) <=? e then grow s else s).
Proof.
  mstep. destruct (n_experts (attrs s) <=? e); reflexivity.
Qed.

Lemma select_expert_named (s : State) (e : Z) :
  select_expert (Some e) s =
  (Returns e, if n_experts (attrs s) <=? e then grow s else s).
Proof. unfold select_expert. apply make_room_run. Qed.

Lemma select_expert_returns (eid : option Z) (s : State) e s1 :
  select_expert eid s = (Returns e, s1) ->
  exists s0,
    (s0 = s \/ s0 = advance s) /\
    s1 = if n_experts (attrs s0) <=? e then grow s0 else s0.
Proof.
  destruct eid as [e' |].
  - rewrite select_expert_named. intros [= <- <-]. exists s.
    split; [left; reflexivity | reflexivity].
  - unfold select_expert. intros H.
    apply bind_returns_inv in H as (e' & s0 & Hf & H).
    rewrite make_room_run in H. injection H as <- <-.
    exists s0. split; [| reflexivity].
    eapply find_expert_to_add_cases. exact Hf.
Qed.

Lemma advance_same_object (s : State) :
  store (advance s) = store s /\ factors (advance s) = factors s /\
  n_experts (attrs (advance s)) = n_experts (attrs s).
Proof. repeat split. Qed.

(** *** Writing to the chosen expert *)

Lemma hstack_snoc {A} (l : list (list A)) (x : list A) :
  hstack (l ++ [x]) = Some (concat (l ++ [x])).
Proof. destruct l; reflexivity. Qed.

Lemma store_env_run (env : Env) (force : list F) (e : Z) (k N : nat)
    (s : State) d0 l0 ln0 n0 t0 e0 en0 al0 :
  norm_index N e = Some k ->
  store_lists_have N s ->
  expert_is s k d0 l0 ln0 n0 t0 e0 en0 al0 ->
  logger (attrs s) = true ->
  store_env env force e s =
  (Returns tt,
   on_store
     (set_expert k (d0 ++ [env]) (l0 ++ [force]) (concat (l0 ++ [force]))
        (n0 + 1) t0 e0 en0 (concat (l0 ++ [force]) ++ en0)) s).
Proof.
  intros Hk (H1 & H2 & H3 & H4 & H5 & H6 & H7 & H8)
    (Hd & Hl & Hln & Hn & Ht & He & Hen & Hal) Hlog.
  unfold store_env. mstep. rewrite Hlog. mgo_at.
  rewrite hstack_snoc. mgo_at. f_equal. store_eq.
Qed.

Lemma store_env_no_logger (env : Env) (force : list F) (e : Z) (s : State) :
  logger (attrs s) = false ->
  store_env env force e s = (Raises AttributeError, s).
Proof. intros H. unfold store_env. mstep. rewrite H. reflexivity. Qed.

Lemma store_env_out_of_range (env : Env) (force : list F) (e : Z) (N : nat)
    (s : State) :
  norm_index N e = None ->
  store_lists_have N s ->
  logger (attrs s) = true ->
  store_env env force e s = (Raises IndexError, s).
Proof.
  intros Hk (H1 & _) Hlog. unfold store_env. mstep. rewrite Hlog. mgo_at.
  reflexivity.
Qed.

Lemma store_observations_out_of_range (struc : Struc)
    (forces : option (list (list F))) (custom_range : list Z)
    (energy : option F) (e : Z) (N : nat) (s : State) :
  norm_index N e = None ->
  store_lists_have N s ->
  store_observations struc forces custom_range energy e s =
  (Raises IndexError, s).
Proof.
  intros Hk (H1 & H2 & H3 & H4 & H5 & H6 & H7 & H8).
  unfold store_observations. cbv zeta.
  destruct forces as [fs |].
  - unfold add_forces.
    destruct (match custom_range with
              | [] => range (Z.of_nat (num_atoms struc))
              | _ => custom_range
              end) as [| atom rest].
    + cbn [for_]. mgo_at. reflexivity.
    + cbn [for_]. destruct (py_get fs atom) as [f |] eqn:Hf; mgo_at;
        reflexivity.
  - destruct energy as [en |].
    + unfold add_energy. mgo_at. reflexivity.
    + mgo_at. reflexivity.
Qed.

Lemma on_store_attrs f (s : State) : attrs (on_store f s) = attrs s.
Proof. reflexivity. Qed.

Lemma set_expert_is (k N : nat) (s : State) d l ln n t e en al :
  store_lists_have N s -> (k < N)%nat ->
  expert_is (on_store (set_expert k d l ln n t e en al) s) k d l ln n t e en al.
Proof.
  intros (H1 & H2 & H3 & H4 & H5 & H6 & H7 & H8) Hk.
  unfold expert_is, on_store, set_expert. msimpl.
  repeat split; apply list_lookup_insert_eq; lia.
Qed.

Lemma set_expert_others (k : nat) (s : State) d l ln n t e en al :
  others_untouched k s (on_store (set_expert k d l ln n t e en al) s).
Proof.
  intros j Hj. unfold on_store, set_expert. msimpl.
  repeat split; apply list_lookup_insert_ne; congruence.
Qed.

Lemma set_expert_lengths (k N : nat) (s : State) d l ln n t e en al :
  store_lists_have N s ->
  store_lists_have N (on_store (set_expert k d l ln n t e en al) s).
Proof.
  unfold store_lists_have, on_store, set_expert. msimpl.
  rewrite !length_insert. exact id.
Qed.

Lemma wf_store_lists (s : State) :
  wf s -> store_lists_have (Z.to_nat (n_experts (attrs s))) s.
Proof.
  unfold wf, store_lists_have. cbv zeta.
  intros (_ & H1 & H2 & H3 & H4 & H5 & H6 & H7 & H8 & _).
  repeat split; assumption.
Qed.

Lemma expert_exists (N k : nat) (s : State) :
  store_lists_have N s -> (k < N)%nat ->
  exists d l ln n t e en al, expert_is s k d l ln n t e en al.
Proof.
  intros (H1 & H2 & H3 & H4 & H5 & H6 & H7 & H8) Hk.
  destruct (lookup_lt_is_Some_2 (training_data (store s)) k) as [d Hd]; [lia |].
  destruct (lookup_lt_is_Some_2 (training_labels (store s)) k) as [l Hl]; [lia |].
  destruct (lookup_lt_is_Some_2 (training_labels_np (store s)) k) as [ln Hln]; [lia |].
  destruct (lookup_lt_is_Some_2 (n_envs_prev (store s)) k) as [n Hn]; [lia |].
  destruct (lookup_lt_is_Some_2 (training_structures (store s)) k) as [t Ht]; [lia |].
  destruct (lookup_lt_is_Some_2 (energy_labels (store s)) k) as [e He]; [lia |].
  destruct (lookup_lt_is_Some_2 (energy_labels_np (store s)) k) as [en Hen]; [lia |].
  destruct (lookup_lt_is_Some_2 (all_labels (store s)) k) as [al Hal]; [lia |].
  exists d, l, ln, n, t, e, en, al. repeat split; assumption.
Qed.

(** The new expert of a model grown by one. *)
Lemma grown_expert_is (s s1 : State) :
  grown_by_one s s1 -> wf s ->
  expert_is s1 (Z.to_nat (n_experts (attrs s))) [] [] [] 0 [] [] [] [].
Proof.
  intros (_ & G1 & G2 & G3 & G4 & G5 & G6 & G7 & G8 & _) Hwf.
  apply wf_store_lists in Hwf.
  destruct Hwf as (H1 & H2 & H3 & H4 & H5 & H6 & H7 & H8).
  unfold expert_is. rewrite G1, G2, G3, G4, G5, G6, G7, G8.
  repeat split.
  - rewrite <- H1 at 1. apply list_lookup_middle. reflexivity.
  - rewrite <- H2 at 1. apply list_lookup_middle. reflexivity.
  - rewrite <- H3 at 1. apply list_lookup_middle. reflexivity.
  - rewrite <- H4 at 1. apply list_lookup_middle. reflexivity.
  - rewrite <- H5 at 1. apply list_lookup_middle. reflexivity.
  - rewrite <- H6 at 1. apply list_lookup_middle. reflexivity.
  - rewrite <- H7 at 1. apply list_lookup_middle. reflexivity.
  - rewrite <- H8 at 1. apply list_lookup_middle. reflexivity.
Qed.

(** The body of [update_db] leaves the attributes and the matrices alone,
    however it ends. *)


Lemma same_attrs_factors_refl s : same_attrs_factors s s.
Proof. split; reflexivity. Qed.

Lemma same_attrs_factors_trans s1 s2 s3 :
  same_attrs_factors s1 s2 -> same_attrs_factors s2 s3 ->
  same_attrs_factors s1 s3.
Proof. unfold same_attrs_factors. intuition congruence. Qed.

Lemma store_observations_frame struc forces cr energy e :
  sat same_attrs_factors any_exn (store_observations struc forces cr energy e).
Proof.
  sat_auto same_attrs_factors_refl same_attrs_factors_trans
    ltac:(intros; split; reflexivity) ltac:(exact I).
Qed.

(** C7. When an automatically routed [update_db] finds the current expert
    over capacity and no next expert yet, choosing the expert returns the
    id [n_experts], makes it the current expert and leaves the model grown
    by exactly one expert, which has no observation, no label and [None]
    in every matrix field; the rest of the call runs on that model, and
    whether it returns or raises, [n_experts] has increased by exactly 1
    and the matrix fields are those of the grown model. *)
Theorem overflow_creates_one_empty_expert
    (struc : Struc) (forces : option (list (list F))) (custom_range : list Z)
    (energy : option F) (s : State) (m : Z) :
  wf s ->
  py_get (n_envs_prev (store s)) (current_expert (attrs s)) = Some m ->
  ndata_per_expert (attrs s) < m ->
  n_experts (attrs s) <= current_expert (attrs s) + 1 ->
  exists s1,
    select_expert None s = (Returns (n_experts (attrs s)), s1) /\
    grown_by_one s s1 /\
    current_expert (attrs s1) = n_experts (attrs s) /\
    update_db struc forces custom_range energy None s =
      store_observations struc forces custom_range energy
        (n_experts (attrs s)) s1 /\
    n_experts
      (attrs (snd (update_db struc forces custom_range energy None s))) =
      n_experts (attrs s) + 1 /\
    factors (snd (update_db struc forces custom_range energy None s)) =
      factors s1.
Proof.
  intros Hwf Hm Hover Hnext.
  assert (current_expert (attrs s) + 1 = n_experts (attrs s)) as Hc.
  { apply py_get_lookup in Hm as (k & Hk & _).
    apply norm_index_lt in Hk as Hlt.
    destruct Hwf as (H0 & _ & _ & _ & H4 & _). rewrite H4 in Hlt, Hk.
    unfold norm_index in Hk.
    destruct (Z.leb_spec 0 (current_expert (attrs s))).
    - destruct (Z.ltb_spec (current_expert (attrs s))
                  (Z.of_nat (Z.to_nat (n_experts (attrs s)))));
        [lia | discriminate].
    - destruct (Z.leb_spec (- Z.of_nat (Z.to_nat (n_experts (attrs s))))
                  (current_expert (attrs s))); [lia | discriminate]. }
  assert (find_expert_to_add s = (Returns (n_experts (attrs s)), advance s))
    as Hfind.
  { rewrite (find_expert_to_add_run s m Hm).
    destruct (Z.ltb_spec (ndata_per_expert (attrs s)) m); [| lia].
    rewrite Hc. reflexivity. }
  assert (select_expert None s =
          (Returns (n_experts (attrs s)), grow (advance s))) as Hsel.
  { unfold select_expert. rewrite (bind_returns _ _ _ _ _ Hfind).
    rewrite make_room_run.
    change (n_experts (attrs (advance s))) with (n_experts (attrs s)).
    destruct (Z.leb_spec (n_experts (attrs s)) (n_experts (attrs s)));
      [reflexivity | lia]. }
  exists (grow (advance s)).
  split; [exact Hsel |].
  split; [unfold grown_by_one; repeat split |].
  split; [exact Hc |].
  assert (update_db struc forces custom_range energy None s =
          store_observations struc forces custom_range energy
            (n_experts (attrs s)) (grow (advance s))) as Hupd.
  { unfold update_db. rewrite (bind_returns _ _ _ _ _ Hsel). reflexivity. }
  split; [exact Hupd |]. rewrite Hupd.
  destruct (store_observations_frame struc forces custom_range energy
              (n_experts (attrs s)) (grow (advance s))) as [[Ha Hf] _].
  rewrite Ha, Hf. split; reflexivity.
Qed.


Lemma keeps_others_untouched (k : nat) (s s1 s2 : State) :
  keeps s1 s2 -> others_untouched k s s1 -> others_untouched k s s2.
Proof.
  intros (_ & _ & _ & _ & _ & K1 & K2 & K3 & K4 & K5 & K6 & K7 & _) H.
  unfold others_untouched. rewrite K1, K2, K3, K4, K5, K6, K7. exact H.
Qed.

(** C10. An explicit [expert_id] at or past the end of the expert list.
    If [expert_id = n_experts], choosing the expert creates exactly one
    new empty expert and the data lands in it: a returning [update_db]
    leaves in that expert exactly the environments, forces, structure and
    energy of the call, and [add_one_env] leaves exactly its environment
    and force, every other expert being as before.  If
    [expert_id > n_experts], [update_db] raises an index error, and so does
    [add_one_env] of a model with a logger, and the object they leave
    behind is the model grown by one empty expert, [n_experts] already
    incremented. *)
Theorem explicit_expert_id_past_the_end (s : State) (e : Z) :
  wf s ->
  (e = n_experts (attrs s) ->
   exists s1,
     select_expert (Some e) s = (Returns e, s1) /\
     grown_by_one s s1 /\
     (forall struc forces custom_range energy s',
        update_db struc forces custom_range energy (Some e) s
          = (Returns tt, s') ->
        n_experts (attrs s') = n_experts (attrs s) + 1 /\
        others_untouched (Z.to_nat e) s1 s' /\
        exists fl,
          new_forces struc forces custom_range fl /\
          training_data (store s') !! Z.to_nat e
            = Some (new_envs struc forces custom_range) /\
          training_labels (store s') !! Z.to_nat e = Some fl /\
          training_structures (store s') !! Z.to_nat e
            = Some (new_structures struc energy) /\
          energy_labels (store s') !! Z.to_nat e
            = Some (new_energies energy) /\
          all_labels (store s') !! Z.to_nat e
            = Some (concat fl ++ new_energies energy)) /\
     (forall env force do_train kwargs,
        logger (attrs s) = true ->
        let s' := snd (add_one_env env force do_train (Some e) kwargs s) in
        n_experts (attrs s') = n_experts (attrs s) + 1 /\
        others_untouched (Z.to_nat e) s1 s' /\
        training_data (store s') !! Z.to_nat e = Some [env] /\
        training_labels (store s') !! Z.to_nat e = Some [force] /\
        all_labels (store s') !! Z.to_nat e = Some (concat [force]))) /\
  (n_experts (attrs s) < e ->
   exists s1,
     grown_by_one s s1 /\
     (forall struc forces custom_range energy,
        update_db struc forces custom_range energy (Some e) s
          = (Raises IndexError, s1)) /\
     (forall env force do_train kwargs,
        logger (attrs s) = true ->
        add_one_env env force do_train (Some e) kwargs s
          = (Raises IndexError, s1))).
Proof.
  intros Hwf.
  pose proof (grow_grown s) as Hg.
  pose proof (grown_wf _ _ Hg Hwf) as Hwf1.
  pose proof (wf_store_lists _ Hwf1) as Hl1.
  assert (n_experts (attrs (grow s)) = n_experts (attrs s) + 1) as Hn1
    by reflexivity.
  assert (logger (attrs (grow s)) = logger (attrs s)) as Hlg by reflexivity.
  assert (0 <= n_experts (attrs s)) as Hn0 by apply Hwf.
  rewrite Hn1 in Hl1.
  pose proof (grown_expert_is _ _ Hg Hwf) as Hex.
  pose proof (select_expert_named s e) as Hsel.
  assert (Z.to_nat (n_experts (attrs s)) <
          Z.to_nat (n_experts (attrs s) + 1))%nat as Hlt by lia.
  set (s1 := grow s) in *. clearbody s1.
  split.
  - intros ->. exists s1.
    destruct (Z.leb_spec (n_experts (attrs s)) (n_experts (attrs s)));
      [| lia].
    assert (norm_index (Z.to_nat (n_experts (attrs s) + 1))
              (n_experts (attrs s)) = Some (Z.to_nat (n_experts (attrs s))))
      as Hk by (apply norm_index_nonneg; lia).
    split; [exact Hsel |]. split; [exact Hg |]. split.
    + intros struc forces custom_range energy s' Hrun.
      unfold update_db in Hrun. rewrite (bind_returns _ _ _ _ _ Hsel) in Hrun.
      destruct (store_observations_returns _ _ _ _ _ _ _ _ _
                  _ _ _ _ _ _ _ _ Hk Hl1 Hex Hrun) as (fl & Hfl & Hs').
      cbv zeta in Hs'. rewrite Hs'.
      split; [rewrite on_store_attrs; exact Hn1 |].
      split; [apply set_expert_others |].
      exists fl. split; [exact Hfl |].
      match goal with
      | |- context [on_store (set_expert ?k ?a ?b ?c ?d ?f ?g ?h ?i) _] =>
          destruct (set_expert_is k _ s1 a b c d f g h i Hl1 Hlt)
            as (Hd & Hlb & _ & _ & Ht & He & _ & Hal)
      end.
      rewrite Hd, Hlb, Ht, He, Hal.
      unfold new_forces, new_envs, new_structures, new_energies,
        update_indices in *.
      destruct forces, energy; subst; repeat split; reflexivity.
    + intros env force do_train kwargs Hlog. cbv zeta.
      rewrite <- Hlg in Hlog.
      pose proof (store_env_run env force _ _ _ _ _ _ _ _ _ _ _ _
                    Hk Hl1 Hex Hlog) as Hrun.
      unfold add_one_env. rewrite (bind_returns _ _ _ _ _ Hsel).
      rewrite (bind_returns _ _ _ _ _ Hrun).
      set (s2 := on_store _ s1).
      assert (n_experts (attrs s2) = n_experts (attrs s) + 1 /\
              others_untouched (Z.to_nat (n_experts (attrs s))) s1 s2 /\
              training_data (store s2) !! Z.to_nat (n_experts (attrs s))
                = Some [env] /\
              training_labels (store s2) !! Z.to_nat (n_experts (attrs s))
                = Some [force] /\
              all_labels (store s2) !! Z.to_nat (n_experts (attrs s))
                = Some (concat [force])) as H2.
      { subst s2. split; [rewrite on_store_attrs; exact Hn1 |].
        split; [apply set_expert_others |].
        match goal with
        | |- context [on_store (set_expert ?k ?a ?b ?c ?d ?f ?g ?h ?i) _] =>
            destruct (set_expert_is k _ s1 a b c d f g h i Hl1 Hlt)
              as (Hd & Hlb & _ & _ & _ & _ & _ & Hal)
        end.
        rewrite Hd, Hlb, Hal. cbn [app concat]. rewrite !app_nil_r.
        repeat split. }
      clearbody s2.
      destruct do_train; [| exact H2].
      destruct (train_keeps kwargs s2) as [Hkp _].
      assert (snd (bind (train kwargs) (fun _ => ret tt) s2) =
              snd (train kwargs s2)) as ->.
      { unfold bind. destruct (train kwargs s2) as [[r | x] s4]; reflexivity. }
      set (s3 := snd (train kwargs s2)) in *. clearbody s3.
      destruct H2 as (A1 & A2 & A3 & A4 & A5).
      pose proof Hkp as Hkp'.
      destruct Hkp' as (K0 & _ & _ & _ & _ & K1 & K2 & _ & _ & _ & _ & K7 & _).
      rewrite K0, K1, K2, K7.
      split; [exact A1 |].
      split; [eapply keeps_others_untouched; eassumption |].
      repeat split; assumption.
  - intros He. exists s1.
    destruct (Z.leb_spec (n_experts (attrs s)) e); [| lia].
    assert (norm_index (Z.to_nat (n_experts (attrs s) + 1)) e = None) as Hk
      by (apply norm_index_too_large; lia).
    split; [exact Hg |]. split.
    + intros struc forces custom_range energy. unfold update_db.
      rewrite (bind_returns _ _ _ _ _ Hsel).
      eapply store_observations_out_of_range; eassumption.
    + intros env force do_train kwargs Hlog. unfold add_one_env.
      rewrite (bind_returns _ _ _ _ _ Hsel).
      erewrite bind_raises; [reflexivity |].
      rewrite <- Hlg in Hlog.
      eapply store_env_out_of_range; eassumption.
Qed.

(** *** Consistency of the label vector *)

Lemma others_untouched_trans (k : nat) (s1 s2 s3 : State) :
  others_untouched k s1 s2 -> others_untouched k s2 s3 ->
  others_untouched k s1 s3.
Proof.
  intros H12 H23 j Hj.
  destruct (H12 j Hj) as (A1 & A2 & A3 & A4 & A5 & A6 & A7).
  destruct (H23 j Hj) as (B1 & B2 & B3 & B4 & B5 & B6 & B7).
  rewrite B1, B2, B3, B4, B5, B6, B7. repeat split; assumption.
Qed.

Lemma others_untouched_same_store (k : nat) (s s' : State) :
  store s' = store s -> others_untouched k s s'.
Proof. intros H j _. rewrite H. repeat split. Qed.

Lemma grown_others_untouched (s s1 : State) :
  grown_by_one s s1 -> wf s ->
  others_untouched (Z.to_nat (n_experts (attrs s))) s s1.
Proof.
  intros (_ & G1 & G2 & G3 & _ & G5 & G6 & G7 & G8 & _) Hwf j Hj.
  apply wf_store_lists in Hwf.
  destruct Hwf as (H1 & H2 & H3 & _ & H5 & H6 & H7 & H8).
  rewrite G1, G2, G3, G5, G6, G7, G8.
  destruct (decide (j < Z.to_nat (n_experts (attrs s)))%nat) as [Hlt | Hge].
  - rewrite !lookup_app_l by lia. repeat split.
  - rewrite !lookup_ge_None_2 by (rewrite ?length_app; cbn [length]; lia).
    repeat split.
Qed.

Lemma select_expert_facts (eid : option Z) (s : State) e s1 :
  wf s -> np_synced s ->
  select_expert eid s = (Returns e, s1) ->
  wf s1 /\ np_synced s1 /\
  (forall k, norm_index (Z.to_nat (n_experts (attrs s1))) e = Some k ->
             others_untouched k s s1).
Proof.
  intros Hwf Hnp Hsel.
  apply select_expert_returns in Hsel as (s0 & Hs0 & ->).
  assert (wf s0 /\ np_synced s0 /\ store s0 = store s /\
          n_experts (attrs s0) = n_experts (attrs s)) as (Hwf0 & Hnp0 & Hst & Hn).
  { destruct Hs0 as [-> | ->];
      (split; [exact Hwf |]; split; [exact Hnp |]; split; reflexivity). }
  destruct (Z.leb_spec (n_experts (attrs s0)) e) as [Hle | Hgt].
  - pose proof (grow_grown s0) as Hg.
    split; [eapply grown_wf; eassumption |].
    split; [eapply grown_np_synced; eassumption |].
    intros k Hk.
    assert (n_experts (attrs (grow s0)) = n_experts (attrs s0) + 1) as Hn1
      by reflexivity.
    rewrite Hn1 in Hk.
    assert (k = Z.to_nat (n_experts (attrs s0))) as ->.
    { apply norm_index_lt in Hk as Hlt. unfold norm_index in Hk.
      destruct Hwf0 as (H0 & _).
      destruct (Z.leb_spec 0 e); [| lia].
      destruct (Z.ltb_spec e (Z.of_nat (Z.to_nat (n_experts (attrs s0) + 1))));
        [| discriminate].
      injection Hk as <-. lia. }
    eapply others_untouched_trans;
      [apply others_untouched_same_store; exact Hst |].
    apply grown_others_untouched; assumption.
  - split; [exact Hwf0 |]. split; [exact Hnp0 |].
    intros k _. apply others_untouched_same_store. exact Hst.
Qed.

Lemma map_is_fmap {A B} (f : A -> B) (l : list A) : map f l = f <$> l.
Proof. induction l as [| x l IH]; [reflexivity |]. cbn. rewrite IH. reflexivity. Qed.

Lemma np_synced_at (s : State) (k : nat) l ln e en :
  np_synced s ->
  training_labels (store s) !! k = Some l ->
  training_labels_np (store s) !! k = Some ln ->
  energy_labels (store s) !! k = Some e ->
  energy_labels_np (store s) !! k = Some en ->
  ln = concat l /\ en = e.
Proof.
  intros (H1 & H2) Hl Hln He Hen.
  rewrite H1, map_is_fmap, list_lookup_fmap, Hl in Hln.
  rewrite H2, He in Hen. cbn in Hln.
  split; congruence.
Qed.

Lemma set_expert_np_synced (k : nat) (s : State) d l n t e al :
  np_synced s ->
  np_synced (on_store (set_expert k d l (concat l) n t e e al) s).
Proof.
  intros (H1 & H2). unfold np_synced, on_store, set_expert. msimpl.
  rewrite H1, H2, !map_is_fmap, list_fmap_insert. split; reflexivity.
Qed.

Lemma keeps_np_synced (s s' : State) : keeps s s' -> np_synced s -> np_synced s'.
Proof.
  intros (_ & _ & _ & _ & _ & _ & K2 & K3 & _ & K5 & K6 & _).
  unfold np_synced. rewrite K2, K3, K5, K6. exact id.
Qed.

Lemma keeps_labels_consistent (k : nat) (s s' : State) :
  keeps s s' -> labels_consistent k s -> labels_consistent k s'.
Proof.
  intros (_ & _ & _ & _ & _ & _ & K2 & _ & _ & K5 & _ & K7 & _).
  unfold labels_consistent. rewrite K2, K5, K7. exact id.
Qed.


Lemma set_expert_post (eid : option Z) (s s1 : State) (e : Z) (k : nat)
    d l n t en :
  select_expert eid s = (Returns e, s1) ->
  wf s1 -> np_synced s1 ->
  norm_index (Z.to_nat (n_experts (attrs s1))) e = Some k ->
  others_untouched k s s1 ->
  mutation_post eid s
    (on_store (set_expert k d l (concat l) n t en en (concat l ++ en)) s1).
Proof.
  intros Hsel Hwf1 Hnp1 Hk Hoth.
  pose proof (wf_store_lists _ Hwf1) as Hl1.
  apply norm_index_lt in Hk as Hlt.
  exists e, k.
  split; [rewrite Hsel; reflexivity |].
  split; [rewrite on_store_attrs; exact Hk |].
  split.
  - destruct (set_expert_is k _ s1 d l (concat l) n t en en (concat l ++ en)
                Hl1 Hlt) as (_ & Hlb & _ & _ & _ & He & _ & Hal).
    exists l, en. repeat split; assumption.
  - split.
    + eapply others_untouched_trans; [exact Hoth | apply set_expert_others].
    + apply set_expert_np_synced. exact Hnp1.
Qed.

(** C9. A completed [update_db] or [add_one_env] on a model whose numpy
    label copies are up to date leaves the label vector of the expert it
    targets equal to that expert's flattened force labels followed by its
    energy labels, changes no store or label vector of any other expert,
    and leaves the numpy copies up to date. *)
Theorem label_vector_kept_consistent (s : State) :
  wf s -> np_synced s ->
  (forall struc forces custom_range energy eid s',
     update_db struc forces custom_range energy eid s = (Returns tt, s') ->
     mutation_post eid s s') /\
  (forall env force do_train eid kwargs s',
     add_one_env env force do_train eid kwargs s = (Returns tt, s') ->
     mutation_post eid s s').
Proof.
  intros Hwf Hnp. split.
  - intros struc forces custom_range energy eid s' Hrun.
    unfold update_db in Hrun.
    apply bind_returns_inv in Hrun as (e & s1 & Hsel & Hrun).
    destruct (select_expert_facts _ _ _ _ Hwf Hnp Hsel) as (Hwf1 & Hnp1 & Hoth).
    pose proof (wf_store_lists _ Hwf1) as Hl1.
    destruct (norm_index (Z.to_nat (n_experts (attrs s1))) e) as [k |] eqn:Hk.
    2: { rewrite (store_observations_out_of_range _ _ _ _ _ _ _ Hk Hl1) in Hrun.
         discriminate. }
    apply norm_index_lt in Hk as Hlt.
    destruct (expert_exists _ _ _ Hl1 Hlt)
      as (d0 & l0 & ln0 & n0 & t0 & e0 & en0 & al0 & Hex).
    destruct (store_observations_returns _ _ _ _ _ _ _ _ _
                _ _ _ _ _ _ _ _ Hk Hl1 Hex Hrun) as (fl & Hfl & Hs').
    cbv zeta in Hs'.
    destruct Hex as (_ & Hl & Hln & _ & _ & He & Hen & _).
    destruct (np_synced_at _ _ _ _ _ _ Hnp1 Hl Hln He Hen) as [-> ->].
    subst s'. pose proof (Hoth k eq_refl) as Hoth'.
    destruct forces as [fs |], energy as [en |]; subst;
      rewrite ?app_nil_r; eapply set_expert_post; eassumption.
  - intros env force do_train eid kwargs s' Hrun.
    unfold add_one_env in Hrun.
    apply bind_returns_inv in Hrun as (e & s1 & Hsel & Hrun).
    apply bind_returns_inv in Hrun as ([] & s2 & Hstore & Hrun).
    destruct (select_expert_facts _ _ _ _ Hwf Hnp Hsel) as (Hwf1 & Hnp1 & Hoth).
    pose proof (wf_store_lists _ Hwf1) as Hl1.
    destruct (logger (attrs s1)) eqn:Hlog.
    2: { rewrite (store_env_no_logger _ _ _ _ Hlog) in Hstore. discriminate. }
    destruct (norm_index (Z.to_nat (n_experts (attrs s1))) e) as [k |] eqn:Hk.
    2: { rewrite (store_env_out_of_range _ _ _ _ _ Hk Hl1 Hlog) in Hstore.
         discriminate. }
    apply norm_index_lt in Hk as Hlt.
    destruct (expert_exists _ _ _ Hl1 Hlt)
      as (d0 & l0 & ln0 & n0 & t0 & e0 & en0 & al0 & Hex).
    rewrite (store_env_run _ _ _ _ _ _ _ _ _ _ _ _ _ _ Hk Hl1 Hex Hlog)
      in Hstore.
    injection Hstore as <-.
    destruct Hex as (_ & Hl & Hln & _ & _ & He & Hen & _).
    destruct (np_synced_at _ _ _ _ _ _ Hnp1 Hl Hln He Hen) as [-> ->].
    pose proof (set_expert_post eid s s1 e k (d0 ++ [env]) (l0 ++ [force])
                  (n0 + 1) t0 e0 Hsel Hwf1 Hnp1 Hk (Hoth k eq_refl)) as Hpost.
    destruct do_train.
    + apply bind_returns_inv in Hrun as (r & s3 & Htrain & Hret).
      injection Hret as <-.
      destruct (train_keeps kwargs
                  (on_store
                     (set_expert k (d0 ++ [env]) (l0 ++ [force])
                        (concat (l0 ++ [force])) (n0 + 1) t0 e0 e0
                        (concat (l0 ++ [force]) ++ e0)) s1)) as [Hkp _].
      rewrite Htrain in Hkp. cbn [snd] in Hkp.
      destruct Hpost as (e' & k' & P1 & P2 & P3 & P4 & P5).
      exists e', k'. split; [exact P1 |].
      split; [destruct Hkp as (-> & _); exact P2 |].
      split; [eapply keeps_labels_consistent; eassumption |].
      split; [eapply keeps_others_untouched; eassumption |].
      eapply keeps_np_synced; eassumption.
    + injection Hrun as <-. exact Hpost.
Qed.

(** *** The constructor establishes the invariants *)


Lemma add_container_lengths (j : nat) (s : State) :
  all_lengths j s -> all_lengths (S j) (snd (add_container s)).
Proof.
  unfold all_lengths.
  intros (H1 & H2 & H3 & H4 & H5 & H6 & H7 & H8 & H9 & H10 & H11 & H12 & H13 &
          H14 & H15 & H16).
  cbn. rewrite !length_app. cbn [length].
  rewrite H1, H2, H3, H4, H5, H6, H7, H8, H9, H10, H11, H12, H13, H14, H15,
    H16.
  repeat split; lia.
Qed.

Lemma add_container_np_synced (s : State) :
  np_synced s -> np_synced (snd (add_container s)).
Proof.
  unfold np_synced. intros (H1 & H2). cbn. rewrite H1, H2, map_app.
  split; reflexivity.
Qed.

Lemma init_loop {A} (l : list A) : forall (s : State) (j : nat),
  all_lengths j s -> np_synced s ->
  all_lengths (j + length l) (snd (for_ l (fun _ => add_container) s)) /\
  np_synced (snd (for_ l (fun _ => add_container) s)) /\
  attrs (snd (for_ l (fun _ => add_container) s)) = attrs s.
Proof.
  induction l as [| x r IH]; intros s j Hl Hnp.
  - cbn. rewrite Nat.add_0_r.
    split; [exact Hl |]. split; [exact Hnp | reflexivity].
  - assert (for_ (x :: r) (fun _ => add_container) s =
            for_ r (fun _ => add_container) (snd (add_container s))) as ->
      by reflexivity.
    destruct (IH (snd (add_container s)) (S j)) as (H1 & H2 & H3).
    + apply add_container_lengths. exact Hl.
    + apply add_container_np_synced. exact Hnp.
    + cbn [length]. replace (j + S (length r))%nat with (S j + length r)%nat by lia.
      split; [exact H1 |]. split; [exact H2 |]. rewrite H3. reflexivity.
Qed.

Lemma init_invariants (n ndata : Z) (pv : F) (h : Hyps) (alg : string)
    (bnds : option Bounds) (lg : bool) :
  0 <= n ->
  let s : State := init n ndata pv h alg bnds lg in
  wf s /\ np_synced s /\
  log_prior_var (attrs s) = f_log (prior_variance (attrs s)) /\
  n_experts (attrs s) = n /\ current_expert (attrs s) = 0.
Proof.
  intros Hn. cbv zeta. unfold init.
  destruct (init_loop (range n) (blank n ndata pv h alg bnds lg : State) 0)
    as (H1 & H2 & H3).
  - unfold all_lengths. repeat split.
  - unfold np_synced. split; reflexivity.
  - set (s := snd (for_ (range n) (fun _ => add_container)
                     (blank n ndata pv h alg bnds lg : State))) in *.
    clearbody s. unfold range in H1. rewrite length_map, length_seq in H1.
    cbn [Nat.add] in H1.
    split.
    + unfold wf. rewrite H3. cbn [n_experts attrs blank].
      unfold all_lengths in H1. split; [exact Hn | exact H1].
    + split; [exact H2 |]. rewrite H3. repeat split.
Qed.


(** ** Persistence: which formats [write_model] accepts *)

Lemma write_model_run name format (s : State) :
  write_model name format s =
    if (String.eqb (lower format) "pickle"
        || String.eqb (lower format) "binary")%bool
    then (Returns tt,
          on_attrs (set_logger (logger (attrs s)))
            (snd (log_call (Call_pickle_dump (name ++ ".pickle"))
                    (on_attrs (set_logger false) s))))
    else (Raises ValueError, on_attrs (set_logger false) s).
Proof.
  unfold write_model. mrun.
  destruct (String.eqb_spec (lower format) "json") as [-> | _].
  - reflexivity.
  - destruct (String.eqb (lower format) "pickle"
              || String.eqb (lower format) "binary")%bool; reflexivity.
Qed.


(** A failed [write_model] leaves the model without its logger. *)
Lemma write_model_failure_drops_logger name format (s : State) e :
  fst (write_model name format s) = Raises e ->
  logger (attrs (snd (write_model name format s))) = false.
Proof.
  rewrite write_model_run.
  destruct (String.eqb (lower format) "pickle"
            || String.eqb (lower format) "binary")%bool;
    [discriminate | reflexivity].
Qed.

(** ** Training: what the empty-model guard looks at *)

Lemma bind_ends (Q : State -> Prop) {A B} (c : M A) (k : A -> M B) s :
  (forall s s', keeps s s' -> Q s -> Q s') ->
  Q (snd (c s)) -> (forall a, sat keeps any_exn (k a)) ->
  Q (snd (bind c k s)).
Proof.
  intros Hst Hc Hk. unfold bind.
  destruct (c s) as [[a | e] s1]; cbn [snd] in *.
  - apply (Hst s1); [apply Hk | exact Hc].
  - exact Hc.
Qed.

Lemma ensures_bind_l (Q : State -> Prop) {A B} (c : M A) (k : A -> M B) :
  (forall s s', keeps s s' -> Q s -> Q s') ->
  ensures Q c -> (forall a, sat keeps any_exn (k a)) -> ensures Q (bind c k).
Proof. intros Hst Hc Hk s. apply bind_ends; [exact Hst | apply Hc | exact Hk]. Qed.

Lemma ensures_try_except (Q : State -> Prop) {A} (c : M A) e0 (h : M A) :
  (forall s s', keeps s s' -> Q s -> Q s') ->
  ensures Q c -> sat keeps any_exn h -> ensures Q (try_except c e0 h).
Proof.
  intros Hst Hc Hh s. unfold try_except.
  specialize (Hc s). destruct (c s) as [[a | e] s1]; cbn [snd] in *.
  - exact Hc.
  - destruct (decide (e = e0)); [| exact Hc].
    apply (Hst s1); [apply Hh | exact Hc].
Qed.

Lemma logged_stable c (s s' : State) :
  keeps s s' -> In c (calls s) -> In c (calls s').
Proof.
  unfold keeps. intros H Hin.
  repeat match goal with H : _ /\ _ |- _ => destruct H as [_ H] end.
  destruct H as [l ->]. apply in_or_app. left. exact Hin.
Qed.

Lemma call_minimize_logged method x_0 b o :
  ensures (fun s => In (Call_minimize method) (calls s))
    (call_minimize method x_0 b o).
Proof.
  unfold call_minimize.
  apply ensures_bind_l; [apply logged_stable | | intros; keeps_auto].
  intros s. cbn. apply in_or_app. right. left. reflexivity.
Qed.

(** The guard of [train] tests the number of expert containers, not the
    number of labelled entries: with at least one expert, whatever it
    holds, [train] goes on to call the optimizer. *)
Lemma train_reaches_optimizer a (s : State) :
  wf s -> 0 < n_experts (attrs s) ->
  arg_logger a = false -> opt_algorithm (attrs s) = "L-BFGS-B" ->
  In (Call_minimize "L-BFGS-B") (calls (snd (train a s))).
Proof.
  intros Hwf Hn Hl Ho.
  destruct (sync_data_run s Hwf) as (s1 & Hsync & _).
  assert (Hd : (length (training_data (store s)) =? 0)%nat = false).
  { apply Nat.eqb_neq. destruct Hwf as (_ & -> & _). lia. }
  assert (Ht : (length (training_labels (store s)) =? 0)%nat = false).
  { apply Nat.eqb_neq. destruct Hwf as (_ & _ & -> & _). lia. }
  unfold train. rewrite Hl.
  rewrite (bind_returns _ _ s tt s) by reflexivity.
  rewrite (bind_returns _ _ s s s) by reflexivity.
  rewrite Hd, Ht. cbn [orb].
  rewrite (bind_returns _ _ s tt s) by reflexivity.
  rewrite (bind_returns _ _ s tt s1) by exact Hsync.
  cbv zeta. rewrite Ho. cbn [String.eqb Ascii.eqb Bool.eqb].
  apply (ensures_bind_l (fun s => In (Call_minimize "L-BFGS-B") (calls s)));
    [apply logged_stable | | intros; keeps_auto].
  apply ensures_try_except; [apply logged_stable | | keeps_auto].
  apply ensures_bind_l; [apply logged_stable | | intros; keeps_auto].
  apply call_minimize_logged.
Qed.


(** ** The refresh decision of [check_L_alpha], case by case *)

Lemma cell_get_at {A} (c : cells A) (i : Z) (s : State) (x : A) :
  0 <= i -> view c s !! Z.to_nat i = Some x ->
  cell_get c i s = (Returns x, s).
Proof.
  intros Hi Hx. unfold cell_get. mrun.
  rewrite (py_get_nonneg _ _ _ Hi Hx). reflexivity.
Qed.

Lemma size3_nonzero (d : list Env) :
  d <> [] -> (Z.of_nat (length d) * 3 =? 0) = false.
Proof. intros Hd. apply Z.eqb_neq. destruct d; [congruence | cbn; lia]. Qed.

(** An expert without observations ends the whole loop: the experts after
    it are not looked at. *)
Lemma check_L_alpha_loop_empty i rest (s : State) :
  0 <= i -> training_data (store s) !! Z.to_nat i = Some [] ->
  check_L_alpha_loop (i :: rest) s = (Returns tt, s).
Proof.
  intros Hi Hd. cbn [check_L_alpha_loop].
  rewrite (bind_returns _ _ _ _ _ (cell_get_at c_training_data i s _ Hi Hd)).
  reflexivity.
Qed.

(** An expert with observations and no factorization yet: reading the
    shape of its [alpha] fails. *)
Lemma check_L_alpha_loop_unfactored i rest (s : State) d :
  0 <= i -> training_data (store s) !! Z.to_nat i = Some d -> d <> [] ->
  alpha (factors s) !! Z.to_nat i = Some None ->
  check_L_alpha_loop (i :: rest) s = (Raises AttributeError, s).
Proof.
  intros Hi Hd Hne Ha. cbn [check_L_alpha_loop].
  rewrite (bind_returns _ _ _ _ _ (cell_get_at c_training_data i s _ Hi Hd)).
  rewrite (size3_nonzero d Hne).
  rewrite (bind_returns _ _ _ _ _ (cell_get_at c_alpha i s _ Hi Ha)).
  reflexivity.
Qed.

(** A factorized expert that has since received observations: the
    incremental update fails before [get_ky_mat_update] is reached. *)
Lemma check_L_alpha_loop_more_data i rest (s : State) d a L K :
  0 <= i -> training_data (store s) !! Z.to_nat i = Some d ->
  alpha (factors s) !! Z.to_nat i = Some (Some a) ->
  Z.of_nat (length a) < Z.of_nat (length d) * 3 ->
  l_mat (factors s) !! Z.to_nat i = Some (Some L) ->
  ky_mat (factors s) !! Z.to_nat i = Some K ->
  check_L_alpha_loop (i :: rest) s = (Raises TypeError, s).
Proof.
  intros Hi Hd Ha Hlt Hl Hk. cbn [check_L_alpha_loop].
  rewrite (bind_returns _ _ _ _ _ (cell_get_at c_training_data i s _ Hi Hd)).
  rewrite size3_nonzero by (destruct d; [cbn in Hlt; lia | discriminate]).
  rewrite (bind_returns _ _ _ _ _ (cell_get_at c_alpha i s _ Hi Ha)).
  rewrite (bind_returns _ _ _ (Z.of_nat (length a)) s) by reflexivity.
  destruct (Z.gtb_spec (Z.of_nat (length d) * 3) (Z.of_nat (length a)));
    [| lia].
  apply bind_raises. unfold update_L_alpha.
  rewrite (bind_returns _ _ _ _ _ (cell_get_at c_l_mat i s _ Hi Hl)).
  rewrite (bind_returns _ _ _ _ _ (cell_get_at c_ky_mat i s _ Hi Hk)).
  reflexivity.
Qed.

Lemma log_extended_stable c (s0 s s' : State) :
  keeps s s' ->
  (exists l, calls s = calls s0 ++ c :: l) ->
  exists l, calls s' = calls s0 ++ c :: l.
Proof.
  unfold keeps. intros H [l Hl].
  repeat match goal with H : _ /\ _ |- _ => destruct H as [_ H] end.
  destruct H as [l' ->]. exists (l ++ l').
  rewrite Hl, <- app_assoc. reflexivity.
Qed.

(** A factorized expert whose [alpha] is longer than three times its
    number of environments (it carries structure energies): the covariance
    matrix is built again from scratch, on every call. *)
Lemma check_L_alpha_loop_energy_labels i rest (s : State) d a :
  wf s -> 0 <= i < n_experts (attrs s) ->
  training_data (store s) !! Z.to_nat i = Some d -> d <> [] ->
  alpha (factors s) !! Z.to_nat i = Some (Some a) ->
  Z.of_nat (length d) * 3 < Z.of_nat (length a) ->
  exists l,
    calls (snd (check_L_alpha_loop (i :: rest) s)) =
    calls s ++ Call_get_Ky_mat i :: l.
Proof.
  intros Hwf Hi Hd Hne Ha Hlt. destruct Hi as [Hi Hi'].
  cbn [check_L_alpha_loop].
  rewrite (bind_returns _ _ _ _ _ (cell_get_at c_training_data i s _ Hi Hd)).
  rewrite (size3_nonzero d Hne).
  rewrite (bind_returns _ _ _ _ _ (cell_get_at c_alpha i s _ Hi Ha)).
  rewrite (bind_returns _ _ _ (Z.of_nat (length a)) s) by reflexivity.
  destruct (Z.gtb_spec (Z.of_nat (length d) * 3) (Z.of_nat (length a)));
    [lia |].
  destruct (Z.eqb_spec (Z.of_nat (length d) * 3) (Z.of_nat (length a)));
    [lia |].
  cbn [negb].
  set (Q := fun s' : State =>
              exists l, calls s' = calls s ++ Call_get_Ky_mat i :: l).
  assert (Hst : forall s1 s2 : State, keeps s1 s2 -> Q s1 -> Q s2).
  { intros s1 s2. apply log_extended_stable. }
  change (Q (snd (bind (set_L_alpha_part i)
                    (fun _ => check_L_alpha_loop rest) s))).
  pose proof check_L_alpha_loop_keeps.
  apply bind_ends; [exact Hst | | intros; keeps_auto].
  destruct (sync_one_data_run s i Hwf (conj Hi Hi')) as (lb & en & Hsync).
  unfold set_L_alpha_part.
  rewrite (bind_returns _ _ _ _ _ Hsync).
  apply bind_ends; [exact Hst | | intros; keeps_auto].
  unfold build_Ky_mat.
  rewrite (bind_returns get _ _ _ _ eq_refl).
  apply bind_ends; [exact Hst | | intros; keeps_auto].
  exists []. reflexivity.
Qed.


Lemma check_L_alpha_starts_at_first (s : State) :
  wf s -> 0 < n_experts (attrs s) ->
  exists s1 rest,
    same_object s s1 /\ calls s1 = calls s /\
    check_L_alpha s = check_L_alpha_loop (0 :: rest) s1.
Proof.
  intros Hwf Hn.
  destruct (sync_data_run s Hwf) as (s1 & Hsync & Hso & Hc & _).
  exists s1, (map Z.of_nat (seq 1 (Z.to_nat (n_experts (attrs s)) - 1))).
  split; [exact Hso |]. split; [exact Hc |].
  unfold check_L_alpha.
  rewrite (bind_returns _ _ _ _ _ Hsync).
  rewrite (bind_returns get _ _ _ _ eq_refl).
  destruct Hso as (-> & _). unfold range.
  destruct (Z.to_nat (n_experts (attrs s))) as [| n] eqn:E; [lia |].
  replace (S n - 1)%nat with n by lia. reflexivity.
Qed.

(** With observations in the first expert and no factorization yet,
    [check_L_alpha] raises and rebuilds nothing. *)
Lemma check_L_alpha_unfactored_raises (s : State) d :
  wf s -> 0 < n_experts (attrs s) ->
  training_data (store s) !! 0%nat = Some d -> d <> [] ->
  alpha (factors s) !! 0%nat = Some None ->
  fst (check_L_alpha s) = Raises AttributeError /\
  factors (snd (check_L_alpha s)) = factors s /\
  calls (snd (check_L_alpha s)) = calls s.
Proof.
  intros Hwf Hn Hd Hne Ha.
  destruct (check_L_alpha_starts_at_first s Hwf Hn)
    as (s1 & rest & (_ & Hst & Hf) & Hc & ->).
  rewrite (check_L_alpha_loop_unfactored 0 rest s1 d);
    [| lia | rewrite Hst; exact Hd | exact Hne | rewrite Hf; exact Ha].
  cbn [fst snd]. repeat split; assumption.
Qed.

(** With an empty first expert, [check_L_alpha] returns at once: no expert
    is refreshed, whatever the later ones hold. *)
Lemma check_L_alpha_stops_at_empty_expert (s : State) :
  wf s -> 0 < n_experts (attrs s) ->
  training_data (store s) !! 0%nat = Some [] ->
  fst (check_L_alpha s) = Returns tt /\
  factors (snd (check_L_alpha s)) = factors s /\
  calls (snd (check_L_alpha s)) = calls s.
Proof.
  intros Hwf Hn Hd.
  destruct (check_L_alpha_starts_at_first s Hwf Hn)
    as (s1 & rest & (_ & Hst & Hf) & Hc & ->).
  rewrite (check_L_alpha_loop_empty 0 rest s1);
    [| lia | rewrite Hst; exact Hd].
  cbn [fst snd]. repeat split; assumption.
Qed.

(** ** The object invariant

    Every call of the class, whether it returns or raises, leaves one entry
    per expert in every per-expert list and leaves [log_prior_var] the
    logarithm of [prior_variance]; only a bare [add_container], which the
    class itself always follows by [n_experts += 1], does not. *)

Lemma same_shape_refl s : same_shape s s.
Proof. unfold same_shape. repeat split. Qed.

Lemma same_shape_trans s1 s2 s3 :
  same_shape s1 s2 -> same_shape s2 s3 -> same_shape s1 s3.
Proof.
  unfold same_shape. intros H1 H2.
  repeat match goal with
         | H : _ /\ _ |- _ =>
             let E := fresh "E" in destruct H as [E H]
         end.
  repeat match goal with |- _ /\ _ => split end;
    (etransitivity; [eassumption | assumption]).
Qed.

Lemma same_shape_of_keeps (s s' : State) : keeps s s' -> same_shape s s'.
Proof.
  unfold keeps, same_shape. intros H.
  repeat match goal with
         | H : _ /\ _ |- _ =>
             let E := fresh "E" in destruct H as [E H]
         end.
  repeat match goal with |- _ /\ _ => split end;
    first [assumption | (f_equal; assumption)].
Qed.

Lemma preserves_refl s : preserves s s.
Proof. intros H. exact H. Qed.

Lemma preserves_trans s1 s2 s3 :
  preserves s1 s2 -> preserves s2 s3 -> preserves s1 s3.
Proof. unfold preserves. auto. Qed.

Lemma preserves_of_same_shape (s s' : State) :
  same_shape s s' -> preserves s s'.
Proof.
  unfold same_shape, preserves, invariant, wf. cbv zeta. intros H Hi.
  repeat match goal with
         | H : _ /\ _ |- _ =>
             let E := fresh "E" in destruct H as [E H]; rewrite E; clear E
         end.
  rewrite H. exact Hi.
Qed.

Lemma sat_weaken (R R' : State -> State -> Prop) P {A} (c : M A) :
  (forall s s', R s s' -> R' s s') -> sat R P c -> sat R' any_exn c.
Proof.
  intros HR H s. destruct (H s) as [H1 _].
  split; [apply HR; exact H1 | intros; exact I].
Qed.

Ltac shape_auto :=
  sat_auto same_shape_refl same_shape_trans
    ltac:(intros; unfold same_shape; cbn; rewrite ?length_alter;
          repeat split)
    ltac:(exact I).

Lemma store_observations_shape struc forces cr energy e :
  sat same_shape any_exn (store_observations struc forces cr energy e).
Proof. shape_auto. Qed.

Lemma store_env_shape env force e :
  sat same_shape any_exn (store_env env force e).
Proof. shape_auto. Qed.

Lemma advance_invariant (s : State) : invariant s -> invariant (advance s).
Proof. intros H. exact H. Qed.

Lemma grow_invariant (s : State) : invariant s -> invariant (grow s).
Proof.
  intros [Hwf Hl]. split; [| exact Hl].
  apply (grown_wf s); [apply grow_grown | exact Hwf].
Qed.

Lemma find_expert_to_add_preserves : sat preserves any_exn find_expert_to_add.
Proof.
  intros s. split; [| intros; exact I].
  unfold find_expert_to_add. mrun. cbn [view c_n_envs_prev].
  destruct (py_get (n_envs_prev (store s)) (current_expert (attrs s)))
    as [n |]; [| apply preserves_refl].
  destruct (ndata_per_expert (attrs s) <? n);
    [exact (advance_invariant s) | apply preserves_refl].
Qed.

Lemma select_expert_preserves eid : sat preserves any_exn (select_expert eid).
Proof.
  unfold select_expert.
  apply (sat_bind _ _ preserves_trans).
  - destruct eid; [apply (sat_ret _ _ preserves_refl) |].
    apply find_expert_to_add_preserves.
  - intros e s. rewrite make_room_run. cbn [fst snd].
    split; [| intros; exact I].
    destruct (n_experts (attrs s) <=? e);
      [exact (grow_invariant s) | apply preserves_refl].
Qed.

Lemma update_db_preserves st f cr en e :
  sat preserves any_exn (update_db st f cr en e).
Proof.
  unfold update_db. apply (sat_bind _ _ preserves_trans).
  - apply select_expert_preserves.
  - intros x. eapply sat_weaken; [apply preserves_of_same_shape |].
    apply store_observations_shape.
Qed.

Lemma preserves_of_keeps {A} (c : M A) P :
  sat keeps P c -> sat preserves any_exn c.
Proof.
  apply sat_weaken. intros s s' H.
  apply preserves_of_same_shape, same_shape_of_keeps, H.
Qed.

Lemma add_one_env_preserves env f t e kw :
  sat preserves any_exn (add_one_env env f t e kw).
Proof.
  unfold add_one_env. apply (sat_bind _ _ preserves_trans).
  - apply select_expert_preserves.
  - intros x. apply (sat_bind _ _ preserves_trans).
    + eapply sat_weaken; [apply preserves_of_same_shape |].
      apply store_env_shape.
    + intros _. destruct t; [| apply (sat_ret _ _ preserves_refl)].
      apply (sat_bind _ _ preserves_trans);
        [| intros; apply (sat_ret _ _ preserves_refl)].
      exact (preserves_of_keeps _ _ (train_keeps kw)).
Qed.

Lemma exec_op_preserves (o : op) :
  o <> Op_add_container -> sat preserves any_exn (exec_op o).
Proof.
  intros Ho.
  destruct o; cbn [exec_op];
    (apply (sat_bind _ _ preserves_trans);
     [| intros; apply (sat_ret _ _ preserves_refl)]).
  - apply find_expert_to_add_preserves.
  - contradiction.
  - apply update_db_preserves.
  - apply add_one_env_preserves.
  - exact (preserves_of_keeps _ _ (train_keeps _)).
  - exact (preserves_of_keeps _ _ check_L_alpha_keeps).
  - destruct (existsb (Z.eqb d) [1; 2; 3]) eqn:Hd.
    + exact (preserves_of_keeps _ _ (predict_valid_keeps x_t d Hd)).
    + intros s. rewrite (predict_invalid _ _ _ Hd). cbn.
      split; [apply preserves_refl | intros; exact I].
  - exact (preserves_of_keeps _ _ set_L_alpha_keeps).
  - exact (preserves_of_keeps _ _ (set_L_alpha_part_keeps _)).
  - exact (preserves_of_keeps _ _ (update_L_alpha_keeps _)).
  - exact (preserves_of_keeps _ _ (compute_one_matrices_keeps _ _)).
  - exact (preserves_of_keeps _ _ sync_data_keeps).
  - exact (preserves_of_keeps _ _ (sync_one_data_keeps _)).
  - exact (preserves_of_keeps _ _ (write_model_keeps _ _)).
Qed.

(** The invariant holds in every state a caller can reach from a new
    model, also through calls that raised. *)
Lemma run_invariant (ops : list op) : forall s : State,
  Forall (fun o => o <> Op_add_container) ops ->
  invariant s -> invariant (snd (run ops s)).
Proof.
  induction ops as [| o rest IH]; intros s Hops Hs; [exact Hs |].
  inversion Hops as [| ? ? Ho Hrest]; subst.
  cbn [run snd]. apply IH; [exact Hrest |].
  destruct (exec_op_preserves o Ho s) as [H _]. apply H. exact Hs.
Qed.

Lemma reachable_invariant n ndata pv h alg bnds lg (ops : list op) :
  0 <= n ->
  Forall (fun o => o <> Op_add_container) ops ->
  invariant (snd (run ops (init n ndata pv h alg bnds lg))).
Proof.
  intros Hn Hops. apply run_invariant; [exact Hops |].
  destruct (init_invariants n ndata pv h alg bnds lg Hn) as (Hwf & _ & Hl & _).
  split; [exact Hwf | exact Hl].
Qed.

(** * Further properties of the class *)

(** ** The constructor *)

Lemma add_containers_run {A} (l : list A) : forall s : State,
  snd (for_ l (fun _ => add_container) s) = with_containers (length l) s.
Proof.
  induction l as [| x l IH]; intros s.
  - destruct s as [a [] [] r c]. unfold with_containers. cbn.
    rewrite !app_nil_r. reflexivity.
  - cbn [for_].
    rewrite (bind_returns _ _ s tt (snd (add_container s))) by reflexivity.
    rewrite IH. destruct s as [a [] [] r c]. unfold with_containers. cbn.
    rewrite <- !app_assoc. reflexivity.
Qed.

(** X1. The constructor (lines 63-108) builds [max(n_experts, 0)] experts,
    each with empty stores, a zero count and [None] in every matrix field;
    it records [n_experts] as given, starts routing at expert 0 and caches
    the logarithm of the prior variance. *)
Theorem init_creates_empty_experts (n ndata : Z) (pv : F) (h : Hyps)
    (alg : string) (bnds : option Bounds) (lg : bool) :
  let s : State := init n ndata pv h alg bnds lg in
  let N := Z.to_nat n in
  attrs s = mkAttrs n pv (f_log pv) ndata 0 h alg bnds lg None None /\
  store s =
    mkStore (replicate N []) (replicate N []) (replicate N [])
      (replicate N 0) (replicate N []) (replicate N []) (replicate N [])
      (replicate N []) /\
  factors s =
    mkFactors (replicate N None) (replicate N None) (replicate N None)
      (replicate N None) (replicate N None) (replicate N None)
      (replicate N None) (replicate N None) /\
  registry s = ∅ /\ calls s = [].
Proof.
  cbv zeta. unfold init. rewrite add_containers_run.
  unfold range. rewrite length_map, length_seq.
  unfold with_containers, blank. cbn. repeat split.
Qed.

(** ** The object invariant over whole call sequences *)

(** X2. Starting from a new model with [n_experts >= 0], after any
    sequence of calls of the class's methods (a bare [add_container]
    apart), also when some of them raised, every per-expert list has
    exactly [n_experts] entries and [log_prior_var] is the logarithm of
    [prior_variance]. *)
Theorem calls_keep_one_entry_per_expert (n ndata : Z) (pv : F) (h : Hyps)
    (alg : string) (bnds : option Bounds) (lg : bool) (ops : list op) :
  0 <= n ->
  Forall (fun o => o <> Op_add_container) ops ->
  let s := snd (run ops (init n ndata pv h alg bnds lg)) in
  wf s /\ log_prior_var (attrs s) = f_log (prior_variance (attrs s)).
Proof.
  intros Hn Hops. exact (reachable_invariant n ndata pv h alg bnds lg ops Hn Hops).
Qed.

(** ** What the read-only calls leave alone *)

Lemma exec_op_keeps (o : op) :
  read_only o = true -> sat keeps any_exn (exec_op o).
Proof.
  intros Ho.
  destruct o; try discriminate Ho; cbn [exec_op];
    (apply (sat_bind _ _ keeps_trans);
     [| intros; apply (sat_ret _ _ keeps_refl)]).
  - apply train_keeps.
  - exact (sat_any _ _ _ check_L_alpha_keeps).
  - destruct (existsb (Z.eqb d) [1; 2; 3]) eqn:Hd.
    + exact (sat_any _ _ _ (predict_valid_keeps x_t d Hd)).
    + intros s. rewrite (predict_invalid _ _ _ Hd). cbn [fst snd].
      split; [apply keeps_refl | intros; exact I].
  - exact (sat_any _ _ _ set_L_alpha_keeps).
  - exact (sat_any _ _ _ (set_L_alpha_part_keeps _)).
  - exact (sat_any _ _ _ (update_L_alpha_keeps _)).
  - exact (sat_any _ _ _ (compute_one_matrices_keeps _ _)).
  - exact (sat_any _ _ _ sync_data_keeps).
  - exact (sat_any _ _ _ (sync_one_data_keeps _)).
  - exact (sat_any _ _ _ (write_model_keeps _ _)).
Qed.

(** X3. Training, prediction, the factorization methods, the
    synchronisation methods and [write_model] never change the training
    data: whether the call returns or raises, the environments, force
    labels, structures, energy labels and label vectors of every expert,
    the number of experts, the routing state and the prior are as before,
    and the log of collaborator calls is only extended. *)
Theorem read_only_calls_keep_the_training_data (o : op) (s : State) :
  read_only o = true ->
  let s' := snd (exec_op o s) in
  n_experts (attrs s') = n_experts (attrs s) /\
  current_expert (attrs s') = current_expert (attrs s) /\
  ndata_per_expert (attrs s') = ndata_per_expert (attrs s) /\
  prior_variance (attrs s') = prior_variance (attrs s) /\
  training_data (store s') = training_data (store s) /\
  training_labels (store s') = training_labels (store s) /\
  training_labels_np (store s') = training_labels_np (store s) /\
  training_structures (store s') = training_structures (store s) /\
  energy_labels (store s') = energy_labels (store s) /\
  energy_labels_np (store s') = energy_labels_np (store s) /\
  all_labels (store s') = all_labels (store s) /\
  exists l, calls s' = calls s ++ l.
Proof.
  intros Ho. cbv zeta.
  destruct (exec_op_keeps o Ho s) as [H _]. unfold keeps in H.
  destruct H as (H1 & H2 & H3 & _ & H5 & H6 & H7 & H8 & H9 & H10 & H11 & H12 &
                 H).
  repeat match goal with H : _ /\ _ |- _ => destruct H as [_ H] end.
  repeat match goal with |- _ /\ _ => split end; assumption.
Qed.

(** ** Synchronisation with the collaborators' registry *)

Lemma sync_one_data_exact (s : State) (i : Z) l e :
  wf s -> 0 <= i < n_experts (attrs s) ->
  training_labels_np (store s) !! Z.to_nat i = Some l ->
  energy_labels_np (store s) !! Z.to_nat i = Some e ->
  sync_one_data i s =
  (Returns tt, on_registry (insert i (Z.to_nat i, l, e)) s).
Proof.
  intros Hwf Hi Hl He. unfold wf in Hwf. cbv zeta in Hwf.
  destruct Hwf as (Hn & Hd & _ & _ & _ & Ht & _).
  destruct (lookup_lt_is_Some_2 (training_structures (store s)) (Z.to_nat i))
    as [t Ht']; [lia |].
  unfold sync_one_data. mstep.
  destruct (Z.gtb_spec (Z.of_nat (length (training_data (store s)))) i);
    [| lia].
  rewrite norm_index_nonneg by lia. mstep.
  rewrite (py_get_nonneg _ _ _ (proj1 Hi) Hl). mstep.
  rewrite (py_get_nonneg _ _ _ (proj1 Hi) Ht'). mstep.
  rewrite (py_get_nonneg _ _ _ (proj1 Hi) He). mstep.
  reflexivity.
Qed.

Lemma sync_one_data_past_the_end (s : State) (i : Z) :
  Z.of_nat (length (training_data (store s))) <= i ->
  sync_one_data i s = (Returns tt, s).
Proof.
  intros Hi. unfold sync_one_data. mstep.
  destruct (Z.gtb_spec (Z.of_nat (length (training_data (store s)))) i);
    [lia | reflexivity].
Qed.

Lemma published_insert (s : State) (i j : Z) l e :
  training_labels_np (store s) !! Z.to_nat i = Some l ->
  energy_labels_np (store s) !! Z.to_nat i = Some e ->
  published s j \/ j = i ->
  published (on_registry (insert i (Z.to_nat i, l, e)) s) j.
Proof.
  intros Hl He H. unfold published. msimpl.
  destruct (decide (i = j)) as [<- | Hne].
  - exists l, e. split; [apply lookup_insert_eq |]. split; assumption.
  - destruct H as [(l' & e' & H & H') | ->]; [| congruence].
    exists l', e'. rewrite lookup_insert_ne by assumption.
    split; [exact H | exact H'].
Qed.

Lemma sync_loop_publishes (l : list Z) : forall s : State,
  wf s -> (forall i, In i l -> 0 <= i < n_experts (attrs s)) ->
  exists s',
    for_ l sync_one_data s = (Returns tt, s') /\
    same_object s s' /\ calls s' = calls s /\
    (forall i, published s i \/ In i l -> published s' i).
Proof.
  induction l as [| i rest IH]; intros s Hwf Hl.
  - exists s. cbn. repeat split. intros i [H | []]. exact H.
  - assert (Hi : 0 <= i < n_experts (attrs s)) by (apply Hl; left; reflexivity).
    pose proof Hwf as Hwf'. unfold wf in Hwf'. cbv zeta in Hwf'.
    destruct Hwf' as (_ & _ & _ & Hlen & _ & _ & _ & Helen & _).
    destruct (lookup_lt_is_Some_2 (training_labels_np (store s)) (Z.to_nat i))
      as [lb Hlb]; [lia |].
    destruct (lookup_lt_is_Some_2 (energy_labels_np (store s)) (Z.to_nat i))
      as [e He]; [lia |].
    pose proof (sync_one_data_exact s i lb e Hwf Hi Hlb He) as Hrun.
    set (s1 := on_registry (insert i (Z.to_nat i, lb, e)) s) in *.
    assert (same_object s s1) as Hso by (repeat split).
    destruct (IH s1) as (s' & Hrun' & Hso' & Hc' & Hreg').
    { eapply same_object_wf; eassumption. }
    { intros j Hj. destruct Hso as (-> & _). apply Hl. right. exact Hj. }
    exists s'. cbn [for_]. rewrite (bind_returns _ _ _ _ _ Hrun).
    split; [exact Hrun' |].
    split; [exact (same_object_trans _ _ _ Hso Hso') |].
    split; [rewrite Hc'; reflexivity |].
    intros j Hj. apply Hreg'.
    destruct Hj as [Hj | [<- | Hj]].
    + left. apply published_insert; [exact Hlb | exact He | left; exact Hj].
    + left. apply published_insert; [exact Hlb | exact He | right; reflexivity].
    + right. exact Hj.
Qed.

(** X4. On a model with one entry per expert in every list, [sync_data]
    returns, changes nothing in the object itself, calls no collaborator,
    and afterwards the registry holds for every expert [i] an entry that
    aliases expert [i]'s lists and carries its present label arrays.
    [sync_one_data] with an id past the last expert silently does
    nothing. *)
Theorem sync_data_publishes_every_expert (s : State) :
  wf s ->
  (exists s',
     sync_data s = (Returns tt, s') /\
     attrs s' = attrs s /\ store s' = store s /\ factors s' = factors s /\
     calls s' = calls s /\
     forall i, 0 <= i < n_experts (attrs s) -> published s' i) /\
  (forall i, n_experts (attrs s) <= i -> sync_one_data i s = (Returns tt, s)).
Proof.
  intros Hwf. split.
  - destruct (sync_loop_publishes (range (n_experts (attrs s))) s Hwf)
      as (s' & Hrun & (Ha & Hst & Hf) & Hc & Hpub).
    { intros i Hi. apply in_range. exact Hi. }
    exists s'. unfold sync_data.
    rewrite (bind_returns get _ _ _ _ eq_refl).
    repeat (split; [assumption |]).
    intros i Hi. apply Hpub. right. apply in_range. exact Hi.
  - intros i Hi. apply sync_one_data_past_the_end.
    unfold wf in Hwf. cbv zeta in Hwf. destruct Hwf as (Hn & -> & _). lia.
Qed.

(** ** Persistence: what [write_model] leaves behind *)


(** ** Edge cases of the mutations and of prediction *)

(** X6. [update_db] with a force array but no atom to read (a structure
    without atoms and no [custom_range]), aimed at an existing expert that
    has no force label yet, raises [ValueError] from [np.hstack] of an empty
    list and leaves the model as it was. *)
Theorem update_db_without_atoms_raises (struc : Struc) (fs : list (list F))
    (energy : option F) (e : Z) (s : State) :
  wf s -> 0 <= e < n_experts (attrs s) ->
  num_atoms struc = 0%nat ->
  training_labels (store s) !! Z.to_nat e = Some [] ->
  update_db struc (Some fs) [] energy (Some e) s = (Raises ValueError, s).
Proof.
  intros Hwf He Hna Hl. unfold update_db.
  rewrite (bind_returns _ _ _ _ _ (select_expert_named s e)).
  destruct (Z.leb_spec (n_experts (attrs s)) e); [lia |].
  unfold store_observations, add_forces. rewrite Hna. cbn [Z.of_nat].
  change (range 0) with (@nil Z). cbn [for_].
  apply bind_raises.
  rewrite (bind_returns _ _ s tt s) by reflexivity.
  rewrite (bind_returns _ _ _ _ _
             (cell_get_at c_training_labels e s [] (proj1 He) Hl)).
  reflexivity.
Qed.

Lemma range_nonpos (n : Z) : n <= 0 -> range n = [].
Proof. intros H. unfold range. replace (Z.to_nat n) with 0%nat by lia. reflexivity. Qed.

(** X7. [predict] on a model without experts, for a valid component:
    nothing is computed from data, the model is left as it was, and when
    neither division is by zero the result is the prior alone, the
    variance [1 / (0 + (1 - 0) / prior_variance)] and the mean that
    variance times zero. *)
Theorem predict_without_experts (x_t : Env) (d : Z) (s : State) :
  In d [1; 2; 3] -> n_experts (attrs s) <= 0 ->
  f_is_zero (prior_variance (attrs s)) = false ->
  let var :=
    f_add f_zero (f_div (f_sub f_one f_zero) (prior_variance (attrs s))) in
  f_is_zero var = false ->
  predict x_t d s =
  (Returns (f_mul (f_div f_one var) f_zero, f_div f_one var), s).
Proof.
  intros Hd Hn Hp var Hv. unfold predict.
  replace (existsb (Z.eqb d) [1; 2; 3]) with true.
  2:{ symmetry. apply existsb_exists. exists d. split; [exact Hd |].
      apply Z.eqb_refl. }
  unfold sync_data, check_L_alpha, sync_data. mrun.
  repeat first
    [ rewrite (range_nonpos _ Hn)
    | progress simpl for_
    | progress simpl kernel_vectors
    | progress simpl check_L_alpha_loop
    | progress simpl predict_loop
    | progress mrun ].
  unfold scalar_div. cbn [negb andb]. rewrite Hp. mrun.
  fold var. rewrite Hv. reflexivity.
Qed.

(** ** What a completed mutation stores *)

Lemma norm_index_below (N : nat) (e : Z) (k : nat) :
  norm_index N e = Some k -> e < Z.of_nat N.
Proof.
  unfold norm_index.
  destruct (Z.leb_spec 0 e).
  - destruct (Z.ltb_spec e (Z.of_nat N)); [lia | discriminate].
  - lia.
Qed.

(** X8. A completed [update_db] aimed at an existing expert (by its id, or
    by a negative id counted from the last expert) appends and never
    replaces: the expert's environments are the old ones followed by one
    per atom read, in the order of [custom_range] or, when that is empty,
    of all atoms; its force labels are the old ones followed by the rows
    of [forces] at those atoms; with an energy, one structure and one
    energy label are added at the end; the count grows by the number of
    environments added.  No other expert changes, and neither do the
    attributes or the matrices. *)
Theorem update_db_appends (struc : Struc) (forces : option (list (list F)))
    (custom_range : list Z) (energy : option F) (e : Z) (k : nat)
    (s s' : State) d0 l0 ln0 n0 t0 e0 en0 al0 :
  wf s ->
  norm_index (Z.to_nat (n_experts (attrs s))) e = Some k ->
  expert_is s k d0 l0 ln0 n0 t0 e0 en0 al0 ->
  update_db struc forces custom_range energy (Some e) s = (Returns tt, s') ->
  exists fl,
    new_forces struc forces custom_range fl /\
    attrs s' = attrs s /\ factors s' = factors s /\
    others_untouched k s s' /\
    training_data (store s') !! k
      = Some (d0 ++ new_envs struc forces custom_range) /\
    training_labels (store s') !! k = Some (l0 ++ fl) /\
    n_envs_prev (store s') !! k
      = Some (n0 + Z.of_nat (length (new_envs struc forces custom_range))) /\
    training_structures (store s') !! k
      = Some (t0 ++ new_structures struc energy) /\
    energy_labels (store s') !! k = Some (e0 ++ new_energies energy).
Proof.
  intros Hwf Hk Hex Hrun.
  pose proof (wf_store_lists _ Hwf) as Hl.
  pose proof (norm_index_below _ _ _ Hk) as Hlt.
  pose proof (norm_index_lt _ _ _ Hk) as Hkn.
  assert (0 <= n_experts (attrs s)) as Hn0 by apply Hwf.
  unfold update_db in Hrun.
  rewrite (bind_returns _ _ _ _ _ (select_expert_named s e)) in Hrun.
  destruct (Z.leb_spec (n_experts (attrs s)) e); [lia |].
  destruct (store_observations_returns _ _ _ _ _ _ _ _ _
              _ _ _ _ _ _ _ _ Hk Hl Hex Hrun) as (fl & Hfl & Hs').
  cbv zeta in Hs'. rewrite Hs'. exists fl.
  split.
  { unfold new_forces, update_indices. destruct forces; exact Hfl. }
  split; [reflexivity |]. split; [reflexivity |].
  split; [apply set_expert_others |].
  match goal with
  | |- context [on_store (set_expert ?k ?a ?b ?c ?d ?f ?g ?h ?i) _] =>
      destruct (set_expert_is k _ s a b c d f g h i Hl Hkn)
        as (Hd & Hlb & _ & Hn & Ht & He & _)
  end.
  rewrite Hd, Hlb, Hn, Ht, He.
  unfold new_envs, new_structures, new_energies, update_indices.
  destruct forces, energy; rewrite ?app_nil_r; repeat split; reflexivity.
Qed.

Lemma select_expert_routed (s : State) (m : Z) :
  py_get (n_envs_prev (store s)) (current_expert (attrs s)) = Some m ->
  select_expert None s =
  let s0 := if ndata_per_expert (attrs s) <? m then advance s else s in
  (Returns (current_expert (attrs s0)),
   if n_experts (attrs s0) <=? current_expert (attrs s0)
   then grow s0 else s0).
Proof.
  intros Hm. pose proof (find_expert_to_add_run s m Hm) as Hfind.
  unfold select_expert. cbv zeta.
  destruct (ndata_per_expert (attrs s) <? m);
    rewrite (bind_returns _ _ _ _ _ Hfind); apply make_room_run.
Qed.

(** X9. Automatic routing of [add_one_env] on a model with a logger.  While
    the current expert's count is at most [ndata_per_expert] the environment
    and its force are appended to the current expert, so an expert is left
    only once it holds [ndata_per_expert + 1] environments; when the count
    is larger, the router moves to the next expert and, if that expert
    exists, the environment and force are appended there.  The expert's
    flat force array and label vector are rebuilt from its lists; nothing
    else changes. *)
Theorem add_one_env_fills_the_current_expert (env : Env) (force : list F)
    (kwargs : train_args) (s : State) (m : Z) d0 l0 ln0 n0 t0 e0 en0 al0 :
  wf s -> logger (attrs s) = true ->
  0 <= current_expert (attrs s) ->
  n_envs_prev (store s) !! Z.to_nat (current_expert (attrs s)) = Some m ->
  let over := ndata_per_expert (attrs s) <? m in
  let target :=
    if over then current_expert (attrs s) + 1 else current_expert (attrs s) in
  expert_is s (Z.to_nat target) d0 l0 ln0 n0 t0 e0 en0 al0 ->
  add_one_env env force false None kwargs s =
  (Returns tt,
   on_store
     (set_expert (Z.to_nat target) (d0 ++ [env]) (l0 ++ [force])
        (concat (l0 ++ [force])) (n0 + 1) t0 e0 en0
        (concat (l0 ++ [force]) ++ en0))
     (if over then advance s else s)).
Proof.
  intros Hwf Hlog Hc Hm. cbv zeta. intros Hex.
  pose proof (wf_store_lists _ Hwf) as Hl.
  assert (0 <= n_experts (attrs s)) as Hn0 by apply Hwf.
  pose proof (select_expert_routed s m (py_get_nonneg _ _ _ Hc Hm)) as Hsel.
  cbv zeta in Hsel. unfold add_one_env.
  rewrite (bind_returns _ _ _ _ _ Hsel). clear Hsel.
  assert (Hlt : forall t : Z,
            expert_is s (Z.to_nat t) d0 l0 ln0 n0 t0 e0 en0 al0 ->
            (Z.to_nat t < Z.to_nat (n_experts (attrs s)))%nat).
  { intros t (Hd & _). apply lookup_lt_Some in Hd.
    destruct Hl as (<- & _). exact Hd. }
  destruct (ndata_per_expert (attrs s) <? m).
  - pose proof (Hlt _ Hex) as Hlt'.
    change (current_expert (attrs (advance s)))
      with (current_expert (attrs s) + 1).
    change (n_experts (attrs (advance s))) with (n_experts (attrs s)).
    destruct (Z.leb_spec (n_experts (attrs s)) (current_expert (attrs s) + 1));
      [lia |].
    rewrite (bind_returns _ _ _ _ _
               (store_env_run env force (current_expert (attrs s) + 1)
                  (Z.to_nat (current_expert (attrs s) + 1))
                  (Z.to_nat (n_experts (attrs s))) (advance s)
                  _ _ _ _ _ _ _ _
                  ltac:(apply norm_index_nonneg; lia) Hl Hex Hlog)).
    reflexivity.
  - pose proof (Hlt _ Hex) as Hlt'.
    destruct (Z.leb_spec (n_experts (attrs s)) (current_expert (attrs s)));
      [lia |].
    rewrite (bind_returns _ _ _ _ _
               (store_env_run env force (current_expert (attrs s))
                  (Z.to_nat (current_expert (attrs s)))
                  (Z.to_nat (n_experts (attrs s))) s
                  _ _ _ _ _ _ _ _
                  ltac:(apply norm_index_nonneg; lia) Hl Hex Hlog)).
    reflexivity.
Qed.

(** ** When [check_L_alpha] has nothing to do *)

Lemma check_L_alpha_loop_sizes_agree (experts : list Z) (s : State) :
  (forall i, In i experts ->
     0 <= i /\
     exists d, training_data (store s) !! Z.to_nat i = Some d /\
       (d = [] \/
        exists a, alpha (factors s) !! Z.to_nat i = Some (Some a) /\
                  Z.of_nat (length a) = Z.of_nat (length d) * 3)) ->
  check_L_alpha_loop experts s = (Returns tt, s).
Proof.
  induction experts as [| i rest IH]; intros Hall; [reflexivity |].
  destruct (Hall i (or_introl eq_refl)) as (Hi & d & Hd & Hcase).
  destruct Hcase as [-> | (a & Ha & Hlen)].
  - apply check_L_alpha_loop_empty; assumption.
  - cbn [check_L_alpha_loop].
    rewrite (bind_returns _ _ _ _ _ (cell_get_at c_training_data i s _ Hi Hd)).
    destruct (Z.of_nat (length d) * 3 =? 0); [reflexivity |].
    rewrite (bind_returns _ _ _ _ _ (cell_get_at c_alpha i s _ Hi Ha)).
    rewrite (bind_returns _ _ _ (Z.of_nat (length a)) s) by reflexivity.
    rewrite <- Hlen.
    destruct (Z.gtb_spec (Z.of_nat (length a)) (Z.of_nat (length a))); [lia |].
    rewrite Z.eqb_refl. cbn [negb].
    rewrite (bind_returns _ _ _ tt s) by reflexivity.
    apply IH. intros j Hj. apply Hall. right. exact Hj.
Qed.

(** X10. [check_L_alpha] rebuilds nothing when every expert either has no
    environment or has an [alpha] with exactly three entries per
    environment: it returns, the object is unchanged and no collaborator is
    called. *)
Theorem check_L_alpha_no_op_when_sizes_agree (s : State) :
  wf s ->
  (forall i d, 0 <= i < n_experts (attrs s) ->
     training_data (store s) !! Z.to_nat i = Some d ->
     d = [] \/
     exists a, alpha (factors s) !! Z.to_nat i = Some (Some a) /\
               Z.of_nat (length a) = Z.of_nat (length d) * 3) ->
  exists s',
    check_L_alpha s = (Returns tt, s') /\
    attrs s' = attrs s /\ store s' = store s /\ factors s' = factors s /\
    calls s' = calls s.
Proof.
  intros Hwf Hall.
  destruct (sync_data_run s Hwf) as (s1 & Hsync & (Ha & Hst & Hf) & Hc & _).
  exists s1. unfold check_L_alpha.
  rewrite (bind_returns _ _ _ _ _ Hsync).
  rewrite (bind_returns get _ _ _ _ eq_refl).
  split; [| repeat split; assumption].
  apply check_L_alpha_loop_sizes_agree.
  intros i Hi. rewrite Ha in Hi. apply in_range in Hi.
  split; [lia |].
  pose proof (wf_store_lists _ Hwf) as (Hlen & _).
  destruct (lookup_lt_is_Some_2 (training_data (store s)) (Z.to_nat i))
    as [d Hd]; [lia |].
  exists d. rewrite Hst, Hf. split; [exact Hd |].
  apply (Hall i d Hi Hd).
Qed.

(** ** Factorizing one expert *)

Lemma compute_one_matrices_run (ky : Mat) (i : Z) (s : State) (k : nat)
    l l_inv k_inv labels a d :
  wf s ->
  norm_index (Z.to_nat (n_experts (attrs s))) i = Some k ->
  cholesky ky = Some l -> inv l = Some l_inv ->
  matmul_mm (transpose l_inv) l_inv = Some k_inv ->
  all_labels (store s) !! k = Some labels ->
  matmul_mv k_inv labels = Some a ->
  training_data (store s) !! k = Some d ->
  compute_one_matrices ky i s =
  (Returns tt, with_matrices k ky l a k_inv (Z.of_nat (length d)) s).
Proof.
  intros Hwf Hk Hch Hinv Hmm Hlab Hmv Hd.
  pose proof (norm_index_lt _ _ _ Hk) as Hlt.
  unfold wf in Hwf. cbv zeta in Hwf.
  destruct Hwf as (_ & L1 & _ & _ & L4 & _ & _ & _ & L8 & L9 & _ & _ & _ &
                   L13 & L14 & L15 & _).
  destruct (lookup_lt_is_Some_2 (n_envs_prev (store s)) k) as [x4 X4]; [lia |].
  destruct (lookup_lt_is_Some_2 (ky_mat (factors s)) k) as [x9 X9]; [lia |].
  destruct (lookup_lt_is_Some_2 (l_mat (factors s)) k) as [x13 X13]; [lia |].
  destruct (lookup_lt_is_Some_2 (alpha (factors s)) k) as [x14 X14]; [lia |].
  destruct (lookup_lt_is_Some_2 (ky_mat_inv (factors s)) k) as [x15 X15];
    [lia |].
  unfold compute_one_matrices, cell_set. mgo_at.
  unfold with_matrices, on_store, on_factors. msimpl. to_inserts.
  reflexivity.
Qed.

Lemma compute_one_matrices_cases (ky : Mat) (i : Z) (s : State) :
  wf s ->
  (forall e s', compute_one_matrices ky i s = (Raises e, s') -> s' = s) /\
  (forall s', compute_one_matrices ky i s = (Returns tt, s') ->
   exists k l l_inv k_inv labels a d,
     norm_index (Z.to_nat (n_experts (attrs s))) i = Some k /\
     cholesky ky = Some l /\ inv l = Some l_inv /\
     matmul_mm (transpose l_inv) l_inv = Some k_inv /\
     all_labels (store s) !! k = Some labels /\
     matmul_mv k_inv labels = Some a /\
     training_data (store s) !! k = Some d /\
     s' = with_matrices k ky l a k_inv (Z.of_nat (length d)) s).
Proof.
  intros Hwf.
  destruct (cholesky ky) as [l |] eqn:Hch.
  2:{ split; intros; revert H; unfold compute_one_matrices; mrun;
      rewrite Hch; [intros [= _ <-]; reflexivity | discriminate]. }
  destruct (inv l) as [l_inv |] eqn:Hinv.
  2:{ split; intros; revert H; unfold compute_one_matrices; mrun;
      rewrite Hch; cbv beta iota; rewrite Hinv;
      [intros [= _ <-]; reflexivity | discriminate]. }
  destruct (matmul_mm (transpose l_inv) l_inv) as [k_inv |] eqn:Hmm.
  2:{ split; intros; revert H; unfold compute_one_matrices; mrun;
      rewrite Hch; cbv beta iota; rewrite Hinv; cbv beta iota; rewrite Hmm;
      [intros [= _ <-]; reflexivity | discriminate]. }
  pose proof (wf_store_lists _ Hwf) as (L1 & _ & _ & _ & _ & _ & _ & L8).
  destruct (norm_index (Z.to_nat (n_experts (attrs s))) i) as [k |] eqn:Hk.
  2:{ split; intros; revert H; unfold compute_one_matrices; mrun;
      rewrite Hch; cbv beta iota; rewrite Hinv; cbv beta iota; rewrite Hmm;
      cbv beta iota; msimpl; rewrite py_get_unfold, L8, Hk;
      [intros [= _ <-]; reflexivity | discriminate]. }
  pose proof (norm_index_lt _ _ _ Hk) as Hlt.
  destruct (lookup_lt_is_Some_2 (all_labels (store s)) k) as [labels Hlab];
    [lia |].
  destruct (lookup_lt_is_Some_2 (training_data (store s)) k) as [d Hd];
    [lia |].
  destruct (matmul_mv k_inv labels) as [a |] eqn:Hmv.
  2:{ split; intros; revert H; unfold compute_one_matrices; mrun;
      rewrite Hch; cbv beta iota; rewrite Hinv; cbv beta iota; rewrite Hmm;
      cbv beta iota; msimpl; rewrite py_get_unfold, L8, Hk, Hlab;
      cbv beta iota; rewrite Hmv;
      [intros [= _ <-]; reflexivity | discriminate]. }
  rewrite (compute_one_matrices_run ky i s k l l_inv k_inv labels a d);
    try assumption.
  split; [discriminate |]. intros s' [= <-].
  exists k, l, l_inv, k_inv, labels, a, d. repeat split; assumption.
Qed.

(** X11. [compute_one_matrices] is all or nothing on a model with one
    entry per expert in every list.  If it raises (the Cholesky
    factorization, the inversion or a product failed, or the id names no
    expert) the model is exactly as before.  If it returns, exactly the
    addressed expert's covariance matrix, Cholesky factor, inverse and
    [alpha = K^-1 all_labels] have been replaced and its count set to its
    number of environments; every other expert and every other field is as
    before. *)
Theorem compute_one_matrices_all_or_nothing (ky : Mat) (i : Z) (s : State) :
  wf s ->
  (forall e s', compute_one_matrices ky i s = (Raises e, s') -> s' = s) /\
  (forall s', compute_one_matrices ky i s = (Returns tt, s') ->
   exists k l l_inv k_inv labels a d,
     norm_index (Z.to_nat (n_experts (attrs s))) i = Some k /\
     cholesky ky = Some l /\ inv l = Some l_inv /\
     matmul_mm (transpose l_inv) l_inv = Some k_inv /\
     all_labels (store s) !! k = Some labels /\
     matmul_mv k_inv labels = Some a /\
     training_data (store s) !! k = Some d /\
     s' = with_matrices k ky l a k_inv (Z.of_nat (length d)) s).
Proof. exact (compute_one_matrices_cases ky i s). Qed.

(** ** Refreshing one expert leaves the others alone *)

Lemma untouched_refl j s : untouched j s s.
Proof. unfold untouched. repeat split. Qed.

Lemma untouched_trans j s1 s2 s3 :
  untouched j s1 s2 -> untouched j s2 s3 -> untouched j s1 s3.
Proof.
  unfold untouched. intros H1 H2.
  repeat match goal with
         | H : _ /\ _ |- _ => let E := fresh "E" in destruct H as [E H]
         end.
  repeat match goal with |- _ /\ _ => split end;
    (etransitivity; [eassumption | assumption]).
Qed.

Lemma only_expert_refl k s : only_expert k s s.
Proof. intros j _. apply untouched_refl. Qed.

Lemma only_expert_trans k s1 s2 s3 :
  only_expert k s1 s2 -> only_expert k s2 s3 -> only_expert k s1 s3.
Proof.
  intros H1 H2 j Hj. eapply untouched_trans; [apply H1 | apply H2]; exact Hj.
Qed.

Lemma norm_index_nonneg_inv (len : nat) (i : Z) (k : nat) :
  0 <= i -> norm_index len i = Some k -> k = Z.to_nat i.
Proof.
  intros Hi. unfold norm_index.
  destruct (Z.leb_spec 0 i); [| lia].
  destruct (i <? Z.of_nat len); [| discriminate]. intros [= <-]. reflexivity.
Qed.

Ltac only_leaf :=
  intros; intros ? ?; unfold untouched; cbn;
  rewrite ?list_lookup_alter_ne by congruence; repeat split.

Ltac cell_alter_only :=
  intros Hi s; split; [| intros; exact I];
  unfold cell_alter; mrun; msimpl;
  match goal with
  | |- context [norm_index ?n ?i] =>
      destruct (norm_index n i) as [k |] eqn:Hk;
      [ apply (norm_index_nonneg_inv _ _ _ Hi) in Hk; subst k; cbn [snd];
        only_leaf
      | apply only_expert_refl ]
  end.

Lemma cell_alter_only_ky_mat i f :
  0 <= i -> sat (only_expert (Z.to_nat i)) any_exn (cell_alter c_ky_mat i f).
Proof. cell_alter_only. Qed.

Lemma cell_alter_only_l_mat i f :
  0 <= i -> sat (only_expert (Z.to_nat i)) any_exn (cell_alter c_l_mat i f).
Proof. cell_alter_only. Qed.

Lemma cell_alter_only_alpha i f :
  0 <= i -> sat (only_expert (Z.to_nat i)) any_exn (cell_alter c_alpha i f).
Proof. cell_alter_only. Qed.

Lemma cell_alter_only_ky_mat_inv i f :
  0 <= i ->
  sat (only_expert (Z.to_nat i)) any_exn (cell_alter c_ky_mat_inv i f).
Proof. cell_alter_only. Qed.

Lemma cell_alter_only_likelihood i f :
  0 <= i ->
  sat (only_expert (Z.to_nat i)) any_exn (cell_alter c_likelihood i f).
Proof. cell_alter_only. Qed.

Lemma cell_alter_only_n_envs_prev i f :
  0 <= i ->
  sat (only_expert (Z.to_nat i)) any_exn (cell_alter c_n_envs_prev i f).
Proof. cell_alter_only. Qed.

Create HintDb only.
#[local] Hint Resolve cell_alter_only_ky_mat cell_alter_only_l_mat
  cell_alter_only_alpha cell_alter_only_ky_mat_inv cell_alter_only_likelihood
  cell_alter_only_n_envs_prev : only.

Ltac only_auto k :=
  repeat (intros;
    lazymatch goal with
    | |- sat _ _ (bind _ _) => apply (sat_bind _ _ (only_expert_trans k))
    | |- sat _ _ (ret _) => apply (sat_ret _ _ (only_expert_refl k))
    | |- sat _ _ get => apply (sat_get _ _ (only_expert_refl k))
    | |- sat _ _ (raise _) => apply (sat_raise _ _ (only_expert_refl k)); exact I
    | |- sat _ _ (lift _ _) => apply (sat_lift _ _ (only_expert_refl k)); exact I
    | |- sat _ _ (cell_alter _ _ _) => solve [auto 2 with only nocore]
    | |- sat _ _ (modify _) => apply sat_modify; only_leaf
    | |- sat _ _ (if ?b then _ else _) => destruct b
    | |- sat _ _ (match ?x with _ => _ end) => destruct x
    | |- sat _ _ ?c =>
        first [ assumption
              | let h := head_of c in unfold h ]
    end).

Lemma compute_one_matrices_only ky i :
  0 <= i ->
  sat (only_expert (Z.to_nat i)) any_exn (compute_one_matrices ky i).
Proof. intros Hi. only_auto (Z.to_nat i). Qed.

Lemma store_likelihood_only i :
  0 <= i -> sat (only_expert (Z.to_nat i)) any_exn (store_likelihood i).
Proof. intros Hi. only_auto (Z.to_nat i). Qed.

Lemma set_L_alpha_part_only i :
  0 <= i -> sat (only_expert (Z.to_nat i)) any_exn (set_L_alpha_part i).
Proof.
  intros Hi. pose proof (compute_one_matrices_only) as H1.
  pose proof (store_likelihood_only i Hi) as H2.
  unfold set_L_alpha_part.
  apply (sat_bind _ _ (only_expert_trans _)); [only_auto (Z.to_nat i) |].
  intros _. apply (sat_bind _ _ (only_expert_trans _));
    [only_auto (Z.to_nat i) |].
  intros ky. apply (sat_bind _ _ (only_expert_trans _));
    [apply H1; exact Hi | intros _; exact H2].
Qed.

Lemma update_L_alpha_only i :
  0 <= i -> sat (only_expert (Z.to_nat i)) any_exn (update_L_alpha i).
Proof.
  intros Hi. pose proof (set_L_alpha_part_only i Hi) as H1.
  pose proof (compute_one_matrices_only) as H2.
  unfold update_L_alpha.
  apply (sat_bind _ _ (only_expert_trans _)); [only_auto (Z.to_nat i) |].
  intros [L |]; [| exact H1].
  apply (sat_bind _ _ (only_expert_trans _)); [only_auto (Z.to_nat i) |].
  intros _. apply (sat_bind _ _ (only_expert_trans _));
    [only_auto (Z.to_nat i) |].
  intros _. apply (sat_bind _ _ (only_expert_trans _));
    [only_auto (Z.to_nat i) |].
  intros s0. apply (sat_bind _ _ (only_expert_trans _));
    [only_auto (Z.to_nat i) |].
  intros K. apply (sat_bind _ _ (only_expert_trans _));
    [only_auto (Z.to_nat i) |].
  intros n. apply (sat_bind _ _ (only_expert_trans _));
    [only_auto (Z.to_nat i) |].
  intros _. apply (sat_bind _ _ (only_expert_trans _));
    [only_auto (Z.to_nat i) |].
  intros [[[d lb] t] en]. destruct K; [apply H2; exact Hi |].
  only_auto (Z.to_nat i).
Qed.

(** X12. The three methods that refresh one expert, [set_L_alpha_part],
    [update_L_alpha] and [compute_one_matrices], called with an id
    [i >= 0], never touch anything of another expert: whether they return
    or raise, every other expert's matrices, likelihood and count, all
    training data and label vectors and all attributes are as before. *)
Theorem refreshing_one_expert_leaves_the_others (i : Z) (ky : Mat)
    (s : State) :
  0 <= i ->
  only_expert (Z.to_nat i) s (snd (set_L_alpha_part i s)) /\
  only_expert (Z.to_nat i) s (snd (update_L_alpha i s)) /\
  only_expert (Z.to_nat i) s (snd (compute_one_matrices ky i s)).
Proof.
  intros Hi. split; [| split].
  - apply (set_L_alpha_part_only i Hi s).
  - apply (update_L_alpha_only i Hi s).
  - apply (compute_one_matrices_only ky i Hi s).
Qed.

(** ** What [set_L_alpha] establishes *)

Lemma build_Ky_mat_run (i : Z) (s : State) d t lb en :
  registry s !! i = Some (Z.to_nat i, lb, en) ->
  training_data (store s) !! Z.to_nat i = Some d ->
  training_structures (store s) !! Z.to_nat i = Some t ->
  build_Ky_mat i s =
  (Returns (get_Ky_mat (hyps (attrs s)) d t),
   snd (log_call (Call_get_Ky_mat i) s)).
Proof.
  intros Hreg Hd Ht. unfold build_Ky_mat. mstep.
  rewrite Hreg. mstep. rewrite Hd. mstep. rewrite Ht. reflexivity.
Qed.

Lemma store_likelihood_run (i : Z) (s : State) K L a d t lb en x :
  0 <= i ->
  ky_mat (factors s) !! Z.to_nat i = Some (Some K) ->
  l_mat (factors s) !! Z.to_nat i = Some (Some L) ->
  alpha (factors s) !! Z.to_nat i = Some (Some a) ->
  registry s !! i = Some (Z.to_nat i, lb, en) ->
  training_data (store s) !! Z.to_nat i = Some d ->
  training_structures (store s) !! Z.to_nat i = Some t ->
  likelihood (factors s) !! Z.to_nat i = Some x ->
  store_likelihood i s =
  (Returns tt,
   with_likelihood (Z.to_nat i) (get_like_from_mats K L a lb en) s).
Proof.
  intros Hi Hk Hl Ha Hreg Hd Ht Hx. unfold store_likelihood.
  rewrite (bind_returns _ _ _ _ _ (cell_get_at c_ky_mat i s _ Hi Hk)).
  rewrite (bind_returns _ _ _ _ _ (cell_get_at c_l_mat i s _ Hi Hl)).
  rewrite (bind_returns _ _ _ _ _ (cell_get_at c_alpha i s _ Hi Ha)).
  unfold cell_set, cell_alter. mstep.
  rewrite Hreg. mstep. rewrite Hd. mstep. rewrite Ht. mstep.
  rewrite norm_index_nonneg by (first [exact Hi | eapply lookup_lt_Some; exact Hx]).
  mstep. unfold with_likelihood, on_factors. msimpl.
  rewrite (alter_as_insert _ _ _ _ Hx). reflexivity.
Qed.

Lemma factorize_expert_only (i : Z) :
  0 <= i ->
  sat (only_expert (Z.to_nat i)) any_exn
    (logger_write >>
     let! ky := build_Ky_mat i in
     compute_one_matrices ky i >> store_likelihood i).
Proof.
  intros Hi. pose proof (compute_one_matrices_only) as H1.
  pose proof (store_likelihood_only i Hi) as H2.
  apply (sat_bind _ _ (only_expert_trans _)); [only_auto (Z.to_nat i) |].
  intros _. apply (sat_bind _ _ (only_expert_trans _));
    [only_auto (Z.to_nat i) |].
  intros ky. apply (sat_bind _ _ (only_expert_trans _));
    [apply H1; exact Hi | intros _; exact H2].
Qed.

Lemma same_data_of_only (k : nat) (s s' : State) :
  only_expert k s s' -> same_data s s'.
Proof.
  intros H. destruct (H (S k)) as (H1 & H2 & H3 & H4 & H5 & H6 & H7 & H8 & _);
    [lia |].
  unfold same_data. repeat split; assumption.
Qed.

Lemma expert_factorized_untouched (j : nat) (s s' : State) :
  untouched j s s' -> expert_factorized s j -> expert_factorized s' j.
Proof.
  unfold untouched, expert_factorized.
  intros (E1 & E2 & _ & E4 & E5 & _ & E7 & E8 & E9 & E10 & _ & _ & _ & E14 &
          E15 & E16 & E17).
  rewrite E1, E2, E4, E5, E7, E8, E9, E10, E14, E15, E16, E17.
  exact id.
Qed.

Lemma factorize_expert_returns (i : Z) (s s' : State) :
  wf s -> 0 <= i < n_experts (attrs s) -> published s i ->
  (logger_write >>
   let! ky := build_Ky_mat i in
   compute_one_matrices ky i >> store_likelihood i) s = (Returns tt, s') ->
  expert_factorized s' (Z.to_nat i) /\ registry s' = registry s /\ wf s'.
Proof.
  intros Hwf Hi (lb & en & Hreg & Hlb & Hen) Hrun.
  destruct Hi as [Hi0 Hi1].
  pose proof Hwf as Hwf'. unfold wf in Hwf'. cbv zeta in Hwf'.
  destruct Hwf' as (Hn & L1 & _ & _ & L4 & L5 & _ & _ & L8 & L9 & _ & _ & _ &
                    L13 & L14 & L15 & L16).
  destruct (lookup_lt_is_Some_2 (training_data (store s)) (Z.to_nat i))
    as [d Hd]; [lia |].
  destruct (lookup_lt_is_Some_2 (training_structures (store s)) (Z.to_nat i))
    as [t Ht]; [lia |].
  destruct (lookup_lt_is_Some_2 (likelihood (factors s)) (Z.to_nat i))
    as [x Hx]; [lia |].
  apply bind_returns_inv in Hrun as ([] & s0 & Hlog & Hrun).
  assert (s0 = s) as ->.
  { revert Hlog. unfold logger_write. mrun.
    destruct (logger (attrs s)); intros [= H]; congruence. }
  rewrite (bind_returns _ _ _ _ _ (build_Ky_mat_run i s d t lb en Hreg Hd Ht))
    in Hrun.
  set (K := get_Ky_mat (hyps (attrs s)) d t) in *.
  set (s1 := snd (log_call (Call_get_Ky_mat i) s)) in *.
  assert (Hwf1 : wf s1) by exact Hwf.
  apply bind_returns_inv in Hrun as ([] & s2 & Hcomp & Hlike).
  destruct (proj2 (compute_one_matrices_cases K i s1 Hwf1) s2 Hcomp)
    as (k & L & L_inv & K_inv & labels & a & d' & Hk & Hch & Hinv & Hmm &
        Hlab & Hmv & Hd' & Hs2).
  apply (norm_index_nonneg_inv _ _ _ Hi0) in Hk. subst k.
  change (training_data (store s1)) with (training_data (store s)) in Hd'.
  change (all_labels (store s1)) with (all_labels (store s)) in Hlab.
  rewrite Hd in Hd'. injection Hd' as <-.
  subst s2.
  rewrite (store_likelihood_run i _ K L a d t lb en x Hi0) in Hlike.
  - injection Hlike as <-.
    unfold with_likelihood, with_matrices, on_factors. subst s1. mrun. msimpl.
    split; [| split; [reflexivity |]].
    + exists d, t, labels, lb, en, K, L, L_inv, K_inv, a.
      msimpl. rewrite !list_lookup_insert_eq by lia.
      repeat split; assumption.
    + unfold wf. msimpl. rewrite !length_insert. exact Hwf.
  - unfold with_matrices. msimpl. apply list_lookup_insert_eq.
    change (factors s1) with (factors s). lia.
  - unfold with_matrices. msimpl. apply list_lookup_insert_eq.
    change (factors s1) with (factors s). lia.
  - unfold with_matrices. msimpl. apply list_lookup_insert_eq.
    change (factors s1) with (factors s). lia.
  - exact Hreg.
  - exact Hd.
  - exact Ht.
  - exact Hx.
Qed.

Lemma published_same (i : Z) (s s' : State) :
  same_data s s' -> registry s' = registry s ->
  published s i -> published s' i.
Proof.
  intros (_ & _ & _ & E4 & _ & _ & E7 & _) Er. unfold published.
  rewrite Er, E4, E7. exact id.
Qed.

Lemma set_L_alpha_loop_returns (l : list Z) : forall s s' : State,
  wf s -> NoDup l ->
  (forall i, In i l -> 0 <= i < n_experts (attrs s) /\ published s i) ->
  for_ l (fun expert_id =>
    logger_write >>
    let! ky := build_Ky_mat expert_id in
    compute_one_matrices ky expert_id >>
    store_likelihood expert_id) s = (Returns tt, s') ->
  wf s' /\ registry s' = registry s /\ same_data s s' /\
  (forall j : nat, (forall i, In i l -> Z.to_nat i <> j) -> untouched j s s') /\
  (forall i, In i l -> expert_factorized s' (Z.to_nat i)).
Proof.
  induction l as [| i rest IH]; intros s s' Hwf Hnd Hall Hrun.
  - injection Hrun as <-. split; [exact Hwf |]. split; [reflexivity |].
    split; [unfold same_data; repeat split |].
    split; [intros; apply untouched_refl | intros i []].
  - cbn [for_] in Hrun.
    apply bind_returns_inv in Hrun as ([] & s1 & Hbody & Hrest).
    destruct (Hall i (or_introl eq_refl)) as [Hi Hpub].
    destruct (factorize_expert_returns i s s1 Hwf Hi Hpub Hbody)
      as (Hfac & Hreg1 & Hwf1).
    pose proof (factorize_expert_only i (proj1 Hi) s) as [Honly _].
    rewrite Hbody in Honly. cbn [snd] in Honly.
    pose proof (same_data_of_only _ _ _ Honly) as Hsd1.
    inversion Hnd as [| ? ? Hnotin Hnd']; subst.
    destruct (IH s1 s' Hwf1 Hnd') as (Hwf' & Hreg' & Hsd' & Hunt' & Hfac').
    { intros j Hj. destruct (Hall j (or_intror Hj)) as [Hj1 Hj2].
      destruct Hsd1 as (-> & _).
      split; [exact Hj1 |].
      apply (published_same j s s1); [| exact Hreg1 | exact Hj2].
      apply (same_data_of_only _ _ _ Honly). }
    { exact Hrest. }
    split; [exact Hwf' |]. split; [congruence |].
    split.
    { destruct Hsd1 as (A1 & A2 & A3 & A4 & A5 & A6 & A7 & A8).
      destruct Hsd' as (B1 & B2 & B3 & B4 & B5 & B6 & B7 & B8).
      unfold same_data. rewrite B1, B2, B3, B4, B5, B6, B7, B8.
      repeat split; assumption. }
    split.
    + intros j Hj. eapply untouched_trans.
      * apply Honly. intros ->. apply (Hj i); [left |]; reflexivity.
      * apply Hunt'. intros i' Hi'. apply Hj. right. exact Hi'.
    + intros i' [<- | Hi'].
      * apply (expert_factorized_untouched _ s1); [| exact Hfac].
        apply Hunt'. intros i' Hi' Heq.
        destruct (Hall i' (or_intror Hi')) as [Hi'1 _].
        assert (i' = i) by lia. subst i'. apply Hnotin.
        apply list_elem_of_In. exact Hi'.
      * apply Hfac'. exact Hi'.
Qed.

Lemma NoDup_range (n : Z) : NoDup (range n).
Proof.
  unfold range. rewrite map_is_fmap.
  apply NoDup_fmap_2_strong; [| apply NoDup_seq].
  intros x y _ _ H. lia.
Qed.

Lemma set_L_alpha_returns (s s' : State) :
  wf s ->
  set_L_alpha s = (Returns tt, s') ->
  (forall i, 0 <= i < n_experts (attrs s) ->
     expert_factorized s' (Z.to_nat i)) /\
  (exists v,
     mapM id (likelihood (factors s')) = Some v /\
     attrs s' = set_total_likelihood (Some (np_sum v)) (attrs s)) /\
  training_data (store s') = training_data (store s) /\
  training_labels (store s') = training_labels (store s) /\
  training_structures (store s') = training_structures (store s) /\
  energy_labels (store s') = energy_labels (store s) /\
  all_labels (store s') = all_labels (store s).
Proof.
  intros Hwf Hrun.
  destruct (sync_loop_publishes (range (n_experts (attrs s))) s Hwf)
    as (s1 & Hsync & (Ha & Hst & Hf) & Hc & Hpub).
  { intros i Hi. apply in_range. exact Hi. }
  assert (Hsync' : sync_data s = (Returns tt, s1)).
  { unfold sync_data. rewrite (bind_returns get _ _ _ _ eq_refl). exact Hsync. }
  unfold set_L_alpha in Hrun.
  rewrite (bind_returns _ _ _ _ _ Hsync') in Hrun.
  rewrite (bind_returns get _ _ _ _ eq_refl) in Hrun.
  apply bind_returns_inv in Hrun as ([] & s2 & Hloop & Hrun).
  assert (Hwf1 : wf s1) by (eapply same_object_wf; [| exact Hwf]; repeat split; assumption).
  destruct (set_L_alpha_loop_returns (range (n_experts (attrs s1))) s1 s2
              Hwf1 (NoDup_range _))
    as (Hwf2 & Hreg2 & Hsd2 & _ & Hfac2).
  { intros i Hi. split; [apply in_range; exact Hi |].
    apply Hpub. right. rewrite <- Ha. exact Hi. }
  { exact Hloop. }
  rewrite (bind_returns get _ _ _ _ eq_refl) in Hrun.
  unfold sum_likelihood in Hrun.
  destruct (mapM id (likelihood (factors s2))) as [v |] eqn:Hv;
    [| discriminate Hrun].
  revert Hrun. mrun. intros [= <-].
  destruct Hsd2 as (B1 & B2 & B3 & B4 & B5 & B6 & B7 & B8).
  msimpl. split; [| split].
  - intros i Hi.
    assert (Hin : In i (range (n_experts (attrs s1))))
      by (rewrite Ha; apply in_range; exact Hi).
    destruct (Hfac2 i Hin)
      as (d & t & lab & lb & en & K & L & L_inv & K_inv & a & H).
    exists d, t, lab, lb, en, K, L, L_inv, K_inv, a. exact H.
  - exists v. split; [exact Hv |]. rewrite B1, Ha. reflexivity.
  - rewrite B2, B3, B5, B6, B8, Hst. repeat split.
Qed.

(** X13. On a model with one entry per expert in every list, a
    [set_L_alpha] that returns has factorized every expert from its
    present data and the present hyperparameters: covariance matrix,
    Cholesky factor, inverse, [alpha = K^-1 all_labels] and likelihood are
    those of the expert's environments, structures and labels, and its
    count is its number of environments.  The total likelihood is the sum
    of the experts' likelihoods; the training data and every other
    attribute are unchanged. *)
Theorem set_L_alpha_factorizes_every_expert (s s' : State) :
  wf s ->
  set_L_alpha s = (Returns tt, s') ->
  (forall i, 0 <= i < n_experts (attrs s) ->
     expert_factorized s' (Z.to_nat i)) /\
  (exists v,
     mapM id (likelihood (factors s')) = Some v /\
     attrs s' = set_total_likelihood (Some (np_sum v)) (attrs s)) /\
  training_data (store s') = training_data (store s) /\
  training_labels (store s') = training_labels (store s) /\
  training_structures (store s') = training_structures (store s) /\
  energy_labels (store s') = energy_labels (store s) /\
  all_labels (store s') = all_labels (store s).
Proof. exact (set_L_alpha_returns s s').  Qed.

(** ** What a completed [train] leaves behind *)

Lemma searching_refl s : searching s s.
Proof. repeat split. Qed.

Lemma searching_trans s1 s2 s3 :
  searching s1 s2 -> searching s2 s3 -> searching s1 s3.
Proof. unfold searching. intuition congruence. Qed.

Ltac searching_auto :=
  sat_auto searching_refl searching_trans
    ltac:(intros; unfold searching; cbn; repeat split) ltac:(exact I).

Lemma registry_views_searching experts :
  sat searching any_exn (registry_views experts).
Proof.
  induction experts as [| i rest IH]; cbn [registry_views]; searching_auto.
Qed.

Lemma call_minimize_searching m x b o :
  sat searching any_exn (call_minimize m x b o).
Proof. pose proof registry_views_searching. searching_auto. Qed.

Lemma searching_wf (s s' : State) : searching s s' -> wf s -> wf s'.
Proof. intros (H1 & H2 & H3). unfold wf. rewrite H1, H2, H3. exact id. Qed.

Lemma train_returns (a : train_args) (s s' : State) r :
  wf s ->
  train a s = (Returns r, s') ->
  hyps (attrs s') = res_x r /\
  total_likelihood (attrs s') = Some (f_neg (res_fun r)) /\
  total_likelihood_gradient (attrs s') = Some (map f_neg (res_jac r)) /\
  (forall i, 0 <= i < n_experts (attrs s) ->
     expert_factorized s' (Z.to_nat i)) /\
  n_experts (attrs s') = n_experts (attrs s) /\
  training_data (store s') = training_data (store s) /\
  training_labels (store s') = training_labels (store s) /\
  training_structures (store s') = training_structures (store s) /\
  energy_labels (store s') = energy_labels (store s) /\
  all_labels (store s') = all_labels (store s).
Proof.
  intros Hwf Hrun. unfold train in Hrun.
  apply bind_returns_inv in Hrun as ([] & s0 & H0 & Hrun).
  assert (s0 = s) as ->
    by (destruct (arg_logger a); [discriminate H0 | injection H0 as <-; reflexivity]).
  rewrite (bind_returns get _ _ _ _ eq_refl) in Hrun.
  apply bind_returns_inv in Hrun as ([] & s0 & H1 & Hrun).
  assert (s0 = s) as ->.
  { destruct ((length (training_data (store s)) =? 0)%nat
              || (length (training_labels (store s)) =? 0)%nat)%bool;
      [discriminate H1 | injection H1 as <-; reflexivity]. }
  destruct (sync_data_run s Hwf) as (s1 & Hsync & (Ha1 & Hst1 & Hf1) & _).
  rewrite (bind_returns _ _ _ _ _ Hsync) in Hrun. cbv zeta in Hrun.
  apply bind_returns_inv in Hrun as (res1 & s2 & H2 & Hrun).
  assert (Hs2 : searching s1 s2).
  { match type of H2 with ?c s1 = _ =>
      assert (Hsat : sat searching any_exn c)
    end.
    { pose proof call_minimize_searching. searching_auto. }
    destruct (Hsat s1) as [H _]. rewrite H2 in H. exact H. }
  apply bind_returns_inv in Hrun as (res2 & s3 & H3 & Hrun).
  assert (Hs3 : searching s2 s3).
  { match type of H3 with ?c s2 = _ =>
      assert (Hsat : sat searching any_exn c)
    end.
    { pose proof call_minimize_searching. searching_auto. }
    destruct (Hsat s2) as [H _]. rewrite H3 in H. exact H. }
  destruct res2 as [r0 |]; [| discriminate Hrun].
  assert (Hs : searching s s3).
  { eapply searching_trans; [| exact Hs3].
    eapply searching_trans; [| exact Hs2].
    repeat split; [exact Hst1 | exact Hf1 | rewrite Ha1; reflexivity]. }
  set (s4 := on_attrs (set_hyps (res_x r0)) s3) in *.
  rewrite (bind_returns _ _ s3 tt s4) in Hrun by reflexivity.
  apply bind_returns_inv in Hrun as ([] & s5 & H5 & Hrun).
  assert (Hwf4 : wf s4) by exact (searching_wf _ _ Hs Hwf).
  destruct (set_L_alpha_returns s4 s5 Hwf4 H5)
    as (Hfac & (v & _ & Hattrs) & D1 & D2 & D3 & D4 & D5).
  revert Hrun. mrun. intros [= <- <-].
  destruct Hs as (Hst & Hf & Hn).
  assert (Hh : hyps (attrs s5) = res_x r0) by (rewrite Hattrs; reflexivity).
  assert (Hn5 : n_experts (attrs s5) = n_experts (attrs s))
    by (rewrite Hattrs; exact Hn).
  split; [exact Hh |]. split; [reflexivity |]. split; [reflexivity |].
  split.
  { intros i Hi. rewrite <- Hn in Hi. exact (Hfac i Hi). }
  split; [exact Hn5 |].
  change (training_data (store s5) = training_data (store s) /\
          training_labels (store s5) = training_labels (store s) /\
          training_structures (store s5) = training_structures (store s) /\
          energy_labels (store s5) = energy_labels (store s) /\
          all_labels (store s5) = all_labels (store s)).
  rewrite D1, D2, D3, D4, D5. subst s4. msimpl. rewrite Hst. repeat split.
Qed.

(** X14. On a model with one entry per expert in every list, a [train]
    that returns the optimizer's result [res] has set the hyperparameters
    to [res.x] and factorized every expert with them, has set
    [total_likelihood] to [-res.fun] and its gradient to [-res.jac], and
    has left the number of experts and the training data as they were. *)
Theorem train_installs_the_optimum (a : train_args) (s s' : State) r :
  wf s ->
  train a s = (Returns r, s') ->
  hyps (attrs s') = res_x r /\
  total_likelihood (attrs s') = Some (f_neg (res_fun r)) /\
  total_likelihood_gradient (attrs s') = Some (map f_neg (res_jac r)) /\
  (forall i, 0 <= i < n_experts (attrs s) ->
     expert_factorized s' (Z.to_nat i)) /\
  n_experts (attrs s') = n_experts (attrs s) /\
  training_data (store s') = training_data (store s) /\
  training_labels (store s') = training_labels (store s) /\
  training_structures (store s') = training_structures (store s) /\
  energy_labels (store s') = energy_labels (store s) /\
  all_labels (store s') = all_labels (store s).
Proof. exact (train_returns a s s' r). Qed.

(** ** The counts never drift from the lists *)

Lemma stays_consistent_refl s : stays_consistent s s.
Proof. intros H. exact H. Qed.

Lemma stays_consistent_trans s1 s2 s3 :
  stays_consistent s1 s2 -> stays_consistent s2 s3 -> stays_consistent s1 s3.
Proof. unfold stays_consistent. auto. Qed.

Ltac consistent_leaf :=
  let N := fresh "N" in let HN := fresh "HN" in let HC := fresh "HC" in
  intros; intros [[N HN] HC]; split;
  [ exists N; unfold store_lists_have in *; cbn; rewrite ?length_alter;
    exact HN
  | exact HC ].

Ltac consistent_auto :=
  sat_auto stays_consistent_refl stays_consistent_trans
    ltac:(consistent_leaf) ltac:(exact I).

Lemma push_forces_consistent (N k : nat) (s : State) envs (fl : list (list F)) :
  store_lists_have N s -> counted s -> length envs = length fl ->
  consistent (on_store (push_forces k envs fl) s).
Proof.
  intros HN (C1 & C2 & C3) Hlen. split.
  - exists N. unfold store_lists_have, push_forces in *. cbn.
    rewrite !length_alter. exact HN.
  - unfold counted, push_forces. cbn. rewrite !map_is_fmap in *.
    split; [| split; [| exact C3]].
    + rewrite C1. symmetry. apply list_fmap_alter.
      apply Forall_forall. intros x _. rewrite length_app. lia.
    + rewrite (list_fmap_alter length _ (fun n => n + length fl)%nat).
      2:{ apply Forall_forall. intros x _. apply length_app. }
      rewrite (list_fmap_alter length _ (fun n => n + length fl)%nat).
      2:{ apply Forall_forall. intros x _. rewrite length_app, Hlen.
          reflexivity. }
      rewrite C2. reflexivity.
Qed.

Lemma force_step_consistent (struc : Struc) (fs : list (list F)) (e atom : Z) :
  sat stays_consistent any_exn
    (let! forces_curr := lift IndexError (py_get fs atom) in
     cell_alter c_training_data e
       (fun d => d ++ [AtomicEnvironment struc atom]) >>
     cell_alter c_training_labels e (fun l => l ++ [forces_curr]) >>
     cell_alter c_n_envs_prev e (fun n => n + 1)).
Proof.
  intros s. split; [| intros; exact I].
  intros [[N HN] HC]. pose proof HN as (H1 & H2 & _ & H4 & _).
  destruct (py_get fs atom) as [f |] eqn:Hf;
    [| mgo_at; split; [exists N; exact HN | exact HC]].
  destruct (norm_index N e) as [k |] eqn:Hk.
  - mgo_at.
    apply (push_forces_consistent N k s [AtomicEnvironment struc atom] [f]);
      [exact HN | exact HC | reflexivity].
  - mgo_at. split; [exists N; exact HN | exact HC].
Qed.

Lemma add_forces_consistent struc fs atoms e :
  sat stays_consistent any_exn (add_forces struc fs atoms e).
Proof.
  unfold add_forces. apply (sat_bind _ _ stays_consistent_trans).
  - apply (sat_for _ _ stays_consistent_refl stays_consistent_trans).
    intros atom. cbv zeta. apply force_step_consistent.
  - intros _. consistent_auto.
Qed.

Lemma add_energy_consistent struc en e :
  sat stays_consistent any_exn (add_energy struc en e).
Proof.
  intros s. split; [| intros; exact I].
  intros [[N HN] (C1 & C2 & C3)].
  pose proof HN as (_ & _ & _ & _ & H5 & H6 & H7 & _).
  unfold add_energy. cbv zeta.
  destruct (norm_index N e) as [k |] eqn:Hk.
  - pose proof (norm_index_lt _ _ _ Hk) as Hlt.
    destruct (lookup_lt_is_Some_2 (energy_labels (store s)) k) as [x Hx];
      [lia |].
    mgo_at. split.
    + exists N. unfold store_lists_have in *. cbn. rewrite !length_alter.
      exact HN.
    + unfold counted. cbn. rewrite !map_is_fmap in *.
      split; [exact C1 |]. split; [exact C2 |].
      rewrite (list_fmap_alter length _ (fun n => n + 1)%nat).
      2:{ apply Forall_forall. intros y _. apply length_app. }
      rewrite (list_fmap_alter length _ (fun n => n + 1)%nat).
      2:{ apply Forall_forall. intros y _. apply length_app. }
      rewrite C3. reflexivity.
  - mgo_at. split; [exists N; exact HN | split; [exact C1 | split; assumption]].
Qed.

Lemma refresh_all_labels_consistent e :
  sat stays_consistent any_exn (refresh_all_labels e).
Proof. consistent_auto. Qed.

Lemma store_observations_consistent struc forces cr energy e :
  sat stays_consistent any_exn (store_observations struc forces cr energy e).
Proof.
  unfold store_observations. cbv zeta.
  apply (sat_bind _ _ stays_consistent_trans).
  - destruct forces; [apply add_forces_consistent |].
    apply (sat_ret _ _ stays_consistent_refl).
  - intros _. apply (sat_bind _ _ stays_consistent_trans).
    + destruct energy; [apply add_energy_consistent |].
      apply (sat_ret _ _ stays_consistent_refl).
    + intros _. apply refresh_all_labels_consistent.
Qed.

Lemma counted_at (s : State) (k : nat) d l ln n t e en al :
  counted s -> expert_is s k d l ln n t e en al ->
  n = Z.of_nat (length d) /\ length l = length d /\ length e = length t.
Proof.
  intros (C1 & C2 & C3) (Hd & Hl & _ & Hn & Ht & He & _).
  rewrite !map_is_fmap in *.
  assert (A1 : (fun d => Z.of_nat (length d)) <$> training_data (store s) !! k
               = Some n) by (rewrite <- list_lookup_fmap, <- C1; exact Hn).
  assert (A2 : length <$> training_labels (store s) !! k
               = length <$> training_data (store s) !! k)
    by (rewrite <- !list_lookup_fmap, C2; reflexivity).
  assert (A3 : length <$> energy_labels (store s) !! k
               = length <$> training_structures (store s) !! k)
    by (rewrite <- !list_lookup_fmap, C3; reflexivity).
  rewrite Hd in A1, A2. rewrite Hl in A2. rewrite He, Ht in A3.
  cbn in A1, A2, A3. repeat split; congruence.
Qed.

Lemma set_expert_consistent (N k : nat) (s : State) d l ln n t e en al :
  store_lists_have N s -> counted s ->
  n = Z.of_nat (length d) -> length l = length d -> length e = length t ->
  consistent (on_store (set_expert k d l ln n t e en al) s).
Proof.
  intros HN (C1 & C2 & C3) Hn Hl He. split.
  - exists N. apply set_expert_lengths. exact HN.
  - unfold counted, set_expert. cbn. rewrite !map_is_fmap in *.
    rewrite !list_fmap_insert. rewrite C1, C2, C3, Hn, Hl, He.
    repeat split.
Qed.

Lemma store_env_consistent env force e :
  sat stays_consistent any_exn (store_env env force e).
Proof.
  intros s. split; [| intros; exact I].
  intros [[N HN] HC].
  destruct (logger (attrs s)) eqn:Hlog.
  2:{ rewrite (store_env_no_logger env force e s Hlog).
      split; [exists N; exact HN | exact HC]. }
  destruct (norm_index N e) as [k |] eqn:Hk.
  2:{ rewrite (store_env_out_of_range env force e N s Hk HN Hlog).
      split; [exists N; exact HN | exact HC]. }
  destruct (expert_exists N k s HN (norm_index_lt _ _ _ Hk))
    as (d & l & ln & n & t & x & en & al & Hex).
  destruct (counted_at s k _ _ _ _ _ _ _ _ HC Hex) as (Hn & Hl & He).
  rewrite (store_env_run env force e k N s _ _ _ _ _ _ _ _ Hk HN Hex Hlog).
  cbn [snd]. apply (set_expert_consistent N); try assumption.
  - rewrite length_app, Hn. cbn. lia.
  - rewrite !length_app, Hl. reflexivity.
Qed.

Lemma add_container_consistent (s : State) :
  consistent s -> consistent (snd (add_container s)).
Proof.
  intros [[N HN] (C1 & C2 & C3)]. split.
  - exists (S N). unfold store_lists_have in *. cbn.
    rewrite !length_app. cbn [length].
    destruct HN as (-> & -> & -> & -> & -> & -> & -> & ->).
    repeat split; lia.
  - unfold counted. cbn. rewrite !map_app, C1, C2, C3. repeat split.
Qed.

Lemma consistent_on_attrs f (s : State) :
  consistent s -> consistent (on_attrs f s).
Proof. intros H. exact H. Qed.

Lemma grow_consistent (s : State) : consistent s -> consistent (grow s).
Proof.
  intros H. unfold grow. apply consistent_on_attrs.
  apply add_container_consistent. exact H.
Qed.

Lemma add_container_stays_consistent :
  sat stays_consistent any_exn add_container.
Proof.
  intros s. split; [exact (add_container_consistent s) | intros; exact I].
Qed.

Lemma find_expert_to_add_consistent :
  sat stays_consistent any_exn find_expert_to_add.
Proof. consistent_auto. Qed.

Lemma select_expert_consistent eid :
  sat stays_consistent any_exn (select_expert eid).
Proof.
  unfold select_expert.
  apply (sat_bind _ _ stays_consistent_trans).
  - destruct eid; [apply (sat_ret _ _ stays_consistent_refl) |].
    apply find_expert_to_add_consistent.
  - intros e s. rewrite make_room_run. cbn [fst snd].
    split; [| intros; exact I].
    destruct (n_experts (attrs s) <=? e); [| apply stays_consistent_refl].
    intros H. apply grow_consistent. exact H.
Qed.

Lemma update_db_consistent st f cr en e :
  sat stays_consistent any_exn (update_db st f cr en e).
Proof.
  unfold update_db. apply (sat_bind _ _ stays_consistent_trans).
  - apply select_expert_consistent.
  - intros x. apply store_observations_consistent.
Qed.

(** The read-only family: only [compute_one_matrices] writes a count, and
    it writes the number of environments. *)

Lemma refresh_count_consistent i :
  sat stays_consistent any_exn
    (let! d := cell_get c_training_data i in
     cell_set c_n_envs_prev i (Z.of_nat (length d))).
Proof.
  intros s. split; [| intros; exact I].
  intros [[N HN] HC]. pose proof HN as (H1 & _ & _ & H4 & _).
  unfold cell_set.
  destruct (norm_index N i) as [k |] eqn:Hk.
  - destruct (expert_exists N k s HN (norm_index_lt _ _ _ Hk))
      as (d & l & ln & n & t & x & en & al & Hex).
    destruct (counted_at s k _ _ _ _ _ _ _ _ HC Hex) as (Hn & _).
    destruct Hex as (Hd & _ & _ & Hnk & _). subst n.
    mgo_at. unfold on_store. msimpl. rewrite (alter_const_same _ _ _ Hnk).
    destruct s as [a [] f r c]. split; [exists N; exact HN | exact HC].
  - mgo_at. split; [exists N; exact HN | exact HC].
Qed.

Lemma compute_one_matrices_consistent ky i :
  sat stays_consistent any_exn (compute_one_matrices ky i).
Proof.
  pose proof (refresh_count_consistent i) as H.
  unfold compute_one_matrices.
  do 9 (apply (sat_bind _ _ stays_consistent_trans);
        [solve [consistent_auto] | intros]).
  exact H.
Qed.
#[local] Hint Resolve compute_one_matrices_consistent : sat.

Lemma set_L_alpha_part_consistent i :
  sat stays_consistent any_exn (set_L_alpha_part i).
Proof. consistent_auto. Qed.

Lemma set_L_alpha_consistent : sat stays_consistent any_exn set_L_alpha.
Proof. consistent_auto. Qed.
#[local] Hint Resolve set_L_alpha_part_consistent set_L_alpha_consistent : sat.

Lemma update_L_alpha_consistent i :
  sat stays_consistent any_exn (update_L_alpha i).
Proof. consistent_auto. Qed.
#[local] Hint Resolve update_L_alpha_consistent : sat.

Lemma check_L_alpha_loop_consistent experts :
  sat stays_consistent any_exn (check_L_alpha_loop experts).
Proof.
  induction experts as [| i rest IH]; cbn [check_L_alpha_loop];
    consistent_auto.
Qed.
#[local] Hint Resolve check_L_alpha_loop_consistent : sat.

Lemma check_L_alpha_consistent : sat stays_consistent any_exn check_L_alpha.
Proof. consistent_auto. Qed.
#[local] Hint Resolve check_L_alpha_consistent : sat.

Lemma kernel_vectors_consistent x d experts :
  sat stays_consistent any_exn (kernel_vectors x d experts).
Proof.
  induction experts as [| i rest IH]; cbn [kernel_vectors]; consistent_auto.
Qed.

Lemma predict_loop_consistent x d k_v experts : forall acc,
  sat stays_consistent any_exn (predict_loop x d k_v experts acc).
Proof.
  induction experts as [| i rest IH]; intros [[m v] b]; cbn [predict_loop];
    consistent_auto.
Qed.
#[local] Hint Resolve kernel_vectors_consistent predict_loop_consistent : sat.

Lemma predict_consistent x d : sat stays_consistent any_exn (predict x d).
Proof. consistent_auto. Qed.

Lemma registry_views_consistent experts :
  sat stays_consistent any_exn (registry_views experts).
Proof.
  induction experts as [| i rest IH]; cbn [registry_views]; consistent_auto.
Qed.
#[local] Hint Resolve registry_views_consistent : sat.

Lemma train_consistent kw : sat stays_consistent any_exn (train kw).
Proof. consistent_auto. Qed.

Lemma write_model_consistent name fmt :
  sat stays_consistent any_exn (write_model name fmt).
Proof. consistent_auto. Qed.

Lemma add_one_env_consistent env f t e kw :
  sat stays_consistent any_exn (add_one_env env f t e kw).
Proof.
  unfold add_one_env. apply (sat_bind _ _ stays_consistent_trans).
  - apply select_expert_consistent.
  - intros x. apply (sat_bind _ _ stays_consistent_trans).
    + apply store_env_consistent.
    + intros _. destruct t; [| apply (sat_ret _ _ stays_consistent_refl)].
      apply (sat_bind _ _ stays_consistent_trans);
        [apply train_consistent |].
      intros; apply (sat_ret _ _ stays_consistent_refl).
Qed.

Lemma exec_op_consistent (o : op) : sat stays_consistent any_exn (exec_op o).
Proof.
  destruct o; cbn [exec_op];
    (apply (sat_bind _ _ stays_consistent_trans);
     [| intros; apply (sat_ret _ _ stays_consistent_refl)]).
  - apply find_expert_to_add_consistent.
  - apply add_container_stays_consistent.
  - apply update_db_consistent.
  - apply add_one_env_consistent.
  - apply train_consistent.
  - apply check_L_alpha_consistent.
  - apply predict_consistent.
  - apply set_L_alpha_consistent.
  - apply set_L_alpha_part_consistent.
  - apply update_L_alpha_consistent.
  - apply compute_one_matrices_consistent.
  - consistent_auto.
  - consistent_auto.
  - apply write_model_consistent.
Qed.

Lemma run_consistent (ops : list op) : forall s : State,
  consistent s -> consistent (snd (run ops s)).
Proof.
  induction ops as [| o rest IH]; intros s Hs; [exact Hs |].
  cbn [run snd]. apply IH.
  destruct (exec_op_consistent o s) as [H _]. apply H. exact Hs.
Qed.

Lemma init_consistent n ndata pv h alg bnds lg :
  consistent (init n ndata pv h alg bnds lg : State).
Proof.
  unfold init. rewrite add_containers_run. split.
  - exists (length (range n)). unfold store_lists_have, with_containers, blank.
    cbn. rewrite !length_replicate. repeat split.
  - unfold counted, with_containers, blank. cbn.
    generalize (length (range n)). intros N.
    induction N as [| N IH]; [repeat split |].
    cbn. destruct IH as (-> & -> & ->). repeat split.
Qed.

(** X15. The cached counts never drift from the lists.  In every state
    reached from a new model by any sequence of calls (mutations, a bare
    [add_container], training, prediction, refreshes, persistence), also
    when calls raised part-way, [n_envs_prev[i]] is the number of
    environments of expert [i], every expert has as many force labels as
    environments and as many energy labels as structures, and the eight
    lists of the training store have one common length. *)
Theorem counts_agree_with_the_lists (n ndata : Z) (pv : F) (h : Hyps)
    (alg : string) (bnds : option Bounds) (lg : bool) (ops : list op) :
  let s := snd (run ops (init n ndata pv h alg bnds lg)) in
  n_envs_prev (store s)
    = map (fun d => Z.of_nat (length d)) (training_data (store s)) /\
  map (@length (list F)) (training_labels (store s))
    = map (@length Env) (training_data (store s)) /\
  map (@length F) (energy_labels (store s))
    = map (@length (list Env)) (training_structures (store s)) /\
  exists N, store_lists_have N s.
Proof.
  cbv zeta.
  destruct (run_consistent ops _ (init_consistent n ndata pv h alg bnds lg))
    as [HN (C1 & C2 & C3)].
  repeat split; assumption.
Qed.

(** ** Loading what [write_model] wrote *)

Lemma prefix_app (p a b : string) :
  String.prefix p a = true -> String.prefix p (a ++ b) = true.
Proof.
  revert a. induction p as [| c p IH]; intros a;
    [intros _; destruct (a +:+ b); reflexivity |].
  destruct a as [| c' a]; [discriminate |].
  change (String c' a +:+ b) with (String c' (a +:+ b)).
  cbn [String.prefix].
  destruct (ascii_dec c c'); [apply IH | discriminate].
Qed.

Lemma contains_app_r (p a b : string) :
  contains p b = true -> contains p (a ++ b) = true.
Proof.
  intros H. induction a as [| c a IH]; [exact H |].
  change (String c a +:+ b) with (String c (a +:+ b)).
  cbn [contains]. rewrite IH. apply orb_true_r.
Qed.

Lemma prefix_json_pickle (a : string) :
  String.prefix ".json" (a ++ ".pickle") = true ->
  String.prefix ".json" a = true.
Proof.
  destruct a as [| c1 [| c2 [| c3 [| c4 [| c5 a]]]]];
    lazy beta iota zeta delta [String.append String.prefix];
    repeat match goal with
           | |- context [ascii_dec ?x ?y] => destruct (ascii_dec x y)
           end;
    subst; intros H;
    first [ discriminate H
          | congruence
          | reflexivity
          | destruct a; reflexivity ].
Qed.

Lemma contains_json_pickle (name : string) :
  contains ".json" (name ++ ".pickle") = contains ".json" name.
Proof.
  induction name as [| c name IH]; [reflexivity |].
  change (contains ".json" (String c name ++ ".pickle"))
    with (String.prefix ".json" (String c name ++ ".pickle")
          || contains ".json" (name ++ ".pickle"))%bool.
  change (contains ".json" (String c name))
    with (String.prefix ".json" (String c name)
          || contains ".json" name)%bool.
  rewrite IH.
  destruct (String.prefix ".json" (String c name)) eqn:Hp.
  - rewrite (prefix_app _ _ ".pickle" Hp). reflexivity.
  - destruct (String.prefix ".json" (String c name ++ ".pickle")) eqn:Hq;
      [| reflexivity].
    apply prefix_json_pickle in Hq. congruence.
Qed.

(** X16. Round trip of [write_model] and [from_file].  The file a returning
    [write_model(name, format)] dumps, [name + '.pickle'], is what
    [from_file] loads when given that path and no format, unless [name]
    contains ['.json']: then [from_file] takes its first branch and fails
    with a [NameError], because [supported_formats] is not defined there. *)
Theorem written_model_loads_unless_named_json {Obj : Type}
    (read : string -> option Obj) (backward : Obj -> Obj)
    (name format : string) (s : State) :
  fst (write_model name format s) = Returns tt ->
  calls (snd (write_model name format s))
    = calls s ++ [Call_pickle_dump (name +:+ ".pickle")] /\
  from_file read backward (name +:+ ".pickle") "" =
    if contains ".json" name then Raises_NameError
    else match read (name +:+ ".pickle") with
         | Some gp_model => Model (backward gp_model)
         | None => Raises_from_open_or_load
         end.
Proof.
  rewrite write_model_run.
  destruct (String.eqb (lower format) "pickle"
            || String.eqb (lower format) "binary")%bool; [| discriminate].
  intros _. split; [reflexivity |].
  unfold from_file. rewrite contains_json_pickle.
  change (contains "json" "") with false. rewrite orb_false_r.
  destruct (contains ".json" name); [reflexivity |].
  rewrite (contains_app_r ".pickle" name ".pickle" eq_refl). reflexivity.
Qed.

(** ** Explicit targeting bypasses the router *)

Lemma router_fixed_refl s : router_fixed s s.
Proof. reflexivity. Qed.

Lemma router_fixed_trans s1 s2 s3 :
  router_fixed s1 s2 -> router_fixed s2 s3 -> router_fixed s1 s3.
Proof. unfold router_fixed. congruence. Qed.

Ltac router_auto :=
  sat_auto router_fixed_refl router_fixed_trans
    ltac:(intros; unfold router_fixed; reflexivity) ltac:(exact I).

Lemma router_fixed_of_keeps {A} (c : M A) P :
  sat keeps P c -> sat router_fixed any_exn c.
Proof.
  apply sat_weaken. intros s s' (_ & H & _). exact H.
Qed.

Lemma add_container_router_fixed : sat router_fixed any_exn add_container.
Proof. router_auto. Qed.

Lemma select_named_router_fixed e :
  sat router_fixed any_exn (select_expert (Some e)).
Proof. pose proof add_container_router_fixed. router_auto. Qed.

Lemma store_observations_router_fixed st f cr en e :
  sat router_fixed any_exn (store_observations st f cr en e).
Proof. router_auto. Qed.

Lemma store_env_router_fixed env f e :
  sat router_fixed any_exn (store_env env f e).
Proof. router_auto. Qed.

(** X17. An explicit [expert_id] bypasses the router: [update_db] and
    [add_one_env] called with one, whatever it is and whether they return
    or raise (and also when [add_one_env] goes on to train), leave
    [current_expert] where it was. *)
Theorem explicit_expert_id_leaves_the_router (e : Z) (s : State) :
  (forall struc forces custom_range energy,
     current_expert
       (attrs (snd (update_db struc forces custom_range energy (Some e) s)))
     = current_expert (attrs s)) /\
  (forall env force do_train kwargs,
     current_expert
       (attrs (snd (add_one_env env force do_train (Some e) kwargs s)))
     = current_expert (attrs s)).
Proof.
  split.
  - intros struc forces custom_range energy.
    assert (H : sat router_fixed any_exn
                  (update_db struc forces custom_range energy (Some e))).
    { unfold update_db. apply (sat_bind _ _ router_fixed_trans).
      - apply select_named_router_fixed.
      - intros; apply store_observations_router_fixed. }
    apply (H s).
  - intros env force do_train kwargs.
    assert (H : sat router_fixed any_exn
                  (add_one_env env force do_train (Some e) kwargs)).
    { unfold add_one_env. apply (sat_bind _ _ router_fixed_trans).
      - apply select_named_router_fixed.
      - intros x. apply (sat_bind _ _ router_fixed_trans).
        + apply store_env_router_fixed.
        + intros _. destruct do_train;
            [| apply (sat_ret _ _ router_fixed_refl)].
          apply (sat_bind _ _ router_fixed_trans);
            [exact (router_fixed_of_keeps _ _ (train_keeps kwargs)) |].
          intros; apply (sat_ret _ _ router_fixed_refl). }
    apply (H s).
Qed.

(** ** The optimizer calls of [train] *)

Lemma lookup_registry_run (i : Z) (s : State) :
  wf s -> 0 <= i < n_experts (attrs s) -> registered s i ->
  exists v, lookup_registry i s = (Returns v, s).
Proof.
  intros Hwf Hi (l & e & Hreg).
  pose proof (wf_store_lists _ Hwf) as (H1 & _ & _ & _ & H5 & _).
  destruct (lookup_lt_is_Some_2 (training_data (store s)) (Z.to_nat i))
    as [d Hd]; [lia |].
  destruct (lookup_lt_is_Some_2 (training_structures (store s)) (Z.to_nat i))
    as [t Ht]; [lia |].
  exists (d, l, t, e). unfold lookup_registry. mstep.
  rewrite Hreg. mstep. rewrite Hd. mstep. rewrite Ht. reflexivity.
Qed.

Lemma registry_views_run (experts : list Z) (s : State) :
  wf s ->
  (forall i, In i experts -> 0 <= i < n_experts (attrs s) /\ registered s i) ->
  exists views, registry_views experts s = (Returns views, s).
Proof.
  intros Hwf. induction experts as [| i rest IH]; intros Hall.
  - exists []. reflexivity.
  - destruct (Hall i (or_introl eq_refl)) as [Hi Hreg].
    destruct (lookup_registry_run i s Hwf Hi Hreg) as (v & Hv).
    destruct IH as (vs & Hvs); [intros j Hj; apply Hall; right; exact Hj |].
    exists (v :: vs). cbn [registry_views].
    rewrite (bind_returns _ _ _ _ _ Hv), (bind_returns _ _ _ _ _ Hvs).
    reflexivity.
Qed.

Lemma call_minimize_run (m : string) (x : Hyps) (b : option Bounds)
    (o : Opts) (s : State) :
  wf s -> (forall i, 0 <= i < n_experts (attrs s) -> registered s i) ->
  exists views,
    call_minimize m x b o s =
    match minimize m x b o views with
    | Returns r => (Returns r, snd (log_call (Call_minimize m) s))
    | Raises e => (Raises e, snd (log_call (Call_minimize m) s))
    end.
Proof.
  intros Hwf Hreg.
  destruct (registry_views_run (range (n_experts (attrs s)))
              (snd (log_call (Call_minimize m) s))) as (views & Hv).
  { exact Hwf. }
  { intros i Hi. apply in_range in Hi. split; [exact Hi |].
    destruct (Hreg i Hi) as (l & e & H). exists l, e. exact H. }
  exists views. unfold call_minimize.
  rewrite (bind_returns _ _ s tt (snd (log_call (Call_minimize m) s)))
    by reflexivity.
  rewrite (bind_returns get _ _ _ _ eq_refl).
  change (n_experts (attrs (snd (log_call (Call_minimize m) s))))
    with (n_experts (attrs s)).
  rewrite (bind_returns _ _ _ _ _ Hv).
  destruct (minimize m x b o views); reflexivity.
Qed.

Lemma settled_refl s : settled s s.
Proof. split; [reflexivity | exists []; symmetry; apply app_nil_r]. Qed.

Lemma settled_trans s1 s2 s3 : settled s1 s2 -> settled s2 s3 -> settled s1 s3.
Proof.
  intros (A1 & l1 & B1) (A2 & l2 & B2). split; [congruence |].
  exists (l1 ++ l2). rewrite B2, B1, app_assoc. reflexivity.
Qed.

Ltac settled_auto :=
  sat_auto settled_refl settled_trans
    ltac:(intros; split; [reflexivity | log_extended]) ltac:(exact I).

Lemma registry_views_settled experts :
  sat settled any_exn (registry_views experts).
Proof.
  induction experts as [| i rest IH]; cbn [registry_views]; settled_auto.
Qed.

Lemma call_minimize_settled m x b o : sat settled any_exn (call_minimize m x b o).
Proof. pose proof registry_views_settled. settled_auto. Qed.

Lemma set_L_alpha_settled : sat settled any_exn set_L_alpha.
Proof. settled_auto. Qed.

(** X18. The fallback of [train].  On a model with a logger whose
    optimizer is ['L-BFGS-B'], trained without custom bounds: if the
    L-BFGS-B run raises [LinAlgError], the model's [opt_algorithm] becomes
    ['BFGS'] and stays so, and the same call goes on to run BFGS, whatever
    that second run then does. *)
Theorem train_falls_back_to_BFGS (a : train_args) (s : State) :
  wf s -> 0 < n_experts (attrs s) ->
  arg_logger a = false -> custom_bounds a = None ->
  opt_algorithm (attrs s) = "L-BFGS-B" -> logger (attrs s) = true ->
  (forall b views,
     minimize "L-BFGS-B" (hyps (attrs s)) b (tolerances a) views
     = Raises LinAlgError) ->
  opt_algorithm (attrs (snd (train a s))) = "BFGS" /\
  exists l,
    calls (snd (train a s))
    = calls s ++ Call_minimize "L-BFGS-B" :: Call_minimize "BFGS" :: l.
Proof.
  intros Hwf Hn Hl Hcb Ho Hlog Hmin.
  destruct (sync_data_run s Hwf) as (s1 & Hsync & (Ha1 & Hst1 & Hf1) & Hc1 & Hreg).
  assert (Hwf1 : wf s1)
    by (eapply same_object_wf; [| exact Hwf]; repeat split; assumption).
  assert (Hd : (length (training_data (store s)) =? 0)%nat = false).
  { apply Nat.eqb_neq. destruct Hwf as (_ & -> & _). lia. }
  assert (Ht : (length (training_labels (store s)) =? 0)%nat = false).
  { apply Nat.eqb_neq. destruct Hwf as (_ & _ & -> & _). lia. }
  unfold train. rewrite Hl.
  rewrite (bind_returns _ _ s tt s) by reflexivity.
  rewrite (bind_returns _ _ s s s) by reflexivity.
  rewrite Hd, Ht. cbn [orb].
  rewrite (bind_returns _ _ s tt s) by reflexivity.
  rewrite (bind_returns _ _ s tt s1) by exact Hsync.
  cbv zeta. rewrite Ho, Hcb. cbn [String.eqb Ascii.eqb Bool.eqb].
  destruct (call_minimize_run "L-BFGS-B" (hyps (attrs s))
              (Some match bounds (attrs s) with
                    | Some b => b
                    | None => default_bounds (hyps (attrs s))
                    end) (tolerances a) s1 Hwf1) as (views & Hcm).
  { rewrite Ha1. exact Hreg. }
  rewrite Hmin in Hcm.
  set (s2 := snd (log_call (Call_minimize "L-BFGS-B") s1)) in *.
  set (s3 := on_attrs (set_opt_algorithm "BFGS") s2).
  match goal with
  | |- context [bind (try_except ?c ?e ?h) ?k] =>
      assert (Htry : try_except c e h s1 = (Returns None, s3))
  end.
  { unfold try_except. rewrite (bind_raises _ _ _ _ _ Hcm).
    destruct (decide (LinAlgError = LinAlgError)); [| congruence].
    unfold logger_write. mrun.
    change (logger (attrs s2)) with (logger (attrs s1)).
    rewrite Ha1, Hlog. reflexivity. }
  rewrite (bind_returns _ _ _ _ _ Htry).
  rewrite <- bind_assoc_run.
  rewrite (bind_returns get _ _ _ _ eq_refl).
  change (opt_algorithm (attrs s3)) with "BFGS".
  cbn [String.eqb Ascii.eqb Bool.eqb].
  set (s4 := snd (log_call (Call_minimize "BFGS") s3)).
  assert (Hs4 : opt_algorithm (attrs s4) = "BFGS" /\
                calls s4 = calls s ++ [Call_minimize "L-BFGS-B";
                                       Call_minimize "BFGS"]).
  { split; [reflexivity |]. subst s4 s3 s2. cbn. rewrite Hc1.
    rewrite <- app_assoc. reflexivity. }
  unfold call_minimize. rewrite <- !bind_assoc_run.
  rewrite (bind_returns _ _ s3 tt s4) by reflexivity.
  match goal with
  | |- context [snd (?c s4)] => assert (Hsat : sat settled any_exn c)
  end.
  { pose proof registry_views_settled. pose proof set_L_alpha_settled.
    settled_auto. }
  destruct (Hsat s4) as [(C1 & l & C2) _].
  destruct Hs4 as (B1 & B2).
  split; [congruence |]. exists l. rewrite C2, B2, <- app_assoc. reflexivity.
Qed.

(** X19. [train] with custom bounds.  The result [train] returns and
    installs is the one the optimizer gave for method ['L-BFGS-B'] with the
    custom bounds, started from the hyperparameters the model had when
    [train] was called; what the preceding run with the default bounds
    found is not used. *)
Theorem train_with_custom_bounds_uses_them (a : train_args) (cb : Bounds)
    (s s' : State) r :
  wf s ->
  custom_bounds a = Some cb ->
  train a s = (Returns r, s') ->
  (exists views,
     minimize "L-BFGS-B" (hyps (attrs s)) (Some cb) (tolerances a) views
     = Returns r) /\
  hyps (attrs s') = res_x r.
Proof.
  intros Hwf Hcb Hrun.
  split; [| exact (proj1 (train_returns a s s' r Hwf Hrun))].
  unfold train in Hrun.
  apply bind_returns_inv in Hrun as ([] & s0 & Hs0 & Hrun).
  assert (s0 = s) as ->
    by (destruct (arg_logger a);
        [discriminate Hs0 | injection Hs0 as <-; reflexivity]).
  apply bind_returns_inv in Hrun as (s00 & s0' & H0 & Hrun).
  injection H0 as <- <-.
  apply bind_returns_inv in Hrun as ([] & s1 & _ & Hrun).
  apply bind_returns_inv in Hrun as ([] & s2 & _ & Hrun).
  cbv zeta in Hrun.
  apply bind_returns_inv in Hrun as (res1 & s3 & _ & Hrun).
  apply bind_returns_inv in Hrun as (res2 & s4 & H4 & Hrun).
  rewrite Hcb in H4.
  apply bind_returns_inv in H4 as (r1 & s5 & Hcm & H4).
  injection H4 as <- <-.
  unfold call_minimize in Hcm.
  apply bind_returns_inv in Hcm as ([] & s6 & _ & Hcm).
  apply bind_returns_inv in Hcm as (s7 & s8 & _ & Hcm).
  apply bind_returns_inv in Hcm as (views & s9 & _ & Hcm).
  exists views.
  match type of Hcm with
  | match ?m with _ => _ end _ = _ =>
      destruct m as [r' | e] eqn:E; [| discriminate Hcm]
  end.
  injection Hcm as -> _.
  apply bind_returns_inv in Hrun as ([] & s10 & _ & Hrun).
  apply bind_returns_inv in Hrun as ([] & s11 & _ & Hrun).
  revert Hrun. mrun. intros [= <- _]. reflexivity.
Qed.

End Proofs.

(** * Worked instances

    The general statements applied to small models over the term
    interpretation of [Toy], and the runs on which the code departs from
    its specification. *)

(** ** Instances of the general statements *)


Lemma predict_checks_force_component_witness :
  predict 9 0 Toy.one_env_factored =
    (Raises AssertionError, Toy.one_env_factored) /\
  fst (predict 9 1 Toy.one_env_factored) <> Raises AssertionError.
Proof.
  split.
  - apply (proj1 (predict_checks_force_component 9 0 Toy.one_env_factored)).
    intros [H | [H | [H | []]]]; discriminate H.
  - apply (proj2 (predict_checks_force_component 9 1 Toy.one_env_factored)).
    left. reflexivity.
Defined.

Lemma overflow_creates_one_empty_expert_witness :
  exists s1,
    select_expert None Toy.over_capacity = (Returns 1, s1) /\
    grown_by_one Toy.over_capacity s1 /\
    n_experts
      (attrs (snd (update_db 2%nat None [] (Some (Toy.Lit 9)) None
                     Toy.over_capacity))) = 2.
Proof.
  destruct (overflow_creates_one_empty_expert
              2%nat None [] (Some (Toy.Lit 9)) Toy.over_capacity 3)
    as (s1 & Hsel & Hgrown & _ & _ & Hn & _).
  - vm_compute. repeat split; discriminate.
  - reflexivity.
  - reflexivity.
  - vm_compute. discriminate.
  - exists s1. split; [exact Hsel |]. split; [exact Hgrown | exact Hn].
Defined.

Lemma label_vector_kept_consistent_witness :
  mutation_post (Some 0) Toy.one_env Toy.with_energy.
Proof.
  assert (Hwf : wf Toy.one_env) by (vm_compute; repeat split; discriminate).
  assert (Hnp : np_synced Toy.one_env) by (vm_compute; split; reflexivity).
  apply (proj1 (label_vector_kept_consistent Toy.one_env Hwf Hnp)
           2%nat None [] (Some (Toy.Lit 9)) (Some 0) Toy.with_energy).
  vm_compute. reflexivity.
Defined.

Lemma explicit_expert_id_past_the_end_witness :
  exists s1,
    grown_by_one Toy.fresh1 s1 /\
    update_db 2%nat None [] None (Some 5) Toy.fresh1
      = (Raises IndexError, s1) /\
    add_one_env 5 Toy.force1 false (Some 5) Toy.no_kwargs Toy.fresh1
      = (Raises IndexError, s1).
Proof.
  assert (Hwf : wf Toy.fresh1) by (vm_compute; repeat split; discriminate).
  destruct (proj2 (explicit_expert_id_past_the_end Toy.fresh1 5 Hwf))
    as (s1 & Hgrown & Hupdate & Hadd).
  - reflexivity.
  - exists s1. split; [exact Hgrown |].
    split; [apply Hupdate | apply Hadd; reflexivity].
Defined.

(** ** Runs on which a claim fails *)



(** C9, counterexample: after an [update_db] that raised inside its loop
    over the atoms, a completed [update_db] that adds a structure energy
    leaves a label vector without the stored force labels. *)
Lemma label_vector_after_failed_update_counterexample :
  fst (update_db 2%nat (Some [Toy.force1]) [] None (Some 0) Toy.fresh1)
    = Raises IndexError /\
  update_db 2%nat None [] (Some (Toy.Lit 9)) (Some 0) Toy.half_added
    = (Returns tt,
       snd (update_db 2%nat None [] (Some (Toy.Lit 9)) (Some 0)
              Toy.half_added)) /\
  ~ labels_consistent 0
      (snd (update_db 2%nat None [] (Some (Toy.Lit 9)) (Some 0)
              Toy.half_added)).
Proof.
  split; [reflexivity |]. split; [reflexivity |].
  intros (fl & el & Hf & He & Ha).
  vm_compute in Hf, He, Ha.
  injection Hf as <-. injection He as <-. discriminate Ha.
Qed.

(** C10, counterexample: on a model left without its logger,
    [add_one_env] with an [expert_id] past the end fails with an attribute
    error, not an index error (the container is appended all the same),
    and with [expert_id = n_experts] the new expert stays empty. *)
Lemma explicit_expert_id_without_logger_counterexample :
  n_experts (attrs Toy.no_logger) = 1 /\
  add_one_env 5 Toy.force1 false (Some 5) Toy.no_kwargs Toy.no_logger
    <> (Raises IndexError,
        snd (add_one_env 5 Toy.force1 false (Some 5) Toy.no_kwargs
               Toy.no_logger)) /\
  fst (add_one_env 5 Toy.force1 false (Some 5) Toy.no_kwargs Toy.no_logger)
    = Raises AttributeError /\
  n_experts
    (attrs (snd (add_one_env 5 Toy.force1 false (Some 5) Toy.no_kwargs
                   Toy.no_logger))) = 2 /\
  fst (add_one_env 5 Toy.force1 false (Some 1) Toy.no_kwargs Toy.no_logger)
    = Raises AttributeError /\
  training_data
    (store (snd (add_one_env 5 Toy.force1 false (Some 1) Toy.no_kwargs
                   Toy.no_logger))) = [[]; []].
Proof.
  split; [reflexivity |]. split; [| repeat split; reflexivity].
  intros H. apply (f_equal fst) in H. vm_compute in H. discriminate H.
Qed.

(** C2: the refresh decision of [check_L_alpha] on three small models.
    With one environment and no factorization yet the call raises an
    attribute error and rebuilds nothing.  With an empty first expert and
    an environment in the second, the call returns without refreshing the
    second.  With a factorization one environment behind the data, the
    call raises a type error before the incremental update is computed. *)
Theorem check_L_alpha_refresh_decision_on_small_models :
  (training_data (store Toy.one_env) = [[5]] /\
   alpha (factors Toy.one_env) = [None] /\
   fst (check_L_alpha Toy.one_env) = Raises AttributeError /\
   calls (snd (check_L_alpha Toy.one_env)) = [] /\
   factors (snd (check_L_alpha Toy.one_env)) = factors Toy.one_env) /\
  (training_data (store Toy.second_only) = [[]; [5]] /\
   alpha (factors Toy.second_only) = [None; None] /\
   fst (check_L_alpha Toy.second_only) = Returns tt /\
   calls (snd (check_L_alpha Toy.second_only)) = [] /\
   factors (snd (check_L_alpha Toy.second_only))
     = factors Toy.second_only) /\
  (training_data (store Toy.two_envs_stale) = [[5; 6]] /\
   alpha (factors Toy.two_envs_stale)
     = alpha (factors Toy.one_env_factored) /\
   fst (check_L_alpha Toy.two_envs_stale) = Raises TypeError /\
   calls (snd (check_L_alpha Toy.two_envs_stale))
     = calls Toy.two_envs_stale /\
   factors (snd (check_L_alpha Toy.two_envs_stale))
     = factors Toy.two_envs_stale).
Proof. vm_compute. repeat split. Qed.

(** C3: an expert with one environment and one structure energy,
    factorized by [set_L_alpha], with no data added afterwards.  Each of two
    consecutive calls of [check_L_alpha] returns and builds the covariance
    matrix of the expert again. *)
Theorem check_L_alpha_rebuilds_expert_with_energy_labels :
  let s0 := Toy.with_energy_factored in
  let s1 := snd (check_L_alpha s0) in
  let s2 := snd (check_L_alpha s1) in
  training_data (store s0) = [[5]] /\
  energy_labels (store s0) = [[Toy.Lit 9]] /\
  store s1 = store s0 /\ store s2 = store s0 /\
  fst (check_L_alpha s0) = Returns tt /\
  fst (check_L_alpha s1) = Returns tt /\
  calls s1 = calls s0 ++ [Call_get_Ky_mat 0] /\
  calls s2 = calls s1 ++ [Call_get_Ky_mat 0].
Proof. vm_compute. repeat split. Qed.

(** C4: [train] on a model whose only expert holds no environment and no
    energy does not raise; it calls the optimizer, then factorizes. *)
Theorem train_on_empty_model_calls_optimizer :
  training_data (store Toy.fresh1) = [[]] /\
  energy_labels (store Toy.fresh1) = [[]] /\
  fst (train Toy.no_kwargs Toy.fresh1)
    = Returns (mkRes 7 (Toy.Lit 0) []) /\
  calls (snd (train Toy.no_kwargs Toy.fresh1))
    = [Call_minimize "L-BFGS-B"; Call_get_Ky_mat 0].
Proof. vm_compute. repeat split. Qed.

(** ** Instances of the further properties *)

Lemma calls_keep_one_entry_per_expert_witness :
  wf (snd (run [Op_add_one_env 5 Toy.force1 false None Toy.no_kwargs;
                Op_update_db 2%nat None [] None (Some 5);
                Op_train Toy.no_kwargs]
             (init 1 2 (Toy.Lit 4) 7 "L-BFGS-B" None true : Toy.State))).
Proof.
  apply (calls_keep_one_entry_per_expert 1 2 (Toy.Lit 4) 7 "L-BFGS-B" None true).
  - lia.
  - repeat constructor; discriminate.
Defined.

Lemma read_only_calls_keep_the_training_data_witness :
  training_data (store (snd (exec_op (Op_predict 9 1) Toy.one_env_factored)))
  = training_data (store Toy.one_env_factored).
Proof.
  apply (read_only_calls_keep_the_training_data
           (Op_predict 9 1) Toy.one_env_factored).
  reflexivity.
Defined.

Lemma sync_data_publishes_every_expert_witness :
  exists s', sync_data Toy.one_env = (Returns tt, s') /\ published s' 0.
Proof.
  assert (Hwf : wf Toy.one_env) by (vm_compute; repeat split; discriminate).
  destruct (proj1 (sync_data_publishes_every_expert Toy.one_env Hwf))
    as (s' & Hrun & _ & _ & _ & _ & Hpub).
  exists s'. split; [exact Hrun |]. apply Hpub. split; [lia | reflexivity].
Defined.


Lemma update_db_without_atoms_raises_witness :
  update_db 0%nat (Some []) [] None (Some 0) Toy.fresh1
  = (Raises ValueError, Toy.fresh1).
Proof.
  apply update_db_without_atoms_raises.
  - vm_compute. repeat split; discriminate.
  - split; [lia | reflexivity].
  - reflexivity.
  - reflexivity.
Defined.

Lemma predict_without_experts_witness :
  fst (predict 9 1 Toy.fresh0) =
  Returns (Toy.Mul (Toy.Div (Toy.Lit 1)
                      (Toy.Add (Toy.Lit 0)
                         (Toy.Div (Toy.Sub (Toy.Lit 1) (Toy.Lit 0))
                            (Toy.Lit 4))))
             (Toy.Lit 0),
           Toy.Div (Toy.Lit 1)
             (Toy.Add (Toy.Lit 0)
                (Toy.Div (Toy.Sub (Toy.Lit 1) (Toy.Lit 0)) (Toy.Lit 4)))).
Proof.
  rewrite (predict_without_experts 9 1 Toy.fresh0).
  - reflexivity.
  - left. reflexivity.
  - discriminate.
  - reflexivity.
  - reflexivity.
Defined.

Lemma update_db_appends_witness :
  energy_labels
    (store (snd (update_db 2%nat None [] (Some (Toy.Lit 9)) (Some (-1))
                   Toy.one_env))) !! 0%nat
  = Some [Toy.Lit 9].
Proof.
  assert (Hwf : wf Toy.one_env) by (vm_compute; repeat split; discriminate).
  destruct (update_db_appends 2%nat None [] (Some (Toy.Lit 9)) (-1) 0
              Toy.one_env
              (snd (update_db 2%nat None [] (Some (Toy.Lit 9)) (Some (-1))
                      Toy.one_env))
              [5] [Toy.force1] Toy.force1 1 [] [] [] Toy.force1 Hwf)
    as (fl & _ & _ & _ & _ & _ & _ & _ & _ & H).
  - reflexivity.
  - repeat split.
  - reflexivity.
  - exact H.
Defined.

Lemma add_one_env_fills_the_current_expert_witness :
  training_data
    (store (snd (add_one_env 6 Toy.force2 false None Toy.no_kwargs
                   Toy.one_env)))
  = [[5; 6]].
Proof.
  rewrite (add_one_env_fills_the_current_expert 6 Toy.force2 Toy.no_kwargs
             Toy.one_env 1 [5] [Toy.force1] Toy.force1 1 [] [] []
             Toy.force1).
  - reflexivity.
  - vm_compute. repeat split; discriminate.
  - reflexivity.
  - discriminate.
  - reflexivity.
  - repeat split.
Defined.

Lemma check_L_alpha_no_op_when_sizes_agree_witness :
  exists s',
    check_L_alpha Toy.one_env_factored = (Returns tt, s') /\
    factors s' = factors Toy.one_env_factored /\
    calls s' = calls Toy.one_env_factored.
Proof.
  destruct (check_L_alpha_no_op_when_sizes_agree Toy.one_env_factored)
    as (s' & Hrun & _ & _ & Hf & Hc).
  - vm_compute. repeat split; discriminate.
  - intros i d Hi Hd.
    replace (n_experts (attrs Toy.one_env_factored)) with 1 in Hi
      by reflexivity.
    assert (i = 0) by lia. subst i.
    vm_compute in Hd. injection Hd as <-.
    right. eexists. split; reflexivity.
  - exists s'. split; [exact Hrun |]. split; [exact Hf | exact Hc].
Defined.

Lemma compute_one_matrices_all_or_nothing_witness :
  snd (compute_one_matrices (Toy.Ky 7 [] []) 5 Toy.fresh1) = Toy.fresh1.
Proof.
  assert (Hwf : wf Toy.fresh1) by (vm_compute; repeat split; discriminate).
  apply (proj1 (compute_one_matrices_all_or_nothing (Toy.Ky 7 [] []) 5
                  Toy.fresh1 Hwf) IndexError).
  vm_compute. reflexivity.
Defined.

Lemma refreshing_one_expert_leaves_the_others_witness :
  only_expert (Z.to_nat 1) Toy.second_only
    (snd (set_L_alpha_part 1 Toy.second_only)).
Proof.
  assert (H : 0 <= 1) by lia.
  exact (proj1 (refreshing_one_expert_leaves_the_others 1 (Toy.Ky 7 [] [])
                  Toy.second_only H)).
Defined.

Lemma set_L_alpha_factorizes_every_expert_witness :
  expert_factorized Toy.one_env_factored 0.
Proof.
  assert (Hwf : wf Toy.one_env) by (vm_compute; repeat split; discriminate).
  assert (Hrun : set_L_alpha Toy.one_env = (Returns tt, Toy.one_env_factored))
    by (vm_compute; reflexivity).
  apply (proj1 (set_L_alpha_factorizes_every_expert Toy.one_env
                  Toy.one_env_factored Hwf Hrun) 0).
  split; [lia | reflexivity].
Defined.

Lemma train_installs_the_optimum_witness :
  hyps (attrs (snd (train Toy.no_kwargs Toy.one_env))) = 7.
Proof.
  assert (Hwf : wf Toy.one_env) by (vm_compute; repeat split; discriminate).
  assert (Hrun : train Toy.no_kwargs Toy.one_env
                 = (Returns (mkRes 7 (Toy.Lit 0) []),
                    snd (train Toy.no_kwargs Toy.one_env)))
    by (vm_compute; reflexivity).
  apply (proj1 (train_installs_the_optimum Toy.no_kwargs Toy.one_env
                  (snd (train Toy.no_kwargs Toy.one_env))
                  (mkRes 7 (Toy.Lit 0) []) Hwf Hrun)).
Defined.

Lemma written_model_loads_unless_named_json_witness :
  from_file Toy.disk S "gp.pickle" "" = @Model nat 2%nat.
Proof.
  assert (Hrun : fst (write_model "gp" "pickle" Toy.fresh1) = Returns tt)
    by (vm_compute; reflexivity).
  apply (proj2 (written_model_loads_unless_named_json Toy.disk S "gp" "pickle"
                  Toy.fresh1 Hrun)).
Defined.

Lemma train_falls_back_to_BFGS_witness :
  opt_algorithm
    (attrs (snd (@train Toy.num Z nat Z Toy.mat unit unit Toy.arith Toy.stiff
                   Toy.no_kwargs Toy.one_env)))
  = "BFGS".
Proof.
  apply (@train_falls_back_to_BFGS Toy.num Z nat Z Toy.mat unit unit
           Toy.arith Toy.stiff Toy.no_kwargs Toy.one_env).
  - vm_compute. repeat split; discriminate.
  - reflexivity.
  - reflexivity.
  - reflexivity.
  - reflexivity.
  - reflexivity.
  - intros b views. reflexivity.
Defined.

Lemma train_with_custom_bounds_uses_them_witness :
  exists views,
    minimize "L-BFGS-B" 7 (Some tt) tt views
    = Returns (mkRes 7 (Toy.Lit 0) [] : OptimizeResult Toy.num Z).
Proof.
  assert (Hwf : wf Toy.one_env) by (vm_compute; repeat split; discriminate).
  assert (Hrun : train Toy.custom_kwargs Toy.one_env
                 = (Returns (mkRes 7 (Toy.Lit 0) []),
                    snd (train Toy.custom_kwargs Toy.one_env)))
    by (vm_compute; reflexivity).
  apply (proj1 (train_with_custom_bounds_uses_them Toy.custom_kwargs tt
                  Toy.one_env (snd (train Toy.custom_kwargs Toy.one_env))
                  (mkRes 7 (Toy.Lit 0) []) Hwf eq_refl Hrun)).
Defined.
